(** * RBAC core of the autocode service: entity store, privilege evaluation,
      token revocation ledger and role/privilege graph management.

    The Python sources are embedded shallowly.  The relational store is the
    five tables declared in [app/infrastructure/db/repositories.py]; a
    repository method is a function in a state-and-exception monad over
    that store, and a service method is the same with the transaction
    boundary written out: when a method raises, the session is closed
    without commit and the store the caller sees is the one it started from.

    The storage engine is the default one ([database_url] is an SQLite
    url): PRIMARY KEY and UNIQUE constraints raise [IntegrityError] when
    the pending statements are flushed, an integer primary key is allocated
    as one more than the largest key present, foreign keys are not
    enforced and declared column lengths are not checked.  An integer
    bound as a statement parameter must fit an SQLite INTEGER: the driver
    raises [OverflowError] for a value outside the signed 64-bit range.
    This is written out where the integers come from the caller as they
    are (the offset and limit of a listing, a list of role or privilege
    ids); a key handed to a lookup by primary key is taken to be in range.

    The rows carry the columns the statements below speak of.  The audit
    columns [created_at] and [updated_at] are left out: the database
    fills them in, every UPDATE rewrites [updated_at], and
    [_serialize_user] copies both into the dict it caches.  Whatever is
    said below about a row or a table "as it was" is said of the columns
    that are modelled.

    A Python [str] is a Rocq string where the code compares, tests for
    emptiness or concatenates it, and the list of its code points where
    the code slices it (the activity log). *)

From Stdlib Require Import ZArith List Bool Lia Sorted Permutation.
From stdpp Require Import gmap strings pretty.
Import ListNotations.

Local Open Scope string_scope.
Local Open Scope Z_scope.

(** ** Exceptions and the result of a call *)

Inductive Exception : Type :=
| HTTPException (status_code : Z) (detail : string)
| ValueError (msg : string)
| IntegrityError (constraint : string)
| MultipleResultsFound
| AttributeError
| OverflowError
| TypeError (msg : string)
| RedisError (msg : string).

Definition HTTP_400_BAD_REQUEST : Z := 400.
Definition HTTP_401_UNAUTHORIZED : Z := 401.
Definition HTTP_403_FORBIDDEN : Z := 403.
Definition HTTP_404_NOT_FOUND : Z := 404.
Definition HTTP_409_CONFLICT : Z := 409.

Inductive result (A : Type) : Type :=
| Ok (a : A)
| Raise (e : Exception).
Arguments Ok {A} a.
Arguments Raise {A} e.

(** ** Rows and tables *)

Record PrivilegeORM : Type := mkPrivilege {
  privilege_id : Z;
  privilege_resource : string;
  privilege_action : string;
  privilege_description : option string;
  privilege_deleted_at : option Z }.

Record RoleORM : Type := mkRole {
  role_id : Z;
  role_name : string;
  role_is_superuser : bool;
  role_deleted_at : option Z }.

Record UserORM : Type := mkUser {
  user_id : Z;
  user_email : string;
  user_hashed_password : string;
  user_is_active : bool;
  user_is_blocked : bool;
  user_deleted_at : option Z }.

(** The two association tables hold pairs: [(user_id, role_id)] and
    [(role_id, privilege_id)]. *)
Record Store : Type := mkStore {
  users : list UserORM;
  roles : list RoleORM;
  privileges : list PrivilegeORM;
  user_roles : list (Z * Z);
  role_privileges : list (Z * Z) }.

Definition empty_store : Store := mkStore [] [] [] [] [].

Definition set_users (st : Store) (us : list UserORM) : Store :=
  mkStore us (roles st) (privileges st) (user_roles st) (role_privileges st).
Definition set_roles (st : Store) (rs : list RoleORM) : Store :=
  mkStore (users st) rs (privileges st) (user_roles st) (role_privileges st).
Definition set_privileges (st : Store) (ps : list PrivilegeORM) : Store :=
  mkStore (users st) (roles st) ps (user_roles st) (role_privileges st).
Definition set_user_roles (st : Store) (l : list (Z * Z)) : Store :=
  mkStore (users st) (roles st) (privileges st) l (role_privileges st).
Definition set_role_privileges (st : Store) (l : list (Z * Z)) : Store :=
  mkStore (users st) (roles st) (privileges st) (user_roles st) l.

(** The rows the listing queries return. *)
Record UserSummary : Type := mkUserSummary {
  us_id : Z;
  us_email : string;
  us_is_active : bool;
  us_is_blocked : bool }.

Record RoleSummary : Type := mkRoleSummary {
  rs_id : Z;
  rs_name : string;
  rs_is_superuser : bool }.

Record RolePrivilegeLink : Type := mkRolePrivilegeLink {
  link_role_id : Z;
  link_privilege_id : Z;
  link_role_name : string;
  link_privilege_resource : string;
  link_privilege_action : string;
  link_privilege_description : option string }.



(** ** State passing with exceptions

    [ST S A] is a call that reads and updates a state [S] and either
    returns or raises; [M] is a call made through a database session. *)

Definition ST (S A : Type) : Type := S -> result (A * S).
Definition M (A : Type) : Type := ST Store A.

Definition ret {S A} (a : A) : ST S A := fun st => Ok (a, st).
Definition raise {S A} (e : Exception) : ST S A := fun _ => Raise e.
Definition bind {S A B} (m : ST S A) (k : A -> ST S B) : ST S B :=
  fun st => match m st with
            | Ok (a, st') => k a st'
            | Raise e => Raise e
            end.
Definition get_store {S} : ST S S := fun st => Ok (st, st).
Definition put_store {S} (st : S) : ST S unit := fun _ => Ok (tt, st).

Notation "'let*' x ':=' m 'in' k" := (bind m (fun x => k))
  (at level 10, x name, m at level 100, k at level 200).
Notation "m ';;' k" := (bind m (fun _ => k))
  (at level 100, k at level 200, right associativity).

(** [for x in xs: body x] *)
Fixpoint for_each {S A} (xs : list A) (body : A -> ST S unit) : ST S unit :=
  match xs with
  | [] => ret tt
  | x :: xs' => body x ;; for_each xs' body
  end.

(** A service call as its caller sees it: the committed store afterwards.
    A call that raised leaves the store as it was. *)
Definition commit_or_rollback {S A} (m : ST S A) (st : S) : S :=
  match m st with
  | Ok (_, st') => st'
  | Raise _ => st
  end.

(** ** Query helpers *)

(** [Result.scalar_one_or_none()] *)
Definition scalar_one_or_none {A} (rows : list A) : result (option A) :=
  match rows with
  | [] => Ok None
  | [x] => Ok (Some x)
  | _ :: _ :: _ => Raise MultipleResultsFound
  end.

Definition lift_result {S A} (r : result A) : ST S A :=
  fun st => match r with Ok a => Ok (a, st) | Raise e => Raise e end.

(** [Result.first()] *)
Definition first {A} (rows : list A) : option A :=
  match rows with [] => None | x :: _ => Some x end.

Definition is_None {A} (o : option A) : bool :=
  match o with None => true | Some _ => false end.

(** Truthiness of the values the code tests with [if x:] / [not x]. *)
Definition truthy_int (z : Z) : bool := negb (z =? 0).
Definition truthy_str (s : string) : bool := negb (String.eqb s "").
Definition truthy_opt_str (o : option string) : bool :=
  match o with Some s => truthy_str s | None => false end.

Definition pair_eqb (a b : Z * Z) : bool :=
  (fst a =? fst b) && (snd a =? snd b).

(** Integer primary key allocation. *)
Definition next_id (ids : list Z) : Z := 1 + fold_right Z.max 0 ids.

(** SQL inner join with an ON condition. *)
Definition join {A B} (l : list A) (r : list B) (on : A -> B -> bool)
  : list (A * B) :=
  flat_map (fun a => map (fun b => (a, b)) (List.filter (on a) r)) l.

Definition sql_count {A} (rows : list A) : Z := Z.of_nat (length rows).

(** [ORDER BY]: the rows sorted on the order [le], ties in table order. *)
Fixpoint insert_sorted {A} (le : A -> A -> bool) (x : A) (l : list A) : list A :=
  match l with
  | [] => [x]
  | y :: l' => if le x y then x :: l else y :: insert_sorted le x l'
  end.

Definition order_by {A} (le : A -> A -> bool) (rows : list A) : list A :=
  fold_right (insert_sorted le) [] rows.

(** [OFFSET offset LIMIT limit] as SQLite reads them: a negative offset
    skips nothing and a negative limit is no bound. *)
Definition offset_limit {A} (offset limit : Z) (rows : list A) : list A :=
  let rows := skipn (Z.to_nat offset) rows in
  if limit <? 0 then rows else firstn (Z.to_nat limit) rows.



(** The range of an SQLite INTEGER. *)
Definition in_int64 (z : Z) : bool := (- 2 ^ 63 <=? z) && (z <=? 2 ^ 63 - 1).

(** Binding Python integers as the parameters of a statement: the driver
    raises [OverflowError] ("Python int too large to convert to SQLite
    INTEGER") for one that is out of range, before the statement runs. *)
Definition bind_params {S} (params : list Z) : ST S unit :=
  if forallb in_int64 params then ret tt else raise OverflowError.

(** ** PrivilegeRepository *)

Module PrivilegeRepository.

Definition get_by_id (privilege_id' : Z) (include_deleted : bool)
  : M (option PrivilegeORM) :=
  let* st := get_store in
  let stmt := List.filter (fun p => privilege_id p =? privilege_id') (privileges st) in
  let stmt := if negb include_deleted
              then List.filter (fun p => is_None (privilege_deleted_at p)) stmt
              else stmt in
  lift_result (scalar_one_or_none stmt).

(** [session.add(privilege); session.flush()]: the INSERT is checked
    against [uq_privilege_resource_action], which spans every row of the
    table, soft-deleted ones included. *)
Definition flush_new (resource action : string) (description : option string)
  : M PrivilegeORM :=
  let* st := get_store in
  if existsb (fun p => String.eqb (privilege_resource p) resource
                       && String.eqb (privilege_action p) action)
             (privileges st)
  then raise (IntegrityError "uq_privilege_resource_action")
  else
    let privilege :=
      mkPrivilege (next_id (map privilege_id (privileges st)))
                  resource action description None in
    put_store (set_privileges st (privileges st ++ [privilege])) ;;
    ret privilege.

Definition get_or_create (resource action : string) (description : option string)
  : M PrivilegeORM :=
  let* st := get_store in
  let stmt := List.filter
                (fun p => String.eqb (privilege_resource p) resource
                          && String.eqb (privilege_action p) action
                          && is_None (privilege_deleted_at p))
                (privileges st) in
  let* privilege := lift_result (scalar_one_or_none stmt) in
  match privilege with
  | Some privilege => ret privilege
  | None => flush_new resource action description
  end.

Definition flush_row (privilege : PrivilegeORM) : M unit :=
  let* st := get_store in
  put_store (set_privileges st
    (map (fun p => if privilege_id p =? privilege_id privilege then privilege else p)
         (privileges st))).

Definition soft_delete (privilege : PrivilegeORM) (now : Z) : M unit :=
  flush_row (mkPrivilege (privilege_id privilege) (privilege_resource privilege)
                         (privilege_action privilege)
                         (privilege_description privilege) (Some now)).

Definition restore (privilege : PrivilegeORM) : M PrivilegeORM :=
  let privilege := mkPrivilege (privilege_id privilege) (privilege_resource privilege)
                               (privilege_action privilege)
                               (privilege_description privilege) None in
  flush_row privilege ;;
  ret privilege.

Definition list_ (include_deleted : bool) (offset limit : Z) : M (list PrivilegeORM) :=
  bind_params [offset; limit] ;;
  let* st := get_store in
  let stmt := if negb include_deleted
              then List.filter (fun p => is_None (privilege_deleted_at p)) (privileges st)
              else privileges st in
  ret (offset_limit offset limit
         (order_by (fun p q => privilege_id p <=? privilege_id q) stmt)).

Definition count (include_deleted : bool) : M Z :=
  let* st := get_store in
  let stmt := if negb include_deleted
              then List.filter (fun p => is_None (privilege_deleted_at p)) (privileges st)
              else privileges st in
  ret (sql_count stmt).

(** The UPDATE is checked against [uq_privilege_resource_action] over the
    other rows when it assigns a new [(resource, action)] pair. *)
Definition update (privilege : PrivilegeORM) (resource action description : option string)
  : M PrivilegeORM :=
  let updated :=
    mkPrivilege (privilege_id privilege)
                (if truthy_opt_str resource then default "" resource
                 else privilege_resource privilege)
                (if truthy_opt_str action then default "" action
                 else privilege_action privilege)
                (match description with
                 | Some d => Some d
                 | None => privilege_description privilege
                 end)
                (privilege_deleted_at privilege) in
  let* st := get_store in
  if negb (String.eqb (privilege_resource updated) (privilege_resource privilege)
           && String.eqb (privilege_action updated) (privilege_action privilege))
     && existsb (fun p => negb (privilege_id p =? privilege_id updated)
                          && String.eqb (privilege_resource p) (privilege_resource updated)
                          && String.eqb (privilege_action p) (privilege_action updated))
                (privileges st)
  then raise (IntegrityError "uq_privilege_resource_action")
  else flush_row updated ;; ret updated.

(** [session.delete(privilege)]: the rows of [role_privileges] that belong
    to the privilege's [roles] backref (the links from roles that are
    loaded) go with it. *)
Definition hard_delete (privilege : PrivilegeORM) : M unit :=
  let* st := get_store in
  put_store
    (set_privileges
       (set_role_privileges st
          (List.filter
             (fun l => negb ((snd l =? privilege_id privilege)
                             && existsb (fun r => role_id r =? fst l) (roles st)))
             (role_privileges st)))
       (List.filter (fun p => negb (privilege_id p =? privilege_id privilege))
                    (privileges st))).

End PrivilegeRepository.

(** ** PrivilegeService *)

Module PrivilegeService.

(** [create_privilege] up to its [session.commit()]. *)
Definition create_privilege (resource action : string) (description : option string)
  : M PrivilegeORM :=
  let* existing := PrivilegeRepository.get_or_create resource action description in
  match privilege_deleted_at existing with
  | Some _ => PrivilegeRepository.restore existing
  | None => ret existing
  end.

Definition privilege_not_found : Exception :=
  HTTPException HTTP_404_NOT_FOUND "Privilege not found".

Definition _require_privilege (privilege_id' : Z) (include_deleted : bool)
  : M PrivilegeORM :=
  let* privilege := PrivilegeRepository.get_by_id privilege_id' include_deleted in
  match privilege with
  | None => raise privilege_not_found
  | Some privilege =>
      if negb (is_None (privilege_deleted_at privilege)) && negb include_deleted
      then raise privilege_not_found
      else ret privilege
  end.

Definition list_privileges (include_deleted : bool) (page per_page : Z)
  : M (list PrivilegeORM) :=
  let per_page := Z.min (Z.max per_page 1) 1000 in
  let page := Z.max page 1 in
  let offset := (page - 1) * per_page in
  PrivilegeRepository.list_ include_deleted offset per_page.

Definition count (include_deleted : bool) : M Z :=
  PrivilegeRepository.count include_deleted.

Definition update_privilege (privilege_id' : Z) (resource action description : option string)
  : M PrivilegeORM :=
  let* privilege := _require_privilege privilege_id' false in
  PrivilegeRepository.update privilege resource action description.

Definition delete_privilege (privilege_id' : Z) (hard : bool) (now : Z) : M unit :=
  let* privilege := _require_privilege privilege_id' true in
  if hard then PrivilegeRepository.hard_delete privilege
  else PrivilegeRepository.soft_delete privilege now.

Definition restore_privilege (privilege_id' : Z) : M PrivilegeORM :=
  let* privilege := _require_privilege privilege_id' true in
  match privilege_deleted_at privilege with
  | None => ret privilege
  | Some _ => PrivilegeRepository.restore privilege
  end.

End PrivilegeService.

(** ** RoleRepository *)

Module RoleRepository.

Definition get_by_name (name : string) : M (option RoleORM) :=
  let* st := get_store in
  lift_result (scalar_one_or_none
    (List.filter (fun r => String.eqb (role_name r) name && is_None (role_deleted_at r))
                 (roles st))).

Definition get_by_id (role_id' : Z) (include_deleted : bool) : M (option RoleORM) :=
  let* st := get_store in
  let stmt := List.filter (fun r => role_id r =? role_id') (roles st) in
  let stmt := if negb include_deleted
              then List.filter (fun r => is_None (role_deleted_at r)) stmt
              else stmt in
  lift_result (scalar_one_or_none stmt).

(** The statement selects on [is_superuser] only: soft-deleted roles are
    among the rows it returns. *)
Definition _assert_single_super_role (exclude_role_id : option Z) : M unit :=
  let* st := get_store in
  let stmt := List.filter (fun r => role_is_superuser r) (roles st) in
  let stmt := match exclude_role_id with
              | Some x => List.filter (fun r => negb (role_id r =? x)) stmt
              | None => stmt
              end in
  let* found := lift_result (scalar_one_or_none stmt) in
  match found with
  | Some _ => raise (ValueError "A superuser role already exists")
  | None => ret tt
  end.

(** INSERT into [role_privileges]; the pair is the primary key. *)
Definition insert_role_privilege (role_id' privilege_id' : Z) : M unit :=
  let* st := get_store in
  if existsb (pair_eqb (role_id', privilege_id')) (role_privileges st)
  then raise (IntegrityError "role_privileges.pkey")
  else put_store (set_role_privileges st
                    (role_privileges st ++ [(role_id', privilege_id')])).

(** [session.add(role); session.flush()]: INSERT of the role, checked
    against the UNIQUE constraint on [name], then of its links. *)
Definition flush_new (name : string) (is_superuser : bool) (linked : list PrivilegeORM)
  : M RoleORM :=
  let* st := get_store in
  if existsb (fun r => String.eqb (role_name r) name) (roles st)
  then raise (IntegrityError "roles.name")
  else
    let role := mkRole (next_id (map role_id (roles st))) name is_superuser None in
    put_store (set_roles st (roles st ++ [role])) ;;
    for_each linked (fun p => insert_role_privilege (role_id role) (privilege_id p)) ;;
    ret role.

Definition create (name : string) (privilege_ids : option (list Z)) (is_superuser : bool)
  : M RoleORM :=
  (if is_superuser then _assert_single_super_role None else ret tt) ;;
  let* linked :=
    match privilege_ids with
    | Some ((_ :: _) as ids) =>
        bind_params ids ;;
        let* st := get_store in
        ret (List.filter (fun p => existsb (Z.eqb (privilege_id p)) ids
                                   && is_None (privilege_deleted_at p))
                         (privileges st))
    | _ => ret []
    end in
  flush_new name is_superuser linked.

Definition attach_privilege (role : RoleORM) (privilege : PrivilegeORM) : M unit :=
  if negb (truthy_int (role_id role)) || negb (truthy_int (privilege_id privilege))
  then ret tt
  else
    let* st := get_store in
    let stmt := List.filter
                  (fun l => (fst l =? role_id role) && (snd l =? privilege_id privilege))
                  (role_privileges st) in
    match first stmt with
    | Some _ => ret tt
    | None => insert_role_privilege (role_id role) (privilege_id privilege)
    end.

Definition detach_privilege (role : RoleORM) (privilege : PrivilegeORM) : M unit :=
  if negb (truthy_int (role_id role)) || negb (truthy_int (privilege_id privilege))
  then ret tt
  else
    let* st := get_store in
    put_store (set_role_privileges st
      (List.filter
         (fun l => negb ((fst l =? role_id role) && (snd l =? privilege_id privilege)))
         (role_privileges st))).

(** UPDATE of one role row by primary key. *)
Definition flush_row (role : RoleORM) : M unit :=
  let* st := get_store in
  put_store (set_roles st
    (map (fun r => if role_id r =? role_id role then role else r) (roles st))).

(** UPDATE that assigns [name]: checked against the UNIQUE constraint
    over the other rows. *)
Definition flush_renamed (role : RoleORM) : M unit :=
  let* st := get_store in
  if existsb (fun r => negb (role_id r =? role_id role)
                       && String.eqb (role_name r) (role_name role)) (roles st)
  then raise (IntegrityError "roles.name")
  else flush_row role.

(** The session autoflushes before a SELECT, so an assigned name reaches
    the table before [_assert_single_super_role] runs its query. *)
Definition update_role (role : RoleORM) (name : option string) (is_superuser : option bool)
  : M RoleORM :=
  let* role :=
    if truthy_opt_str name
    then
      let role := mkRole (role_id role) (default "" name)
                         (role_is_superuser role) (role_deleted_at role) in
      flush_renamed role ;;
      ret role
    else ret role in
  let* role :=
    match is_superuser with
    | Some b =>
        if negb (Bool.eqb b (role_is_superuser role))
        then
          (if b then _assert_single_super_role (Some (role_id role)) else ret tt) ;;
          ret (mkRole (role_id role) (role_name role) b (role_deleted_at role))
        else ret role
    | None => ret role
    end in
  flush_row role ;;
  ret role.

Definition soft_delete (role : RoleORM) (now : Z) : M unit :=
  flush_row (mkRole (role_id role) (role_name role) (role_is_superuser role) (Some now)).

(** [session.delete(role)]: the rows of [role_privileges] that belong to
    the role's [privileges] relationship (the links to privileges that are
    loaded) go with it; [user_roles] has no relationship on the role side
    and is not touched. *)
Definition hard_delete (role : RoleORM) : M unit :=
  let* st := get_store in
  put_store
    (set_roles
       (set_role_privileges st
          (List.filter
             (fun l => negb ((fst l =? role_id role)
                             && existsb (fun p => privilege_id p =? snd l) (privileges st)))
             (role_privileges st)))
       (List.filter (fun r => negb (role_id r =? role_id role)) (roles st))).

Definition restore (role : RoleORM) : M RoleORM :=
  let role := mkRole (role_id role) (role_name role) (role_is_superuser role) None in
  flush_row role ;;
  ret role.

Definition get_super_role : M (option RoleORM) :=
  let* st := get_store in
  lift_result (scalar_one_or_none
                 (List.filter (fun r => role_is_superuser r) (roles st))).

Definition list_role_summaries (include_deleted : bool) (offset limit : Z)
  : M (list RoleSummary) :=
  bind_params [offset; limit] ;;
  let* st := get_store in
  let stmt := if negb include_deleted
              then List.filter (fun r => is_None (role_deleted_at r)) (roles st)
              else roles st in
  ret (map (fun r => mkRoleSummary (role_id r) (role_name r) (role_is_superuser r))
           (offset_limit offset limit
              (order_by (fun r r' => role_id r <=? role_id r') stmt))).

Definition count_roles (include_deleted : bool) : M Z :=
  let* st := get_store in
  let stmt := if negb include_deleted
              then List.filter (fun r => is_None (role_deleted_at r)) (roles st)
              else roles st in
  ret (sql_count stmt).

Definition get_detailed_by_id (role_id' : Z) : M (option RoleORM) :=
  let* st := get_store in
  lift_result (scalar_one_or_none
    (List.filter (fun r => (role_id r =? role_id') && is_None (role_deleted_at r))
                 (roles st))).

End RoleRepository.

(** ** RoleService *)

Module RoleService.

Definition role_not_found : Exception :=
  HTTPException HTTP_404_NOT_FOUND "Role not found".

(** [try: ... except ValueError as exc: raise HTTPException(400, str(exc))] *)
Definition except_ValueError {A} (m : M A) : M A :=
  fun st => match m st with
            | Raise (ValueError msg) => Raise (HTTPException HTTP_400_BAD_REQUEST msg)
            | r => r
            end.

Definition _require_role (role_id' : Z) (include_deleted : bool) : M RoleORM :=
  let* role := RoleRepository.get_by_id role_id' include_deleted in
  match role with
  | None => raise role_not_found
  | Some role =>
      if negb (is_None (role_deleted_at role)) && negb include_deleted
      then raise role_not_found
      else ret role
  end.

Definition _sync_privileges (role : RoleORM) (privilege_specs : list (string * string))
  : M unit :=
  for_each privilege_specs (fun spec =>
    let* privilege := PrivilegeRepository.get_or_create (fst spec) (snd spec) None in
    RoleRepository.attach_privilege role privilege).

(** [create_role] up to its [session.commit()]. *)
Definition create_role_commit (name : string)
           (privileges' : option (list (string * string)))
           (is_superuser : bool) : M RoleORM :=
  let* role := except_ValueError (RoleRepository.create name None is_superuser) in
  match privileges' with
  | Some ((_ :: _) as specs) => _sync_privileges role specs
  | _ => ret tt
  end ;;
  ret role.

Definition create_role (name : string) (privileges' : option (list (string * string)))
           (is_superuser : bool) : M (option RoleORM) :=
  let* role := create_role_commit name privileges' is_superuser in
  RoleRepository.get_by_id (role_id role) false.

(** [updated_role.privileges.clear(); session.flush()]: the links to the
    privileges loaded into the relationship are deleted. *)
Definition clear_privileges (role : RoleORM) : M unit :=
  let* st := get_store in
  put_store (set_role_privileges st
    (List.filter
       (fun l => negb ((fst l =? role_id role)
                       && existsb (fun p => privilege_id p =? snd l) (privileges st)))
       (role_privileges st))).

(** [update_role] up to its [session.commit()]. *)
Definition update_role_commit (role_id' : Z) (name : option string)
           (privileges' : option (list (string * string)))
           (is_superuser : option bool) : M RoleORM :=
  let* role := _require_role role_id' false in
  let* updated_role :=
    except_ValueError (RoleRepository.update_role role name is_superuser) in
  match privileges' with
  | Some specs => clear_privileges updated_role ;; _sync_privileges updated_role specs
  | None => ret tt
  end ;;
  ret updated_role.

Definition update_role (role_id' : Z) (name : option string)
           (privileges' : option (list (string * string)))
           (is_superuser : option bool) : M (option RoleORM) :=
  let* updated_role := update_role_commit role_id' name privileges' is_superuser in
  RoleRepository.get_by_id (role_id updated_role) false.

Definition delete_role (role_id' : Z) (hard : bool) (now : Z) : M unit :=
  let* role := _require_role role_id' true in
  if hard then RoleRepository.hard_delete role
  else RoleRepository.soft_delete role now.

Definition restore_role (role_id' : Z) : M RoleORM :=
  let* role := _require_role role_id' true in
  match role_deleted_at role with
  | None => ret role
  | Some _ => RoleRepository.restore role
  end.

Definition grant_privilege (role_id' : Z) (resource action : string)
  : M (option RoleORM) :=
  let* role := _require_role role_id' false in
  let* privilege := PrivilegeRepository.get_or_create resource action None in
  RoleRepository.attach_privilege role privilege ;;
  RoleRepository.get_by_id role_id' false.

Definition privilege_not_found : Exception :=
  HTTPException HTTP_404_NOT_FOUND "Privilege not found".

Definition revoke_privilege (role_id' privilege_id' : Z) : M (option RoleORM) :=
  let* role := _require_role role_id' false in
  let* privilege := PrivilegeRepository.get_by_id privilege_id' false in
  match privilege with
  | None => raise privilege_not_found
  | Some privilege =>
      RoleRepository.detach_privilege role privilege ;;
      RoleRepository.get_by_id role_id' false
  end.

Definition list_roles (page per_page : Z) : M (list RoleSummary) :=
  let per_page := Z.min (Z.max per_page 1) 1000 in
  let page := Z.max page 1 in
  let offset := (page - 1) * per_page in
  RoleRepository.list_role_summaries false offset per_page.

Definition count_roles (include_deleted : bool) : M Z :=
  RoleRepository.count_roles include_deleted.

Definition get_role_by_name (name : string) : M (option RoleORM) :=
  RoleRepository.get_by_name name.

Definition get_role_detail (role_id' : Z) : M RoleORM :=
  let* role := RoleRepository.get_detailed_by_id role_id' in
  match role with
  | None => raise role_not_found
  | Some role => ret role
  end.

(** The role operations an administrator can issue, with the clock
    reading a soft delete stamps into [deleted_at]. *)
Inductive RoleOp : Type :=
| OpCreate (name : string) (privileges' : option (list (string * string)))
           (is_superuser : bool)
| OpUpdate (role_id' : Z) (name : option string)
           (privileges' : option (list (string * string)))
           (is_superuser : option bool)
| OpSoftDelete (role_id' : Z) (now : Z)
| OpHardDelete (role_id' : Z)
| OpRestore (role_id' : Z).

Definition step (st : Store) (op : RoleOp) : Store :=
  match op with
  | OpCreate n ps su => commit_or_rollback (create_role_commit n ps su) st
  | OpUpdate i n ps su => commit_or_rollback (update_role_commit i n ps su) st
  | OpSoftDelete i now => commit_or_rollback (delete_role i false now) st
  | OpHardDelete i => commit_or_rollback (delete_role i true 0) st
  | OpRestore i => commit_or_rollback (restore_role i) st
  end.

Definition run (st : Store) (ops : list RoleOp) : Store := fold_left step ops st.

End RoleService.

(** ** RolePrivilegeRepository *)

Module RolePrivilegeRepository.

(** [role_privileges] joined to [roles] and to [privileges]. *)
Definition link_join (st : Store) : list (((Z * Z) * RoleORM) * PrivilegeORM) :=
  join (join (role_privileges st) (roles st) (fun l r => role_id r =? fst l))
       (privileges st)
       (fun row p => privilege_id p =? snd (fst row)).

Definition link_of_row (row : ((Z * Z) * RoleORM) * PrivilegeORM) : RolePrivilegeLink :=
  let '((l, r), p) := row in
  mkRolePrivilegeLink (fst l) (snd l) (role_name r) (privilege_resource p)
                      (privilege_action p) (privilege_description p).

(** [ORDER BY role_id, privilege_id] *)
Definition link_le (a b : ((Z * Z) * RoleORM) * PrivilegeORM) : bool :=
  let la := fst (fst a) in
  let lb := fst (fst b) in
  (fst la <? fst lb) || ((fst la =? fst lb) && (snd la <=? snd lb)).

Definition list_links (offset limit : Z) : M (list RolePrivilegeLink) :=
  bind_params [offset; limit] ;;
  let* st := get_store in
  ret (map link_of_row (offset_limit offset limit (order_by link_le (link_join st)))).

Definition count_links : M Z :=
  let* st := get_store in
  ret (sql_count (role_privileges st)).

Definition get_link (role_id' privilege_id' : Z) : M (option RolePrivilegeLink) :=
  let* st := get_store in
  let stmt := List.filter
                (fun row => (fst (fst (fst row)) =? role_id')
                            && (snd (fst (fst row)) =? privilege_id'))
                (link_join st) in
  match first stmt with
  | None => ret None
  | Some row => ret (Some (link_of_row row))
  end.

End RolePrivilegeRepository.

(** ** RolePrivilegeService *)

Module RolePrivilegeService.

Definition relation_not_found : Exception :=
  HTTPException HTTP_404_NOT_FOUND "Role-privilege relation not found".
Definition role_not_found : Exception :=
  HTTPException HTTP_404_NOT_FOUND "Role not found".
Definition privilege_not_found : Exception :=
  HTTPException HTTP_404_NOT_FOUND "Privilege not found".

Definition list_links (page per_page : Z) : M (list RolePrivilegeLink) :=
  let per_page := Z.min (Z.max per_page 1) 1000 in
  let page := Z.max page 1 in
  let offset := (page - 1) * per_page in
  RolePrivilegeRepository.list_links offset per_page.

Definition count_links : M Z := RolePrivilegeRepository.count_links.

Definition get_link (role_id' privilege_id' : Z) : M RolePrivilegeLink :=
  let* link := RolePrivilegeRepository.get_link role_id' privilege_id' in
  match link with
  | None => raise relation_not_found
  | Some link => ret link
  end.

Definition create_link (role_id' privilege_id' : Z) : M RolePrivilegeLink :=
  let* role := RoleRepository.get_by_id role_id' false in
  match role with
  | None => raise role_not_found
  | Some role =>
      if negb (is_None (role_deleted_at role)) then raise role_not_found
      else
        let* privilege := PrivilegeRepository.get_by_id privilege_id' false in
        match privilege with
        | None => raise privilege_not_found
        | Some privilege =>
            if negb (is_None (privilege_deleted_at privilege))
            then raise privilege_not_found
            else
              RoleRepository.attach_privilege role privilege ;;
              get_link role_id' privilege_id'
        end
  end.

Definition delete_link (role_id' privilege_id' : Z) : M unit :=
  let* link := RolePrivilegeRepository.get_link role_id' privilege_id' in
  match link with
  | None => raise relation_not_found
  | Some _ =>
      let* role := RoleRepository.get_by_id role_id' false in
      let* privilege := PrivilegeRepository.get_by_id privilege_id' false in
      match role with
      | None => raise role_not_found
      | Some role =>
          if negb (is_None (role_deleted_at role)) then raise role_not_found
          else
            match privilege with
            | None => raise privilege_not_found
            | Some privilege =>
                if negb (is_None (privilege_deleted_at privilege))
                then raise privilege_not_found
                else RoleRepository.detach_privilege role privilege
            end
      end
  end.

End RolePrivilegeService.

(** ** app.core.security

    The module is imported by the repositories and services and is not
    part of the source tree; its four functions are taken as an
    interface.  [create_access_token] and [decode_access_token] read the
    clock, which is passed in; [decode_access_token] is [None] where it
    raises [jwt.PyJWTError]. *)

Record TokenPayload : Type := mkPayload {
  payload_sub : option string;
  payload_email : option string }.

Class Security : Type := {
  get_password_hash : string -> string;
  verify_password : string -> string -> bool;
  create_access_token : TokenPayload -> Z -> string;
  decode_access_token : string -> Z -> option TokenPayload }.

(** ** UserRepository *)

Module UserRepository.
Section WithSecurity.
Context `{Security}.

Definition get_by_email (email : string) : M (option UserORM) :=
  let* st := get_store in
  lift_result (scalar_one_or_none
    (List.filter (fun u => String.eqb (user_email u) email && is_None (user_deleted_at u))
                 (users st))).

Definition get_by_id (user_id' : Z) : M (option UserORM) :=
  let* st := get_store in
  lift_result (scalar_one_or_none
    (List.filter (fun u => (user_id u =? user_id') && is_None (user_deleted_at u))
                 (users st))).

Definition get_by_id_include_deleted (user_id' : Z) : M (option UserORM) :=
  let* st := get_store in
  lift_result (scalar_one_or_none
    (List.filter (fun u => user_id u =? user_id') (users st))).

Definition get_detailed_by_id (user_id' : Z) : M (option UserORM) :=
  get_by_id user_id'.

(** The [roles] relationship of a loaded user: the roles reached through
    [user_roles], soft-deleted ones included. *)
Definition loaded_roles (st : Store) (user_id' : Z) : list RoleORM :=
  List.filter (fun r => existsb (pair_eqb (user_id', role_id r)) (user_roles st))
              (roles st).

(** The [privileges] relationship of a loaded role. *)
Definition loaded_privileges (st : Store) (role_id' : Z) : list PrivilegeORM :=
  List.filter (fun p => existsb (pair_eqb (role_id', privilege_id p)) (role_privileges st))
              (privileges st).

(** INSERT into [user_roles]; the pair is the primary key. *)
Definition insert_user_role (user_id' role_id' : Z) : M unit :=
  let* st := get_store in
  if existsb (pair_eqb (user_id', role_id')) (user_roles st)
  then raise (IntegrityError "user_roles.pkey")
  else put_store (set_user_roles st (user_roles st ++ [(user_id', role_id')])).

Definition in_ids (ids : list Z) (z : Z) : bool := existsb (Z.eqb z) ids.

(** The roles are selected before the INSERT of the user is flushed. *)
Definition create_user (email password : string) (is_blocked : bool)
           (role_ids : option (list Z)) : M UserORM :=
  let* roles' :=
    match role_ids with
    | Some ((_ :: _) as ids) =>
        bind_params ids ;;
        let* st := get_store in
        ret (List.filter (fun r => in_ids ids (role_id r)) (roles st))
    | _ => ret []
    end in
  let* st := get_store in
  if existsb (fun u => String.eqb (user_email u) email) (users st)
  then raise (IntegrityError "users.email")
  else
    let user := mkUser (next_id (map user_id (users st))) email
                       (get_password_hash password) true is_blocked None in
    put_store (set_users st (users st ++ [user])) ;;
    for_each roles' (fun r => insert_user_role (user_id user) (role_id r)) ;;
    ret user.

(** UPDATE of one user row by primary key. *)
Definition flush_row (user : UserORM) : M unit :=
  let* st := get_store in
  put_store (set_users st
    (map (fun u => if user_id u =? user_id user then user else u) (users st))).

(** UPDATE that assigns [email]: checked against the UNIQUE constraint
    over the other rows. *)
Definition flush_email (user : UserORM) : M unit :=
  let* st := get_store in
  if existsb (fun u => negb (user_id u =? user_id user)
                       && String.eqb (user_email u) (user_email user)) (users st)
  then raise (IntegrityError "users.email")
  else flush_row user.

Definition attach_roles (user : UserORM) (role_ids : list Z) : M unit :=
  bind_params role_ids ;;
  let* st := get_store in
  let roles' := List.filter (fun r => in_ids role_ids (role_id r)
                                      && is_None (role_deleted_at r)) (roles st) in
  for_each roles' (fun role =>
    let* st := get_store in
    if negb (existsb (fun r => role_id r =? role_id role)
                     (loaded_roles st (user_id user)))
    then insert_user_role (user_id user) (role_id role)
    else ret tt).

Definition detach_roles (user : UserORM) (role_ids : list Z) : M unit :=
  let* st := get_store in
  let removed := List.filter (fun r => in_ids role_ids (role_id r))
                             (loaded_roles st (user_id user)) in
  put_store (set_user_roles st
    (List.filter
       (fun l => negb ((fst l =? user_id user)
                       && existsb (fun r => role_id r =? snd l) removed))
       (user_roles st))).

(** [user.roles = list(roles)]: links to loaded roles that are not in
    the new collection are deleted, links to new members inserted. *)
Definition replace_roles (user : UserORM) (roles' : list RoleORM) : M unit :=
  let* st := get_store in
  let old := loaded_roles st (user_id user) in
  let dropped := List.filter
                   (fun r => negb (existsb (fun r' => role_id r' =? role_id r) roles'))
                   old in
  let added := List.filter
                 (fun r => negb (existsb (fun r' => role_id r' =? role_id r) old))
                 roles' in
  put_store (set_user_roles st
    (List.filter
       (fun l => negb ((fst l =? user_id user)
                       && existsb (fun r => role_id r =? snd l) dropped))
       (user_roles st))) ;;
  for_each added (fun r => insert_user_role (user_id user) (role_id r)).

Definition update_user (user : UserORM) (email : option string)
           (role_ids : option (list Z)) : M UserORM :=
  let* user :=
    if truthy_opt_str email
    then
      let user := mkUser (user_id user) (default "" email) (user_hashed_password user)
                         (user_is_active user) (user_is_blocked user)
                         (user_deleted_at user) in
      flush_email user ;;
      ret user
    else ret user in
  match role_ids with
  | Some ids =>
      bind_params ids ;;
      let* st := get_store in
      replace_roles user
        (List.filter (fun r => in_ids ids (role_id r) && is_None (role_deleted_at r))
                     (roles st))
  | None => ret tt
  end ;;
  ret user.

Definition set_block_status (user : UserORM) (blocked : bool) : M UserORM :=
  let user := mkUser (user_id user) (user_email user) (user_hashed_password user)
                     (user_is_active user) blocked (user_deleted_at user) in
  flush_row user ;;
  ret user.

Definition reset_password (user : UserORM) (password : string) : M UserORM :=
  let user := mkUser (user_id user) (user_email user) (get_password_hash password)
                     (user_is_active user) (user_is_blocked user)
                     (user_deleted_at user) in
  flush_row user ;;
  ret user.

Definition soft_delete (user : UserORM) (now : Z) : M UserORM :=
  let user := mkUser (user_id user) (user_email user) (user_hashed_password user)
                     false (user_is_blocked user) (Some now) in
  flush_row user ;;
  ret user.

Definition restore (user : UserORM) : M UserORM :=
  let user := mkUser (user_id user) (user_email user) (user_hashed_password user)
                     true (user_is_blocked user) None in
  flush_row user ;;
  ret user.

(** [session.delete(user)]: the rows of [user_roles] that belong to the
    user's [roles] relationship go with the user row. *)
Definition hard_delete (user : UserORM) : M unit :=
  let* st := get_store in
  let loaded := loaded_roles st (user_id user) in
  put_store
    (set_users
       (set_user_roles st
          (List.filter
             (fun l => negb ((fst l =? user_id user)
                             && existsb (fun r => role_id r =? snd l) loaded))
             (user_roles st)))
       (List.filter (fun u => negb (user_id u =? user_id user)) (users st))).

(** The five-table join of [user_has_privilege], row by row. *)
Definition privilege_join (st : Store)
  : list ((((UserORM * (Z * Z)) * RoleORM) * (Z * Z)) * PrivilegeORM) :=
  join (join (join (join (users st) (user_roles st)
                         (fun u ur => user_id u =? fst ur))
                   (roles st)
                   (fun row r => role_id r =? snd (snd row)))
             (role_privileges st)
             (fun row rp => role_id (snd row) =? fst rp))
       (privileges st)
       (fun row p => privilege_id p =? snd (snd row)).

Definition user_has_privilege (user_id' : Z) (resource action : string) : M bool :=
  let* st := get_store in
  let stmt :=
    List.filter
      (fun row =>
         let '((((u, _), r), _), p) := row in
         (user_id u =? user_id')
         && is_None (user_deleted_at u)
         && is_None (role_deleted_at r)
         && is_None (privilege_deleted_at p)
         && String.eqb (privilege_resource p) resource
         && String.eqb (privilege_action p) action)
      (privilege_join st) in
  ret (0 <? sql_count stmt).

Definition superuser_join (st : Store) : list ((UserORM * (Z * Z)) * RoleORM) :=
  join (join (users st) (user_roles st) (fun u ur => user_id u =? fst ur))
       (roles st)
       (fun row r => role_id r =? snd (snd row)).

Definition user_is_superuser (user_id' : Z) : M bool :=
  let* st := get_store in
  let stmt :=
    List.filter
      (fun row =>
         let '((u, _), r) := row in
         (user_id u =? user_id')
         && role_is_superuser r
         && is_None (role_deleted_at r))
      (superuser_join st) in
  ret (0 <? sql_count stmt).

Definition list_user_summaries (offset limit : Z) : M (list UserSummary) :=
  bind_params [offset; limit] ;;
  let* st := get_store in
  ret (map (fun u => mkUserSummary (user_id u) (user_email u) (user_is_active u)
                                   (user_is_blocked u))
           (offset_limit offset limit
              (order_by (fun u u' => user_id u <=? user_id u')
                 (List.filter (fun u => is_None (user_deleted_at u)) (users st))))).

Definition count_users : M Z :=
  let* st := get_store in
  ret (sql_count (List.filter (fun u => is_None (user_deleted_at u)) (users st))).

End WithSecurity.
End UserRepository.

(** ** User objects *)

(** What [_serialize_user] stores: the user's columns without the password
    hash, and the loaded roles with their privileges.  The dict of the
    code also holds [created_at] and [updated_at], which the rows here do
    not carry. *)
Record PrivilegeDict : Type := mkPrivilegeDict {
  pd_id : Z;
  pd_resource : string;
  pd_action : string;
  pd_description : option string }.

Record RoleDict : Type := mkRoleDict {
  rd_id : Z;
  rd_name : string;
  rd_is_superuser : bool;
  rd_privileges : list PrivilegeDict }.

Record UserDict : Type := mkUserDict {
  ud_id : Z;
  ud_email : string;
  ud_is_active : bool;
  ud_is_blocked : bool;
  ud_deleted_at : option Z;
  ud_roles : list RoleDict }.

(** What [UserService.get_by_id] hands back: a row loaded by the repository
    or the [SimpleNamespace] rebuilt from a cached dict. *)
Inductive UserObject : Type :=
| ORMUser (u : UserORM)
| Namespace (d : UserDict).

Definition object_id (o : UserObject) : Z :=
  match o with ORMUser u => user_id u | Namespace d => ud_id d end.
Definition object_email (o : UserObject) : string :=
  match o with ORMUser u => user_email u | Namespace d => ud_email d end.
Definition object_is_blocked (o : UserObject) : bool :=
  match o with ORMUser u => user_is_blocked u | Namespace d => ud_is_blocked d end.

(** ** AuthService *)

Module AuthService.
Section WithSecurity.
Context `{Security}.

Definition invalid_credentials : Exception :=
  HTTPException HTTP_401_UNAUTHORIZED "Invalid credentials".
Definition user_is_blocked_error : Exception :=
  HTTPException HTTP_403_FORBIDDEN "User is blocked".

Definition authenticate (email password : string) (now : Z) : M string :=
  let* user := UserRepository.get_by_email email in
  match user with
  | None => raise invalid_credentials
  | Some user =>
      if negb (verify_password password (user_hashed_password user))
      then raise invalid_credentials
      else if user_is_blocked user
      then raise user_is_blocked_error
      else ret (create_access_token
                  (mkPayload (Some (pretty (user_id user))) (Some (user_email user)))
                  now)
  end.

Definition missing_privilege (resource action : string) : Exception :=
  HTTPException HTTP_403_FORBIDDEN
                ("Missing privilege " ++ action ++ " on " ++ resource).

Definition assert_privilege (user_id' : Z) (resource action : string) : M unit :=
  let* super := UserRepository.user_is_superuser user_id' in
  if super then ret tt
  else
    let* has_permission := UserRepository.user_has_privilege user_id' resource action in
    if negb has_permission
    then raise (missing_privilege resource action)
    else ret tt.

Definition invalid_password : Exception :=
  HTTPException HTTP_400_BAD_REQUEST "Invalid password".

(** [user] is what [get_current_user] handed to the route; a
    [SimpleNamespace] rebuilt from the cache has no [hashed_password]. *)
Definition reset_own_password (user : UserObject) (old_password new_password : string)
  : M unit :=
  match user with
  | Namespace _ => raise AttributeError
  | ORMUser user =>
      if negb (verify_password old_password (user_hashed_password user))
      then raise invalid_password
      else UserRepository.reset_password user new_password ;; ret tt
  end.

End WithSecurity.
End AuthService.

(** ** app.core.config *)

Record Settings : Type := mkSettings {
  access_token_expire_minutes : Z;
  cache_ttl_seconds : Z }.

Definition default_settings : Settings := mkSettings 30 30.

(** ** app.core.caching

    Clock readings ([time.time()]) are integers, in seconds. *)

(** The values the services put in the cache: [True] for a revoked token,
    a serialized user otherwise. *)
Inductive CacheValue : Type :=
| VBool (b : bool)
| VUser (d : UserDict).

(** [bool(value)] for an optional cache value; a serialized user is a
    non-empty dict. *)
Definition truthy_value (v : option CacheValue) : bool :=
  match v with
  | Some (VBool b) => b
  | Some (VUser _) => true
  | None => false
  end.

(** [ttl or default] *)
Definition ttl_or (ttl : option Z) (default_ttl : Z) : Z :=
  match ttl with
  | Some t => if t =? 0 then default_ttl else t
  | None => default_ttl
  end.

Module AsyncTTLCache.

Record t : Type := mk {
  ttl_seconds : Z;
  _store : gmap string CacheValue;
  _expirations : gmap string Z }.

Definition new (ttl_seconds' : Z) : t := mk ttl_seconds' ∅ ∅.

Definition pop (key : string) (c : t) : t :=
  mk (ttl_seconds c) (delete key (_store c)) (delete key (_expirations c)).

Definition get (key : string) (now : Z) : ST t (option CacheValue) :=
  fun c =>
    match _expirations c !! key with
    | Some expires =>
        if (expires =? 0) || (expires <? now)
        then Ok (None, pop key c)
        else Ok (_store c !! key, c)
    | None => Ok (None, pop key c)
    end.

Definition set (key : string) (value : CacheValue) (ttl : option Z) (now : Z)
  : ST t unit :=
  fun c =>
    let ttl_value := ttl_or ttl (ttl_seconds c) in
    Ok (tt, mk (ttl_seconds c) (<[key := value]> (_store c))
               (<[key := now + ttl_value]> (_expirations c))).

Definition delete (key : string) : ST t unit :=
  fun c => Ok (tt, pop key c).

End AsyncTTLCache.

(** What a cache call finds outside the process: the clock, and whether
    the Redis server answers. *)
Record Env : Type := mkEnv {
  now : Z;
  redis_up : bool }.

Module DragonflyCache.

(** [server] is the keyspace of the Redis server the client talks to:
    each key holds a pickled value and the time at which it expires.  It
    is the external key-value store of the cache backend contract (GET,
    SET with a TTL, DELETE), kept next to the client so that a call can
    be run. *)
Record t : Type := mk {
  ttl_seconds : Z;
  _client : bool;
  _fallback : AsyncTTLCache.t;
  server : gmap string (CacheValue * Z) }.

Definition new (settings : Settings) : t :=
  mk (cache_ttl_seconds settings) false
     (AsyncTTLCache.new (cache_ttl_seconds settings)) ∅.

Definition connection_error : Exception := RedisError "Connection refused".

(** [Redis.from_url(url, encoding=None, ...)] followed by [ping()].  The
    client is built without an encoding, so that the connection it opens
    raises while it encodes the strings of its handshake
    ([str.encode(None, ...)]); an unreachable server makes the connect
    itself raise.  No first ping returns. *)
Definition from_url_ping (env : Env) : result unit :=
  if redis_up env
  then Raise (TypeError "encode() argument 'encoding' must be str, not None")
  else Raise connection_error.

(** [_get_client]: a client that answered a ping would be kept; as none
    does, [except Exception] resets [_client] to [None] at every call and
    the in-process fallback is used. *)
Definition _get_client (env : Env) : ST t bool :=
  fun c =>
    if _client c then Ok (true, c)
    else match from_url_ping env with
         | Ok _ => Ok (true, mk (ttl_seconds c) true (_fallback c) (server c))
         | Raise _ => Ok (false, mk (ttl_seconds c) false (_fallback c) (server c))
         end.

Definition in_fallback {A} (m : ST AsyncTTLCache.t A) : ST t A :=
  fun c =>
    match m (_fallback c) with
    | Ok (a, f) => Ok (a, mk (ttl_seconds c) (_client c) f (server c))
    | Raise e => Raise e
    end.

Definition invalid_expire : Exception := RedisError "invalid expire time in 'set' command".

Definition redis_get (env : Env) (key : string) : ST t (option CacheValue) :=
  fun c =>
    if negb (redis_up env) then Raise connection_error
    else match server c !! key with
         | Some (v, expires) => if now env <? expires then Ok (Some v, c) else Ok (None, c)
         | None => Ok (None, c)
         end.

Definition redis_set (env : Env) (key : string) (value : CacheValue) (ex : Z)
  : ST t unit :=
  fun c =>
    if negb (redis_up env) then Raise connection_error
    else if ex <=? 0 then Raise invalid_expire
    else Ok (tt, mk (ttl_seconds c) (_client c) (_fallback c)
                    (<[key := (value, now env + ex)]> (server c))).

Definition redis_delete (env : Env) (key : string) : ST t unit :=
  fun c =>
    if negb (redis_up env) then Raise connection_error
    else Ok (tt, mk (ttl_seconds c) (_client c) (_fallback c)
                    (base.delete key (server c))).

Definition get (env : Env) (key : string) : ST t (option CacheValue) :=
  let* client := _get_client env in
  if negb client then in_fallback (AsyncTTLCache.get key (now env))
  else redis_get env key.

Definition set (env : Env) (key : string) (value : CacheValue) (ttl : option Z)
  : ST t unit :=
  let* client := _get_client env in
  let* c := get_store in
  let ttl_value := ttl_or ttl (ttl_seconds c) in
  if negb client
  then in_fallback (AsyncTTLCache.set key value (Some ttl_value) (now env))
  else redis_set env key value ttl_value.

Definition delete (env : Env) (key : string) : ST t unit :=
  let* client := _get_client env in
  if negb client then in_fallback (AsyncTTLCache.delete key)
  else redis_delete env key.

End DragonflyCache.

(** ** TokenBlocklistService *)

Module TokenBlocklistService.

Definition ttl (settings : Settings) : Z := access_token_expire_minutes settings * 60.

Definition block_key (token : string) : string := "token:block:" ++ token.

Definition revoke (settings : Settings) (env : Env) (token : string)
  : ST DragonflyCache.t unit :=
  DragonflyCache.set env (block_key token) (VBool true) (Some (ttl settings)).

Definition is_revoked (env : Env) (token : string) : ST DragonflyCache.t bool :=
  let* v := DragonflyCache.get env (block_key token) in
  ret (truthy_value v).

End TokenBlocklistService.

(** ** The process state a request handler works on: the database behind
    its session and the process-wide cache backend. *)

Record World : Type := mkWorld {
  db : Store;
  cache : DragonflyCache.t }.

Definition in_db {A} (m : M A) : ST World A :=
  fun w => match m (db w) with
           | Ok (a, st) => Ok (a, mkWorld st (cache w))
           | Raise e => Raise e
           end.

Definition in_cache {A} (m : ST DragonflyCache.t A) : ST World A :=
  fun w => match m (cache w) with
           | Ok (a, c) => Ok (a, mkWorld (db w) c)
           | Raise e => Raise e
           end.

(** ** UserService *)

Module UserService.
Section WithSecurity.
Context `{Security}.

Definition serialize_privilege (p : PrivilegeORM) : PrivilegeDict :=
  mkPrivilegeDict (privilege_id p) (privilege_resource p) (privilege_action p)
                  (privilege_description p).

Definition serialize_role (st : Store) (r : RoleORM) : RoleDict :=
  mkRoleDict (role_id r) (role_name r) (role_is_superuser r)
             (map serialize_privilege (UserRepository.loaded_privileges st (role_id r))).

Definition _serialize_user (st : Store) (user : UserORM) : UserDict :=
  mkUserDict (user_id user) (user_email user) (user_is_active user)
             (user_is_blocked user) (user_deleted_at user)
             (map (serialize_role st) (UserRepository.loaded_roles st (user_id user))).

(** [_deserialize_user] reads its argument as a dict. *)
Definition _deserialize_user {S} (cached : option CacheValue) : ST S (option UserObject) :=
  match cached with
  | Some (VUser d) => ret (Some (Namespace d))
  | _ => raise AttributeError
  end.

Definition id_key (user_id' : Z) : string := "user:id:" ++ pretty user_id'.
Definition email_key (email : string) : string := "user:email:" ++ email.

Definition user_not_found : Exception :=
  HTTPException HTTP_404_NOT_FOUND "User not found".

Definition cache_user (env : Env) (cache_key : string) (user : UserORM) : ST World unit :=
  let* w := get_store in
  in_cache (DragonflyCache.set env cache_key (VUser (_serialize_user (db w) user)) None).

Definition get_by_id (env : Env) (user_id' : Z) : ST World (option UserObject) :=
  let cache_key := id_key user_id' in
  let* cached := in_cache (DragonflyCache.get env cache_key) in
  if truthy_value cached then _deserialize_user cached
  else
    let* user := in_db (UserRepository.get_by_id user_id') in
    match user with
    | Some u => cache_user env cache_key u ;; ret (Some (ORMUser u))
    | None => ret None
    end.

Definition get_by_email (env : Env) (email : string) : ST World (option UserObject) :=
  let cache_key := email_key email in
  let* cached := in_cache (DragonflyCache.get env cache_key) in
  if truthy_value cached then _deserialize_user cached
  else
    let* user := in_db (UserRepository.get_by_email email) in
    match user with
    | Some u => cache_user env cache_key u ;; ret (Some (ORMUser u))
    | None => ret None
    end.

Definition _invalidate_cache (env : Env) (user : option UserORM) : ST World unit :=
  match user with
  | None => ret tt
  | Some user =>
      in_cache (DragonflyCache.delete env (email_key (user_email user))) ;;
      if truthy_int (user_id user)
      then in_cache (DragonflyCache.delete env (id_key (user_id user)))
      else ret tt
  end.

Definition _require_user (user_id' : Z) (include_deleted : bool) : M UserORM :=
  let* user := if include_deleted
               then UserRepository.get_by_id_include_deleted user_id'
               else UserRepository.get_by_id user_id' in
  match user with
  | None => raise user_not_found
  | Some user =>
      if negb include_deleted && negb (is_None (user_deleted_at user))
      then raise user_not_found
      else ret user
  end.

Definition create_user (env : Env) (email password : string) (role_ids : option (list Z))
  : ST World (option UserORM) :=
  let* user := in_db (UserRepository.create_user email password false role_ids) in
  _invalidate_cache env (Some user) ;;
  if truthy_int (user_id user)
  then in_db (UserRepository.get_by_id (user_id user))
  else ret (Some user).

Definition update_user (env : Env) (user_id' : Z) (email : option string)
           (role_ids : option (list Z)) : ST World UserORM :=
  let* user := in_db (_require_user user_id' false) in
  let* updated := in_db (UserRepository.update_user user email role_ids) in
  _invalidate_cache env (Some updated) ;;
  ret updated.

Definition block_user (env : Env) (user_id' : Z) : ST World UserORM :=
  let* user := in_db (_require_user user_id' false) in
  let* updated := in_db (UserRepository.set_block_status user true) in
  _invalidate_cache env (Some updated) ;;
  ret updated.

Definition unblock_user (env : Env) (user_id' : Z) : ST World UserORM :=
  let* user := in_db (_require_user user_id' false) in
  let* updated := in_db (UserRepository.set_block_status user false) in
  _invalidate_cache env (Some updated) ;;
  ret updated.

Definition reset_password (env : Env) (user_id' : Z) (new_password : string)
  : ST World UserORM :=
  let* user := in_db (_require_user user_id' false) in
  let* updated := in_db (UserRepository.reset_password user new_password) in
  _invalidate_cache env (Some updated) ;;
  ret updated.

Definition delete_user (env : Env) (user_id' : Z) (hard : bool) : ST World unit :=
  let* user := in_db (_require_user user_id' true) in
  let* user := if hard
               then in_db (UserRepository.hard_delete user) ;; ret user
               else in_db (UserRepository.soft_delete user (now env)) in
  _invalidate_cache env (Some user).

Definition restore_user (env : Env) (user_id' : Z) : ST World UserORM :=
  let* user := in_db (_require_user user_id' true) in
  match user_deleted_at user with
  | None => ret user
  | Some _ =>
      let* restored := in_db (UserRepository.restore user) in
      _invalidate_cache env (Some restored) ;;
      ret restored
  end.

Definition assign_roles (env : Env) (user_id' : Z) (role_ids : list Z)
  : ST World (option UserORM) :=
  let* user := in_db (_require_user user_id' false) in
  in_db (UserRepository.attach_roles user role_ids) ;;
  _invalidate_cache env (Some user) ;;
  in_db (UserRepository.get_detailed_by_id user_id').

Definition remove_roles (env : Env) (user_id' : Z) (role_ids : list Z)
  : ST World (option UserORM) :=
  let* user := in_db (_require_user user_id' false) in
  in_db (UserRepository.detach_roles user role_ids) ;;
  _invalidate_cache env (Some user) ;;
  in_db (UserRepository.get_by_id user_id').

Definition list_users (page per_page : Z) : ST World (list UserSummary) :=
  let per_page := Z.min (Z.max per_page 1) 1000 in
  let page := Z.max page 1 in
  let offset := (page - 1) * per_page in
  in_db (UserRepository.list_user_summaries offset per_page).

Definition count_users : ST World Z := in_db UserRepository.count_users.

Definition get_user_detail (user_id' : Z) : ST World UserORM :=
  let* user := in_db (UserRepository.get_detailed_by_id user_id') in
  match user with
  | None => raise user_not_found
  | Some user => ret user
  end.

End WithSecurity.
End UserService.

(** ** app.api.dependencies *)

Module Dependencies.
Section WithSecurity.
Context `{Security}.

(** Python's built-in [int] on a [str]: [None] where it raises
    [ValueError]. *)
Variable int_of_str : string -> option Z.

Definition credentials_exception : Exception :=
  HTTPException HTTP_401_UNAUTHORIZED "Could not validate credentials".

(** The [try] block: [jwt.PyJWTError], and the [TypeError] or [ValueError]
    of [int(payload.get("sub"))], are turned into [credentials_exception]. *)
Definition decode_subject {S} (token : string) (now' : Z) : ST S Z :=
  match decode_access_token token now' with
  | Some payload =>
      match payload_sub payload with
      | Some sub =>
          match int_of_str sub with
          | Some user_id' => ret user_id'
          | None => raise credentials_exception
          end
      | None => raise credentials_exception
      end
  | None => raise credentials_exception
  end.

Definition get_current_user (env : Env) (token : string) : ST World UserObject :=
  let* user_id' := decode_subject token (now env) in
  let* revoked := in_cache (TokenBlocklistService.is_revoked env token) in
  if revoked then raise credentials_exception
  else
    let* user := UserService.get_by_id env user_id' in
    match user with
    | None => raise credentials_exception
    | Some user =>
        if object_is_blocked user then raise credentials_exception
        else ret user
    end.

Definition require_privilege (resource action : string) (env : Env) (token : string)
  : ST World UserObject :=
  let* current_user := get_current_user env token in
  in_db (AuthService.assert_privilege (object_id current_user) resource action) ;;
  ret current_user.

Definition superuser_required : Exception :=
  HTTPException HTTP_403_FORBIDDEN "Superuser privileges required".

Definition require_superuser (env : Env) (token : string) : ST World UserObject :=
  let* current_user := get_current_user env token in
  let* super := in_db (UserRepository.user_is_superuser (object_id current_user)) in
  if super then ret current_user else raise superuser_required.

End WithSecurity.
End Dependencies.

(** ** Bootstrap seed *)

Module Seeds.
Section WithSecurity.
Context `{Security}.

Definition privilege_specs : list (string * string) :=
  [ ("users", "read"); ("users", "insert"); ("users", "update"); ("users", "delete");
    ("users", "block"); ("users", "unblock"); ("users", "reset_password");
    ("roles", "read"); ("roles", "insert"); ("roles", "update"); ("roles", "delete");
    ("privileges", "read"); ("privileges", "insert"); ("privileges", "update");
    ("privileges", "delete") ].

(** The first loop: [privileges.append(get_or_create(resource, action))]. *)
Fixpoint collect_privileges (specs : list (string * string)) : M (list PrivilegeORM) :=
  match specs with
  | [] => ret []
  | spec :: specs' =>
      let* privilege := PrivilegeRepository.get_or_create (fst spec) (snd spec) None in
      let* rest := collect_privileges specs' in
      ret (privilege :: rest)
  end.

Definition seed_initial_data : M unit :=
  let* privileges' := collect_privileges privilege_specs in
  let* found := RoleRepository.get_by_name "admin" in
  let* admin_role :=
    match found with
    | Some admin_role => ret admin_role
    | None =>
        let* admin_role := RoleRepository.create "admin" None true in
        for_each privileges' (fun p => RoleRepository.attach_privilege admin_role p) ;;
        ret admin_role
    end in
  let* admin_user := UserRepository.get_by_email "admin@example.com" in
  match admin_user with
  | Some _ => ret tt
  | None =>
      UserRepository.create_user "admin@example.com" "ChangeMe123!" false
        (if truthy_int (role_id admin_role) then Some [role_id admin_role] else None) ;;
      ret tt
  end.

End WithSecurity.
End Seeds.

(** ** ActivityLogRepository

    [create_log] adds one row to the session; the state is the list of
    rows the session holds for [activity_logs]. *)

Module ActivityLogRepository.


End ActivityLogRepository.

(** ** Properties of store states used by the statements below *)

(** Number of rows of [role_privileges] that link a role to a privilege. *)
Definition link_count (st : Store) (role_id' privilege_id' : Z) : nat :=
  length (List.filter (pair_eqb (role_id', privilege_id')) (role_privileges st)).

(** [uq_privilege_resource_action] over the rows of a privileges table. *)
Definition privilege_key (p : PrivilegeORM) : string * string :=
  (privilege_resource p, privilege_action p).

Definition privilege_unique (st : Store) : Prop :=
  List.NoDup (map privilege_key (privileges st)).

(** A store whose only privilege, [("users", "read")], is soft-deleted. *)
Definition soft_deleted_privilege_store : Store :=
  mkStore [] [] [mkPrivilege 1 "users" "read" None (Some 1700000000)] [] [].

(** The roles that carry the superuser flag, and those among them that are
    not soft-deleted. *)
Definition super_roles (st : Store) : list RoleORM :=
  List.filter role_is_superuser (roles st).

Definition active_super (r : RoleORM) : bool :=
  role_is_superuser r && is_None (role_deleted_at r).

Definition active_super_roles (st : Store) : list RoleORM :=
  List.filter active_super (roles st).

Definition at_most_one_super (st : Store) : Prop := (length (super_roles st) <= 1)%nat.

Definition at_most_one_active_super (st : Store) : Prop :=
  (length (active_super_roles st) <= 1)%nat.

(** Primary key of [roles]. *)
Definition role_ids_unique (st : Store) : Prop := List.NoDup (map role_id (roles st)).

(** Two superuser roles, the first of them soft-deleted. *)
Definition two_super_roles_store : Store :=
  mkStore [] [mkRole 1 "admin" true (Some 1700000000); mkRole 2 "root" true None] [] [] [].

(** One superuser role, soft-deleted. *)
Definition deleted_super_role_store : Store :=
  mkStore [] [mkRole 1 "admin" true (Some 1700000000)] [] [] [].

Definition superuser_exists_error : Exception :=
  HTTPException HTTP_400_BAD_REQUEST "A superuser role already exists".

(** ** Auxiliary notions for the proofs *)

Definition key_matches (resource action : string) (p : PrivilegeORM) : bool :=
  String.eqb (privilege_resource p) resource && String.eqb (privilege_action p) action.

Definition replace_role (role : RoleORM) (r : RoleORM) : RoleORM :=
  if role_id r =? role_id role then role else r.

(** All the rows that satisfy [P] carry one key. *)
Definition single_by (P : RoleORM -> bool) (rs : list RoleORM) : Prop :=
  forall r1 r2, In r1 rs -> In r2 rs -> P r1 = true -> P r2 = true ->
                role_id r1 = role_id r2.

Definition other_super (exclude : option Z) (r : RoleORM) : bool :=
  role_is_superuser r
  && match exclude with Some x => negb (role_id r =? x) | None => true end.

Definition new_role (st : Store) (name : string) (is_superuser : bool) : RoleORM :=
  mkRole (next_id (map role_id (roles st))) name is_superuser None.

(** A call that leaves [roles] as it is and raises no [HTTPException]. *)
Definition keeps_roles {A} (m : M A) : Prop :=
  forall st, match m st with
             | Ok (_, st') => roles st' = roles st
             | Raise e => forall c d, e <> HTTPException c d
             end.

(** The invariant the operations keep: the primary key of [roles], and at
    most one row that satisfies [P]. *)
Definition roles_invariant (P : RoleORM -> bool) (st : Store) : Prop :=
  role_ids_unique st /\ single_by P (roles st).

Definition is_restore (op : RoleService.RoleOp) : bool :=
  match op with RoleService.OpRestore _ => true | _ => false end.

(** The privilege synchronisation step of [create_role]. *)
Definition create_sync (role : RoleORM) (ps : option (list (string * string))) : M unit :=
  match ps with
  | Some ((_ :: _) as specs) => RoleService._sync_privileges role specs
  | _ => ret tt
  end.

(** The privilege replacement step of [update_role]. *)
Definition update_sync (role : RoleORM) (ps : option (list (string * string))) : M unit :=
  match ps with
  | Some specs => RoleService.clear_privileges role ;; RoleService._sync_privileges role specs
  | None => ret tt
  end.

(** An update that assigns [name] to the role [role_id'] while another row
    already carries that name. *)
Definition name_taken_by_other (st : Store) (role_id' : Z) (name : option string) : bool :=
  truthy_opt_str name
  && existsb (fun r => negb (role_id r =? role_id')
                       && String.eqb (role_name r) (default "" name)) (roles st).

(** The user holds a non-deleted role with the superuser flag. *)
Definition holds_superuser_role (st : Store) (user_id' : Z) : Prop :=
  exists u r,
    In u (users st) /\ user_id u = user_id'
    /\ In (user_id', role_id r) (user_roles st)
    /\ In r (roles st) /\ role_is_superuser r = true /\ role_deleted_at r = None.

(** The non-deleted user is assigned a non-deleted role linked to a
    non-deleted privilege with exactly this resource and action. *)
Definition holds_privilege (st : Store) (user_id' : Z) (resource action : string) : Prop :=
  exists u r p,
    In u (users st) /\ user_id u = user_id' /\ user_deleted_at u = None
    /\ In (user_id', role_id r) (user_roles st)
    /\ In r (roles st) /\ role_deleted_at r = None
    /\ In (role_id r, privilege_id p) (role_privileges st)
    /\ In p (privileges st) /\ privilege_deleted_at p = None
    /\ privilege_resource p = resource /\ privilege_action p = action.

(** Primary key and UNIQUE constraint of [users]. *)
Definition user_ids_unique (st : Store) : Prop := List.NoDup (map user_id (users st)).
Definition user_emails_unique (st : Store) : Prop := List.NoDup (map user_email (users st)).

Definition replace_user (user : UserORM) (u : UserORM) : UserORM :=
  if user_id u =? user_id user then user else u.

(** The token [authenticate] issues to a user. *)
Definition token_for `{Security} (u : UserORM) (now' : Z) : string :=
  create_access_token (mkPayload (Some (pretty (user_id u))) (Some (user_email u))) now'.


(** A client that is connected still reaches the server. *)
Definition client_reaches_server (env : Env) (c : DragonflyCache.t) : Prop :=
  DragonflyCache._client c = true -> redis_up env = true.

(** One active user, and a process whose cache is empty and whose Redis
    server is unreachable (the in-process fallback is in use). *)
Definition renamed_user_world : World :=
  mkWorld (mkStore [mkUser 1 "old@example.com" "hash" true false None] [] [] [] [])
          (DragonflyCache.new default_settings).

Definition renamed_user_env : Env := mkEnv 1700000000 false.

(** The entry of [key] in the backend in use at [env], if any. *)
Definition cached_at (env : Env) (c : DragonflyCache.t) (key : string) : option CacheValue :=
  match DragonflyCache.get env key c with
  | Ok (v, _) => v
  | Raise _ => None
  end.

(** The mutating operations of [UserService]. *)
Inductive UserOp : Type :=
| CreateUser (email password : string) (role_ids : option (list Z))
| UpdateUser (user_id' : Z) (email : option string) (role_ids : option (list Z))
| BlockUser (user_id' : Z)
| UnblockUser (user_id' : Z)
| ResetPassword (user_id' : Z) (new_password : string)
| DeleteUser (user_id' : Z) (hard : bool)
| RestoreUser (user_id' : Z)
| AssignRoles (user_id' : Z) (role_ids : list Z)
| RemoveRoles (user_id' : Z) (role_ids : list Z).

Definition perform `{Security} (env : Env) (op : UserOp) : ST World unit :=
  match op with
  | CreateUser e p r => UserService.create_user env e p r ;; ret tt
  | UpdateUser i e r => UserService.update_user env i e r ;; ret tt
  | BlockUser i => UserService.block_user env i ;; ret tt
  | UnblockUser i => UserService.unblock_user env i ;; ret tt
  | ResetPassword i p => UserService.reset_password env i p ;; ret tt
  | DeleteUser i hard => UserService.delete_user env i hard
  | RestoreUser i => UserService.restore_user env i ;; ret tt
  | AssignRoles i r => UserService.assign_roles env i r ;; ret tt
  | RemoveRoles i r => UserService.remove_roles env i r ;; ret tt
  end.

(** The key of the user an operation acts on; a created user gets the
    next key of the table. *)
Definition subject (op : UserOp) (w : World) : Z :=
  match op with
  | CreateUser _ _ _ => next_id (map user_id (users (db w)))
  | UpdateUser i _ _ | BlockUser i | UnblockUser i | ResetPassword i _
  | DeleteUser i _ | RestoreUser i | AssignRoles i _ | RemoveRoles i _ => i
  end.

(** ** The states of a process

    The cache backend starts out as [DragonflyCache.new] builds it, and a
    process moves on by the calls below.  A call that raises leaves the
    database as it was (the session is closed without commit); what it
    did to the cache before it raised stays, which the reads and the
    invalidation account for. *)

(** The cache with its in-process part replaced. *)
Definition with_fallback (c : DragonflyCache.t) (f : AsyncTTLCache.t) : DragonflyCache.t :=
  DragonflyCache.mk (DragonflyCache.ttl_seconds c) (DragonflyCache._client c) f
                    (DragonflyCache.server c).

(** What the in-process cache holds under a key, expired or not. *)
Definition stored (c : DragonflyCache.t) (key : string) : option CacheValue :=
  AsyncTTLCache._store (DragonflyCache._fallback c) !! key.

Definition expiration (c : DragonflyCache.t) (key : string) : option Z :=
  AsyncTTLCache._expirations (DragonflyCache._fallback c) !! key.

Inductive step `{Security} (settings : Settings) (env : Env) : World -> World -> Prop :=
| step_mutation (op : UserOp) (w w' : World) :
    perform env op w = Ok (tt, w') -> step settings env w w'
| step_get_by_id (user_id' : Z) (w w' : World) (o : option UserObject) :
    UserService.get_by_id env user_id' w = Ok (o, w') -> step settings env w w'
| step_get_by_email (email : string) (w w' : World) (o : option UserObject) :
    UserService.get_by_email env email w = Ok (o, w') -> step settings env w w'
| step_invalidate (user : UserORM) (w w' : World) :
    UserService._invalidate_cache env (Some user) w = Ok (tt, w') -> step settings env w w'
| step_revoke (token : string) (w : World) (c' : DragonflyCache.t) :
    TokenBlocklistService.revoke settings env token (cache w) = Ok (tt, c') ->
    step settings env w (mkWorld (db w) c')
| step_cache_get (key : string) (w : World) (v : option CacheValue)
                 (c' : DragonflyCache.t) :
    DragonflyCache.get env key (cache w) = Ok (v, c') ->
    step settings env w (mkWorld (db w) c')
| step_reset_own_password (u : UserORM) (old_password new_password : string)
                          (w : World) (st' : Store) :
    In u (users (db w)) ->
    AuthService.reset_own_password (ORMUser u) old_password new_password (db w)
    = Ok (tt, st') ->
    step settings env w (mkWorld st' (cache w))
| step_other_tables (w : World) (st' : Store) :
    users st' = users (db w) -> step settings env w (mkWorld st' (cache w)).








(** ** Concrete inputs

    A toy instance of the security interface and small stores, used to
    exhibit inputs on which the hypotheses of the statements hold. *)

Definition example_security : Security := {|
  get_password_hash := fun password => "hashed:" ++ password;
  verify_password := fun password hashed => String.eqb ("hashed:" ++ password) hashed;
  create_access_token := fun payload _ => default "" (payload_sub payload);
  decode_access_token := fun token now' =>
    if now' <? 2800 then Some (mkPayload (Some token) None) else None |}.

Definition example_int_of_str (s : string) : option Z :=
  if String.eqb s "1" then Some 1 else None.

Definition example_user : UserORM :=
  mkUser 1 "ada@example.com" "hashed:secret" true false None.

Definition example_user_store : Store := mkStore [example_user] [] [] [] [].

Definition example_blocked_user : UserORM :=
  mkUser 1 "ada@example.com" "hashed:secret" true true None.

Definition example_blocked_world : World :=
  mkWorld (mkStore [example_blocked_user] [] [] [] []) (DragonflyCache.new default_settings).

Definition example_env : Env := mkEnv 1000 false.





Definition example_role : RoleORM := mkRole 1 "auditor" false None.
Definition example_privilege : PrivilegeORM := mkPrivilege 1 "users" "read" None None.

Definition example_role_store : Store :=
  mkStore [] [example_role] [example_privilege] [] [].

Definition example_staff_role : RoleORM := mkRole 2 "staff" false None.

(** A soft-deleted superuser role and an active ordinary one. *)
Definition example_staff_store : Store :=
  mkStore [] [mkRole 1 "admin" true (Some 1700000000); example_staff_role] [] [] [].

(** ** Notions used by the statements on listing, caching and composition *)

(** The rows a listing call returned; none when it raised. *)
Definition rows_of {S A} (r : result (list A * S)) : list A :=
  match r with
  | Ok (rows, _) => rows
  | Raise _ => []
  end.

Definition role_summary (r : RoleORM) : RoleSummary :=
  mkRoleSummary (role_id r) (role_name r) (role_is_superuser r).

Definition user_summary (u : UserORM) : UserSummary :=
  mkUserSummary (user_id u) (user_email u) (user_is_active u) (user_is_blocked u).

(** Pages [1 .. n] of [RoleService.list_roles], one after the other. *)
Fixpoint walk_role_pages (st : Store) (per_page : Z) (n : nat) : list RoleSummary :=
  match n with
  | O => []
  | S k => (walk_role_pages st per_page k
            ++ rows_of (RoleService.list_roles (Z.of_nat (S k)) per_page st))%list
  end.

(** The backend in use holds [value] under [key] until [expires] at least:
    the server does when [up], the in-process fallback otherwise. *)
Definition cache_entry (up : bool) (c : DragonflyCache.t) (key : string)
           (value : CacheValue) (expires : Z) : Prop :=
  DragonflyCache._client c = up
  /\ if up
     then exists e, DragonflyCache.server c !! key = Some (value, e) /\ expires <= e
     else exists e,
         AsyncTTLCache._expirations (DragonflyCache._fallback c) !! key = Some e
         /\ expires <= e /\ e <> 0
         /\ AsyncTTLCache._store (DragonflyCache._fallback c) !! key = Some value.

(** [_store] and [_expirations] of the in-process cache hold the same keys. *)
Definition same_keys (c : AsyncTTLCache.t) : Prop :=
  forall key, AsyncTTLCache._store c !! key = None
              <-> AsyncTTLCache._expirations c !! key = None.

(** A soft-deleted user who holds the superuser role [1] and the ordinary
    role [2], which is linked to the privilege [("users", "read")]. *)
Definition example_deleted_admin_store : Store :=
  mkStore [mkUser 1 "root@example.com" "hashed:secret" false false (Some 1700000000)]
          [mkRole 1 "admin" true None; mkRole 2 "auditor" false None]
          [mkPrivilege 1 "users" "read" None None]
          [(1, 1); (1, 2)]
          [(2, 1)].

(** An active user who holds the role "auditor". *)
Definition example_auditor_store : Store :=
  mkStore [example_user] [example_role] [example_privilege] [(1, 1)] [].

(** An active user who holds the superuser role. *)
Definition example_admin_store : Store :=
  mkStore [example_user] [mkRole 1 "admin" true None] [] [(1, 1)] [].

(** The row is not soft-deleted and carries the pair [k]. *)
Definition active_with_key (k : string * string) (q : PrivilegeORM) : bool :=
  key_matches (fst k) (snd k) q && is_None (privilege_deleted_at q).

(** A call that, when it returns, has changed no table but [roles]. *)
Definition only_roles {A} (m : M A) : Prop :=
  forall st a st',
    m st = Ok (a, st') ->
    privileges st' = privileges st /\ role_privileges st' = role_privileges st
    /\ users st' = users st /\ user_roles st' = user_roles st.

(** An active user whose role "auditor" is linked to the privilege
    [("users", "read")]. *)
Definition example_reader_store : Store :=
  mkStore [example_user] [example_role] [example_privilege] [(1, 1)] [(1, 1)].

(** * Verification *)

Ltac unfold_monad :=
  unfold bind, ret, raise, get_store, put_store, lift_result in *.

(** ** Generic facts about the query helpers *)

Lemma pair_eqb_eq (a b : Z * Z) : pair_eqb a b = true <-> a = b.
Proof.
  destruct a as [a1 a2], b as [b1 b2]; unfold pair_eqb; simpl.
  rewrite andb_true_iff, !Z.eqb_eq. split.
  - intros [-> ->]; reflexivity.
  - intros E; inversion E; auto.
Qed.

Lemma pair_eqb_refl (a : Z * Z) : pair_eqb a a = true.
Proof. now apply pair_eqb_eq. Qed.

Lemma filter_id {A} (f : A -> bool) (l : list A) :
  (forall x, In x l -> f x = true) -> List.filter f l = l.
Proof.
  induction l as [|a l IH]; simpl; intros Hall; [reflexivity|].
  rewrite (Hall a (or_introl eq_refl)). f_equal. apply IH. auto.
Qed.

Lemma filter_none {A} (f : A -> bool) (l : list A) :
  (forall x, In x l -> f x = false) <-> List.filter f l = [].
Proof.
  induction l as [|a l IH]; simpl.
  - split; auto. intros _ x [].
  - split.
    + intros Hall. rewrite (Hall a (or_introl eq_refl)). apply IH. auto.
    + destruct (f a) eqn:Ea; [discriminate|].
      intros E x [<-|Hx]; [assumption|]. now apply IH.
Qed.

Lemma existsb_false_filter {A} (f : A -> bool) (l : list A) :
  existsb f l = false <-> List.filter f l = [].
Proof.
  rewrite <- filter_none. split.
  - intros E x Hx. destruct (f x) eqn:Ex; [|reflexivity].
    assert (existsb f l = true) by (apply existsb_exists; eauto). congruence.
  - intros Hall. destruct (existsb f l) eqn:E; [|reflexivity].
    apply existsb_exists in E as (x & Hx & Ex). rewrite (Hall x Hx) in Ex. discriminate.
Qed.

Lemma NoDup_filter_eqb_length (l : list (Z * Z)) (a : Z * Z) :
  List.NoDup l -> (length (List.filter (pair_eqb a) l) <= 1)%nat.
Proof.
  induction 1 as [|x l Hx Hnd IH]; simpl; [lia|].
  destruct (pair_eqb a x) eqn:E; [|assumption].
  apply pair_eqb_eq in E; subst x.
  assert (List.filter (pair_eqb a) l = []) as ->.
  { apply filter_none. intros y Hy. destruct (pair_eqb a y) eqn:Ey; [|reflexivity].
    apply pair_eqb_eq in Ey; subst y. contradiction. }
  simpl; lia.
Qed.

Lemma link_test_pair_eqb (r p : Z) (l : Z * Z) :
  ((fst l =? r) && (snd l =? p)) = pair_eqb (r, p) l.
Proof.
  unfold pair_eqb; simpl. now rewrite (Z.eqb_sym (fst l)), (Z.eqb_sym (snd l)).
Qed.

Lemma filter_ext_eq {A} (f g : A -> bool) (l : list A) :
  (forall x, f x = g x) -> List.filter f l = List.filter g l.
Proof. intros E. induction l as [|a l IH]; simpl; [reflexivity|]. now rewrite E, IH. Qed.

Lemma scalar_one_or_none_Some {A} (l : list A) (x : A) :
  scalar_one_or_none l = Ok (Some x) -> l = [x].
Proof. destruct l as [|a [|b l]]; simpl; intros E; inversion E; reflexivity. Qed.

Lemma scalar_one_or_none_Raise {A} (l : list A) (e : Exception) :
  scalar_one_or_none l = Raise e -> e = MultipleResultsFound.
Proof. destruct l as [|a [|b l]]; simpl; intros E; inversion E; reflexivity. Qed.

Lemma truthy_int_true (z : Z) : z <> 0 -> truthy_int z = true.
Proof. intros Hz. unfold truthy_int. apply negb_true_iff, Z.eqb_neq, Hz. Qed.

(** ** Attaching and detaching a privilege of a role *)

Section AttachDetach.
Variables (role : RoleORM) (privilege : PrivilegeORM).
Hypothesis role_persisted : role_id role <> 0.
Hypothesis privilege_persisted : privilege_id privilege <> 0.

Let rid := role_id role.
Let pid := privilege_id privilege.

Lemma attach_when_linked (st : Store) :
  link_count st rid pid <> 0%nat ->
  RoleRepository.attach_privilege role privilege st = Ok (tt, st).
Proof using role_persisted privilege_persisted.
  intros Hc. unfold RoleRepository.attach_privilege.
  rewrite !truthy_int_true by assumption. simpl. unfold_monad.
  rewrite (filter_ext_eq _ (pair_eqb (rid, pid))) by (apply link_test_pair_eqb).
  unfold link_count in Hc.
  destruct (List.filter (pair_eqb (rid, pid)) (role_privileges st));
    simpl in *; [congruence | reflexivity].
Qed.

Lemma attach_when_absent (st : Store) :
  link_count st rid pid = 0%nat ->
  RoleRepository.attach_privilege role privilege st
  = Ok (tt, set_role_privileges st (role_privileges st ++ [(rid, pid)])).
Proof using role_persisted privilege_persisted.
  intros Hc. unfold RoleRepository.attach_privilege.
  rewrite !truthy_int_true by assumption. simpl. unfold_monad.
  rewrite (filter_ext_eq _ (pair_eqb (rid, pid))) by (apply link_test_pair_eqb).
  unfold link_count in Hc. apply length_zero_iff_nil in Hc. rewrite Hc. simpl.
  unfold RoleRepository.insert_role_privilege. unfold_monad.
  apply existsb_false_filter in Hc. fold rid pid. rewrite Hc. reflexivity.
Qed.

Lemma link_count_after_insert (st : Store) :
  link_count (set_role_privileges st (role_privileges st ++ [(rid, pid)])) rid pid
  = S (link_count st rid pid).
Proof using Type.
  unfold link_count; simpl. rewrite List.filter_app, List.length_app. simpl.
  rewrite pair_eqb_refl. simpl. lia.
Qed.

Lemma detach_result (st : Store) :
  RoleRepository.detach_privilege role privilege st
  = Ok (tt, set_role_privileges st
              (List.filter (fun l => negb (pair_eqb (rid, pid) l)) (role_privileges st))).
Proof using role_persisted privilege_persisted.
  unfold RoleRepository.detach_privilege.
  rewrite !truthy_int_true by assumption. simpl. unfold_monad.
  do 3 f_equal. apply filter_ext_eq. intros l. now rewrite link_test_pair_eqb.
Qed.

Lemma link_count_after_detach (st : Store) :
  link_count (set_role_privileges st
                (List.filter (fun l => negb (pair_eqb (rid, pid) l)) (role_privileges st)))
             rid pid = 0%nat.
Proof using Type.
  unfold link_count; simpl. apply length_zero_iff_nil, filter_none.
  intros x Hx. apply List.filter_In in Hx as [_ Hx]. now apply negb_true_iff in Hx.
Qed.

End AttachDetach.

(** C7. Attaching the same privilege to the same role twice leaves exactly
    one link in [role_privileges], the second attach returning without error
    and without change; detaching deletes that link and nothing else (every
    table other than [role_privileges] is as before, and so is every other
    link); detaching a link that is absent changes nothing.  The role and
    the privilege are persisted rows (their keys are not 0) and
    [role_privileges] satisfies its primary key. *)
Theorem attach_twice_one_link_detach_only_link
  (st : Store) (role : RoleORM) (privilege : PrivilegeORM) :
  role_id role <> 0 ->
  privilege_id privilege <> 0 ->
  List.NoDup (role_privileges st) ->
  let rid := role_id role in
  let pid := privilege_id privilege in
  (exists st1,
      RoleRepository.attach_privilege role privilege st = Ok (tt, st1)
      /\ RoleRepository.attach_privilege role privilege st1 = Ok (tt, st1)
      /\ link_count st1 rid pid = 1%nat
      /\ roles st1 = roles st /\ privileges st1 = privileges st
      /\ users st1 = users st /\ user_roles st1 = user_roles st)
  /\ (exists st2,
         RoleRepository.detach_privilege role privilege st = Ok (tt, st2)
         /\ link_count st2 rid pid = 0%nat
         /\ roles st2 = roles st /\ privileges st2 = privileges st
         /\ users st2 = users st /\ user_roles st2 = user_roles st
         /\ (forall l, l <> (rid, pid) ->
                       In l (role_privileges st2) <-> In l (role_privileges st)))
  /\ (link_count st rid pid = 0%nat ->
      RoleRepository.detach_privilege role privilege st = Ok (tt, st)).
Proof.
  intros Hr Hp Hnd rid pid. split; [|split].
  - destruct (link_count st rid pid) as [|n] eqn:Hc.
    + eexists. split; [apply attach_when_absent; assumption|].
      assert (link_count (set_role_privileges st (role_privileges st ++ [(rid, pid)]))
                         rid pid = 1%nat) as H1.
      { subst rid pid. rewrite link_count_after_insert. now rewrite Hc. }
      split; [apply attach_when_linked; try assumption; fold rid pid; lia|].
      split; [exact H1|]. simpl. auto.
    + exists st. assert (link_count st rid pid <> 0%nat) as Hne by lia.
      split; [now apply attach_when_linked|]. split; [now apply attach_when_linked|].
      split; [|auto]. pose proof (NoDup_filter_eqb_length _ (rid, pid) Hnd) as Hle.
      unfold link_count in *. lia.
  - eexists. split; [apply detach_result; assumption|].
    split; [apply link_count_after_detach|]. simpl. repeat (split; [reflexivity|]).
    intros l Hl. rewrite List.filter_In. split; [tauto|]. intros Hin. split; [assumption|].
    apply negb_true_iff. destruct (pair_eqb (rid, pid) l) eqn:E; [|exact E].
    apply pair_eqb_eq in E. congruence.
  - intros Hc. rewrite detach_result by assumption.
    rewrite filter_id; [destruct st; reflexivity|].
    intros x Hx. apply negb_true_iff.
    unfold link_count in Hc. apply length_zero_iff_nil in Hc.
    now apply (proj2 (filter_none _ _) Hc).
Qed.

(** ** [PrivilegeRepository.get_or_create] *)

Lemma key_matches_eq (resource action : string) (p : PrivilegeORM) :
  key_matches resource action p = true <-> privilege_key p = (resource, action).
Proof.
  unfold key_matches, privilege_key. rewrite andb_true_iff, !String.eqb_eq.
  split; [intros [-> ->]; reflexivity | intros E; inversion E; auto].
Qed.

Lemma unique_key_filter (resource action : string) (l : list PrivilegeORM) :
  List.NoDup (map privilege_key l) ->
  (length (List.filter (key_matches resource action) l) <= 1)%nat.
Proof.
  induction l as [|p l IH]; simpl; intros Hnd; [lia|].
  inversion Hnd as [|k ks Hk Hnd']; subst.
  destruct (key_matches resource action p) eqn:E; [|auto].
  assert (List.filter (key_matches resource action) l = []) as ->; [|simpl; lia].
  apply filter_none. intros q Hq.
  destruct (key_matches resource action q) eqn:Eq; [|reflexivity].
  apply key_matches_eq in E, Eq. exfalso. apply Hk.
  rewrite E, <- Eq. now apply in_map.
Qed.

Lemma get_or_create_found (resource action : string) (d : option string)
      (st : Store) (p : PrivilegeORM) :
  List.filter (fun p => key_matches resource action p && is_None (privilege_deleted_at p))
              (privileges st) = [p] ->
  PrivilegeRepository.get_or_create resource action d st = Ok (p, st).
Proof.
  intros E. unfold PrivilegeRepository.get_or_create. unfold_monad.
  unfold key_matches in E. rewrite E. reflexivity.
Qed.

Lemma get_or_create_inserts (resource action : string) (d : option string) (st : Store) :
  List.filter (key_matches resource action) (privileges st) = [] ->
  let p := mkPrivilege (next_id (map privilege_id (privileges st))) resource action d None in
  PrivilegeRepository.get_or_create resource action d st
  = Ok (p, set_privileges st (privileges st ++ [p])).
Proof.
  intros E p. unfold PrivilegeRepository.get_or_create. unfold_monad.
  assert (List.filter (fun p => key_matches resource action p
                                && is_None (privilege_deleted_at p)) (privileges st) = []) as E'.
  { apply filter_none. intros q Hq. rewrite (proj2 (filter_none _ _) E q Hq). reflexivity. }
  unfold key_matches in E'. rewrite E'. simpl.
  unfold PrivilegeRepository.flush_new. unfold_monad.
  apply existsb_false_filter in E. unfold key_matches in E. rewrite E. reflexivity.
Qed.

(** What [get_or_create] does on a store that satisfies the unique
    constraint and holds no soft-deleted row for the requested pair: it
    returns an active privilege with that pair, inserts only when there is
    no match, and a second call returns the same row and inserts nothing. *)
Lemma get_or_create_without_soft_deleted
      (resource action : string) (d d' : option string) (st : Store) :
  privilege_unique st ->
  (forall p, In p (privileges st) -> privilege_key p = (resource, action) ->
             privilege_deleted_at p = None) ->
  exists p st',
    PrivilegeRepository.get_or_create resource action d st = Ok (p, st')
    /\ In p (privileges st')
    /\ privilege_key p = (resource, action)
    /\ privilege_deleted_at p = None
    /\ (In p (privileges st) /\ st' = st
        \/ (forall q, In q (privileges st) -> privilege_key q <> (resource, action))
           /\ privileges st' = (privileges st ++ [p])%list)
    /\ PrivilegeRepository.get_or_create resource action d' st' = Ok (p, st').
Proof.
  intros Huq Hact.
  pose proof (unique_key_filter resource action _ Huq) as Hlen.
  assert (forall l, (forall p, In p l -> privilege_key p = (resource, action) ->
                               privilege_deleted_at p = None) ->
            List.filter (fun p => key_matches resource action p
                                  && is_None (privilege_deleted_at p)) l
            = List.filter (key_matches resource action) l) as Hsame.
  { induction l as [|q l IH]; simpl; intros Hl; [reflexivity|].
    rewrite IH by auto. destruct (key_matches resource action q) eqn:E; [|reflexivity].
    apply key_matches_eq in E. rewrite (Hl q (or_introl eq_refl) E). reflexivity. }
  destruct (List.filter (key_matches resource action) (privileges st)) as [|p [|? ?]] eqn:E;
    simpl in Hlen; [| |lia].
  - eexists _, _. split; [now apply get_or_create_inserts|]. simpl.
    split; [apply in_or_app; right; left; reflexivity|].
    split; [reflexivity|]. split; [reflexivity|]. split.
    + right. split; [|reflexivity]. intros q Hq Hk. apply key_matches_eq in Hk.
      rewrite (proj2 (filter_none _ _) E q Hq) in Hk. discriminate.
    + apply get_or_create_found. simpl. rewrite List.filter_app. simpl.
      rewrite Hsame, E by assumption. simpl.
      unfold key_matches. simpl. now rewrite !String.eqb_refl.
  - assert (In p (List.filter (key_matches resource action) (privileges st))) as Hp
        by (rewrite E; now left).
    apply List.filter_In in Hp as [Hin Hk]. apply key_matches_eq in Hk.
    assert (PrivilegeRepository.get_or_create resource action d st = Ok (p, st)
            /\ PrivilegeRepository.get_or_create resource action d' st = Ok (p, st))
      as [H1 H2] by (split; apply get_or_create_found; now rewrite Hsame).
    exists p, st. repeat split; auto.
Qed.

(** C6. On a store whose only row for [("users", "read")] is soft-deleted,
    [get_or_create "users" "read"] finds no active row, inserts, and the
    insert violates [uq_privilege_resource_action]: the call raises instead
    of returning an active privilege. *)
Theorem get_or_create_soft_deleted_raises :
  privilege_unique soft_deleted_privilege_store
  /\ PrivilegeRepository.get_or_create "users" "read" None soft_deleted_privilege_store
     = Raise (IntegrityError "uq_privilege_resource_action").
Proof.
  split; [|reflexivity].
  unfold privilege_unique; simpl. constructor; [intros []|constructor].
Qed.

(** [PrivilegeService.create_privilege] restores the row [get_or_create]
    hands back when that row is soft-deleted; since [get_or_create] looks
    among active rows only, the branch is never taken and the call raises
    on the same store. *)
Lemma create_privilege_soft_deleted_raises :
  PrivilegeService.create_privilege "users" "read" None soft_deleted_privilege_store
  = Raise (IntegrityError "uq_privilege_resource_action").
Proof. reflexivity. Qed.

Lemma create_privilege_never_restores (resource action : string) (d : option string)
      (st st' : Store) (p : PrivilegeORM) :
  PrivilegeRepository.get_or_create resource action d st = Ok (p, st') ->
  privilege_deleted_at p = None.
Proof.
  unfold PrivilegeRepository.get_or_create, PrivilegeRepository.flush_new. unfold_monad.
  destruct (scalar_one_or_none _) as [[q|]|e] eqn:E; try discriminate.
  - apply scalar_one_or_none_Some in E. intros Hr; inversion Hr; subst.
    assert (In p [p]) as Hin by now left. rewrite <- E in Hin.
    apply List.filter_In in Hin as [_ Hc]. apply andb_true_iff in Hc as [_ Hc].
    destruct (privilege_deleted_at p); [discriminate | reflexivity].
  - destruct (existsb _ (privileges st)); [discriminate|].
    intros Hr; inversion Hr; subst. reflexivity.
Qed.

(** ** The single-superuser-role invariant *)

Lemma length_le_1_eq {A} (l : list A) (x y : A) :
  (length l <= 1)%nat -> In x l -> In y l -> x = y.
Proof.
  destruct l as [|a [|b l]]; simpl; intros Hl Hx Hy; try lia; try tauto.
  destruct Hx as [<-|[]], Hy as [<-|[]]. reflexivity.
Qed.

Lemma single_by_length (P : RoleORM -> bool) (rs : list RoleORM) :
  List.NoDup (map role_id rs) ->
  single_by P rs <-> (length (List.filter P rs) <= 1)%nat.
Proof.
  intros Hnd. split.
  - induction rs as [|r rs IH]; simpl; intros Hs; [lia|].
    inversion Hnd as [|i ids Hi Hnd']; subst.
    assert (single_by P rs) as Hs' by (intros a b Ha Hb; apply Hs; now right).
    destruct (P r) eqn:Er; [|auto].
    assert (List.filter P rs = []) as ->; [|simpl; lia].
    apply filter_none. intros q Hq. destruct (P q) eqn:Eq; [|reflexivity].
    exfalso. apply Hi. rewrite (Hs r q); auto; [now apply in_map | now left | now right].
  - intros Hl r1 r2 H1 H2 E1 E2. f_equal.
    apply (length_le_1_eq _ _ _ Hl); apply List.filter_In; auto.
Qed.

Lemma active_super_le (rs : list RoleORM) :
  (length (List.filter active_super rs) <= length (List.filter role_is_superuser rs))%nat.
Proof.
  induction rs as [|r rs IH]; simpl; [lia|]. unfold active_super at 1.
  destruct (role_is_superuser r); simpl; [|assumption].
  destruct (is_None (role_deleted_at r)); simpl; lia.
Qed.

Lemma fold_max_ge (ids : list Z) (x : Z) : In x ids -> x <= fold_right Z.max 0 ids.
Proof.
  induction ids as [|a ids IH]; simpl; [tauto|].
  intros [->|Hx]; [lia|]. specialize (IH Hx). lia.
Qed.

Lemma next_id_fresh (ids : list Z) : ~ In (next_id ids) ids.
Proof. intros Hin. apply fold_max_ge in Hin. unfold next_id in Hin. lia. Qed.

(** Allocated keys are positive: the guard [if not role.id or not
    privilege.id] never skips a persisted row. *)
Lemma next_id_positive (ids : list Z) : 0 < next_id ids.
Proof.
  unfold next_id. assert (0 <= fold_right Z.max 0 ids); [|lia].
  induction ids; simpl; lia.
Qed.

Lemma map_id_replace (role : RoleORM) (rs : list RoleORM) :
  map role_id (map (replace_role role) rs) = map role_id rs.
Proof.
  rewrite map_map. apply map_ext. intros r. unfold replace_role.
  destruct (role_id r =? role_id role) eqn:E; [|reflexivity].
  apply Z.eqb_eq in E. congruence.
Qed.

Lemma NoDup_map_filter {A B} (f : A -> B) (g : A -> bool) (l : list A) :
  List.NoDup (map f l) -> List.NoDup (map f (List.filter g l)).
Proof.
  induction l as [|a l IH]; simpl; intros Hnd; [constructor|].
  inversion Hnd as [|x xs Hx Hnd']; subst. destruct (g a); simpl; [|auto].
  constructor; [|auto]. intros Hin. apply Hx.
  apply in_map_iff in Hin as (y & Ey & Hy). apply List.filter_In in Hy as [Hy _].
  rewrite <- Ey. now apply in_map.
Qed.

Lemma In_replace (role r : RoleORM) (rs : list RoleORM) :
  In r (map (replace_role role) rs) ->
  (In r rs /\ role_id r <> role_id role) \/ (r = role /\ In (role_id role) (map role_id rs)).
Proof.
  intros Hin. apply in_map_iff in Hin as (q & Eq & Hq). unfold replace_role in Eq.
  destruct (role_id q =? role_id role) eqn:E.
  - right. apply Z.eqb_eq in E. split; [auto|]. rewrite <- E. now apply in_map.
  - left. apply Z.eqb_neq in E. subst q. auto.
Qed.

(** Appending a role keeps [single_by P] when the new role does not
    satisfy [P] or no row did before. *)
Lemma single_by_append (P : RoleORM -> bool) (rs : list RoleORM) (role : RoleORM) :
  single_by P rs ->
  (P role = true -> forall r, In r rs -> P r = false) ->
  single_by P (rs ++ [role]).
Proof.
  intros Hs Hnone r1 r2 H1 H2 E1 E2.
  apply in_app_or in H1, H2. simpl in H1, H2.
  assert (forall r, In r rs -> P r = true -> P role = true -> False) as Hno.
  { intros r Hr Er Erole. rewrite (Hnone Erole r Hr) in Er. discriminate. }
  destruct H1 as [H1|[<-|[]]], H2 as [H2|[<-|[]]]; auto; exfalso; eauto.
Qed.

(** Rewriting the row of [role] keeps [single_by P] when the new row
    satisfies [P] only if the old one did or no other row does. *)
Lemma single_by_replace (P : RoleORM -> bool) (rs : list RoleORM) (old role : RoleORM) :
  single_by P rs ->
  In old rs -> role_id old = role_id role ->
  (P role = true ->
   P old = true \/ forall r, In r rs -> role_id r <> role_id role -> P r = false) ->
  single_by P (map (replace_role role) rs).
Proof.
  intros Hs Hold Hid Hflag r1 r2 H1 H2 E1 E2.
  apply In_replace in H1, H2.
  assert (forall r, In r rs -> role_id r <> role_id role -> P r = true ->
                    P role = true -> False) as Hno.
  { intros r Hr Hne Er Erole. destruct (Hflag Erole) as [Hf|Hf].
    - apply Hne. rewrite <- Hid. now apply Hs.
    - rewrite (Hf r Hr Hne) in Er. discriminate. }
  destruct H1 as [[H1 N1]|[-> _]], H2 as [[H2 N2]|[-> _]]; auto; exfalso; eauto.
Qed.

Lemma single_by_filter (P : RoleORM -> bool) (rs : list RoleORM) (g : RoleORM -> bool) :
  single_by P rs -> single_by P (List.filter g rs).
Proof.
  intros Hs r1 r2 H1 H2. apply List.filter_In in H1 as [H1 _], H2 as [H2 _]. now apply Hs.
Qed.

(** *** What the role operations do to the [roles] table *)

Lemma filter_filter {A} (f g : A -> bool) (l : list A) :
  List.filter g (List.filter f l) = List.filter (fun x => f x && g x) l.
Proof.
  induction l as [|a l IH]; simpl; [reflexivity|].
  destruct (f a); simpl; [destruct (g a); simpl; now rewrite IH | assumption].
Qed.

Lemma assert_single_super_role_eq (exclude : option Z) (st : Store) :
  RoleRepository._assert_single_super_role exclude st
  = match List.filter (other_super exclude) (roles st) with
    | [] => Ok (tt, st)
    | [_] => Raise (ValueError "A superuser role already exists")
    | _ :: _ :: _ => Raise MultipleResultsFound
    end.
Proof.
  unfold RoleRepository._assert_single_super_role. unfold_monad.
  assert (match exclude with
          | Some x => List.filter (fun r => negb (role_id r =? x))
                                  (List.filter (fun r => role_is_superuser r) (roles st))
          | None => List.filter (fun r => role_is_superuser r) (roles st)
          end = List.filter (other_super exclude) (roles st)) as ->.
  { destruct exclude; [apply filter_filter|].
    apply filter_ext_eq. intros r. unfold other_super. now rewrite andb_true_r. }
  destruct (List.filter (other_super exclude) (roles st)) as [|? [|? ?]]; reflexivity.
Qed.

Lemma other_super_None (rs : list RoleORM) :
  List.filter (other_super None) rs = List.filter role_is_superuser rs.
Proof. apply filter_ext_eq. intros r. unfold other_super. now rewrite andb_true_r. Qed.

Lemma create_eq (name : string) (is_superuser : bool) (st : Store) :
  RoleRepository.create name None is_superuser st
  = match (if is_superuser then RoleRepository._assert_single_super_role None st
           else Ok (tt, st)) with
    | Ok _ =>
        if existsb (fun r => String.eqb (role_name r) name) (roles st)
        then Raise (IntegrityError "roles.name")
        else Ok (new_role st name is_superuser,
                 set_roles st (roles st ++ [new_role st name is_superuser]))
    | Raise e => Raise e
    end.
Proof.
  unfold RoleRepository.create, RoleRepository.flush_new. unfold_monad.
  destruct is_superuser.
  - rewrite assert_single_super_role_eq.
    destruct (List.filter (other_super None) (roles st)) as [|? [|? ?]]; try reflexivity.
    destruct (existsb _ (roles st)); reflexivity.
  - destruct (existsb _ (roles st)); reflexivity.
Qed.

Lemma keeps_roles_bind {A B} (m : M A) (k : A -> M B) :
  keeps_roles m -> (forall a, keeps_roles (k a)) -> keeps_roles (bind m k).
Proof.
  intros Hm Hk st. unfold bind. specialize (Hm st).
  destruct (m st) as [[a st1]|e]; [|assumption].
  specialize (Hk a st1). destruct (k a st1) as [[b st2]|e]; [congruence|assumption].
Qed.

Lemma keeps_roles_ret {A} (a : A) : keeps_roles (ret a).
Proof. intros st. reflexivity. Qed.

Lemma keeps_roles_for_each {A} (xs : list A) (body : A -> M unit) :
  (forall x, keeps_roles (body x)) -> keeps_roles (for_each xs body).
Proof.
  intros Hb. induction xs as [|x xs IH]; simpl; [apply keeps_roles_ret|].
  apply keeps_roles_bind; auto.
Qed.

Lemma keeps_roles_get_or_create (resource action : string) (d : option string) :
  keeps_roles (PrivilegeRepository.get_or_create resource action d).
Proof.
  intros st. unfold PrivilegeRepository.get_or_create, PrivilegeRepository.flush_new.
  unfold_monad.
  destruct (List.filter _ (privileges st)) as [|? [|? ?]]; simpl;
    try reflexivity; try discriminate.
  destruct (existsb _ (privileges st)); [discriminate | reflexivity].
Qed.

Lemma keeps_roles_attach (role : RoleORM) (privilege : PrivilegeORM) :
  keeps_roles (RoleRepository.attach_privilege role privilege).
Proof.
  intros st. unfold RoleRepository.attach_privilege, RoleRepository.insert_role_privilege.
  unfold_monad.
  destruct (negb (truthy_int (role_id role)) || negb (truthy_int (privilege_id privilege)));
    [reflexivity|].
  destruct (first _); [reflexivity|].
  destruct (existsb _ (role_privileges st)); [discriminate | reflexivity].
Qed.

Lemma keeps_roles_sync (role : RoleORM) (specs : list (string * string)) :
  keeps_roles (RoleService._sync_privileges role specs).
Proof.
  apply keeps_roles_for_each. intros spec. apply keeps_roles_bind.
  - apply keeps_roles_get_or_create.
  - intros p. apply keeps_roles_attach.
Qed.

Lemma keeps_roles_clear (role : RoleORM) : keeps_roles (RoleService.clear_privileges role).
Proof. intros st. reflexivity. Qed.

Lemma require_role_Ok (i : Z) (include_deleted : bool) (st st' : Store) (role : RoleORM) :
  RoleService._require_role i include_deleted st = Ok (role, st') ->
  st' = st /\ In role (roles st) /\ role_id role = i
  /\ (include_deleted = false -> role_deleted_at role = None).
Proof.
  unfold RoleService._require_role, RoleRepository.get_by_id. unfold_monad.
  destruct (scalar_one_or_none _) as [[r|]|e] eqn:E; try discriminate.
  apply scalar_one_or_none_Some in E.
  assert (In r (if negb include_deleted
                then List.filter (fun r => is_None (role_deleted_at r))
                                 (List.filter (fun r => role_id r =? i) (roles st))
                else List.filter (fun r => role_id r =? i) (roles st))) as Hin
      by (rewrite E; now left).
  destruct (negb (is_None (role_deleted_at r)) && negb include_deleted) eqn:Ed;
    intros H; inversion H; subst.
  split; [reflexivity|].
  destruct include_deleted; simpl in Hin.
  - apply List.filter_In in Hin as [Hin Hid]. apply Z.eqb_eq in Hid.
    repeat split; auto. discriminate.
  - apply List.filter_In in Hin as [Hin Hdel]. apply List.filter_In in Hin as [Hin Hid].
    apply Z.eqb_eq in Hid. repeat split; auto. intros _.
    destruct (role_deleted_at role); [discriminate | reflexivity].
Qed.

Lemma flush_row_eq (role : RoleORM) (st : Store) :
  RoleRepository.flush_row role st
  = Ok (tt, set_roles st (map (replace_role role) (roles st))).
Proof. reflexivity. Qed.

Lemma replace_replace (r1 r2 : RoleORM) (rs : list RoleORM) :
  role_id r1 = role_id r2 ->
  map (replace_role r2) (map (replace_role r1) rs) = map (replace_role r2) rs.
Proof.
  intros Hid. rewrite map_map. apply map_ext. intros r. unfold replace_role.
  destruct (role_id r =? role_id r1) eqn:E1.
  - rewrite Hid, Z.eqb_refl. rewrite Hid in E1. now rewrite E1.
  - reflexivity.
Qed.

Lemma other_super_replace (r1 : RoleORM) (rs : list RoleORM) :
  List.filter (other_super (Some (role_id r1))) (map (replace_role r1) rs)
  = List.filter (other_super (Some (role_id r1))) rs.
Proof.
  induction rs as [|r rs IH]; simpl; [reflexivity|]. rewrite IH.
  unfold replace_role. destruct (role_id r =? role_id r1) eqn:E; [|reflexivity].
  unfold other_super. rewrite Z.eqb_refl, E. simpl. now rewrite !andb_false_r.
Qed.

(** The outcome of [RoleRepository.update_role] when it returns. *)
Lemma update_role_Ok (role r' : RoleORM) (name : option string) (su : option bool)
      (st st' : Store) :
  RoleRepository.update_role role name su st = Ok (r', st') ->
  role_id r' = role_id role
  /\ role_deleted_at r' = role_deleted_at role
  /\ roles st' = map (replace_role r') (roles st)
  /\ (role_is_superuser r' = role_is_superuser role
      \/ role_is_superuser r' = false
      \/ List.filter (other_super (Some (role_id role))) (roles st) = []).
Proof.
  unfold RoleRepository.update_role, RoleRepository.flush_renamed.
  unfold bind at 1.
  set (renamed := mkRole (role_id role) (default "" name) (role_is_superuser role)
                         (role_deleted_at role)).
  assert (forall r1 st1, role_id r1 = role_id role ->
            role_is_superuser r1 = role_is_superuser role ->
            role_deleted_at r1 = role_deleted_at role ->
            (roles st1 = roles st \/ roles st1 = map (replace_role r1) (roles st)) ->
            (let* role0 :=
               match su with
               | Some b =>
                   if negb (Bool.eqb b (role_is_superuser r1))
                   then (if b then RoleRepository._assert_single_super_role (Some (role_id r1))
                         else ret tt) ;;
                        ret (mkRole (role_id r1) (role_name r1) b (role_deleted_at r1))
                   else ret r1
               | None => ret r1
               end in RoleRepository.flush_row role0 ;; ret role0) st1 = Ok (r', st') ->
            role_id r' = role_id role
            /\ role_deleted_at r' = role_deleted_at role
            /\ roles st' = map (replace_role r') (roles st)
            /\ (role_is_superuser r' = role_is_superuser role
                \/ role_is_superuser r' = false
                \/ List.filter (other_super (Some (role_id role))) (roles st) = [])) as Hflag.
  { intros r1 st1 Hid Hsu Hdel Hroles.
    assert (forall r2, role_id r2 = role_id r1 ->
              map (replace_role r2) (roles st1) = map (replace_role r2) (roles st)) as Hrep.
    { intros r2 H2. destruct Hroles as [->| ->]; [reflexivity|].
      apply replace_replace. congruence. }
    assert (List.filter (other_super (Some (role_id r1))) (roles st1)
            = List.filter (other_super (Some (role_id role))) (roles st)) as Hoth.
    { rewrite <- Hid. destruct Hroles as [->| ->]; [reflexivity|]. apply other_super_replace. }
    destruct su as [b|]; unfold_monad.
    - destruct (negb (Bool.eqb b (role_is_superuser r1))) eqn:Eb.
      + destruct b.
        * rewrite assert_single_super_role_eq, Hoth.
          destruct (List.filter (other_super (Some (role_id role))) (roles st))
            as [|? [|? ?]]; try discriminate.
          rewrite flush_row_eq. intros E; inversion E; subst; simpl.
          rewrite Hrep by reflexivity. repeat split; auto.
        * rewrite flush_row_eq. intros E; inversion E; subst; simpl.
          rewrite Hrep by reflexivity. repeat split; auto.
      + rewrite flush_row_eq. intros E; inversion E; subst; simpl.
        rewrite Hrep by reflexivity. repeat split; auto.
    - rewrite flush_row_eq. intros E; inversion E; subst; simpl.
      rewrite Hrep by reflexivity. repeat split; auto. }
  destruct (truthy_opt_str name).
  - unfold_monad.
    destruct (existsb _ (roles st)); [discriminate|]. rewrite flush_row_eq.
    apply Hflag; try reflexivity. right. reflexivity.
  - unfold ret at 1. apply Hflag; auto.
Qed.

Lemma create_role_commit_eq (name : string) (ps : option (list (string * string)))
      (su : bool) (st : Store) :
  RoleService.create_role_commit name ps su st
  = match RoleRepository.create name None su st with
    | Ok (role, st1) =>
        match create_sync role ps st1 with
        | Ok (_, st2) => Ok (role, st2)
        | Raise e => Raise e
        end
    | Raise (ValueError msg) => Raise (HTTPException HTTP_400_BAD_REQUEST msg)
    | Raise e => Raise e
    end.
Proof.
  unfold RoleService.create_role_commit, RoleService.except_ValueError. unfold bind at 1.
  destruct (RoleRepository.create name None su st) as [[role st1]|e].
  - unfold bind, ret, create_sync. destruct ps as [[|s specs]|]; reflexivity.
  - destruct e; reflexivity.
Qed.

Lemma keeps_roles_create_sync (role : RoleORM) (ps : option (list (string * string))) :
  keeps_roles (create_sync role ps).
Proof.
  destruct ps as [[|s specs]|]; try apply keeps_roles_ret. apply keeps_roles_sync.
Qed.

Lemma keeps_roles_update_sync (role : RoleORM) (ps : option (list (string * string))) :
  keeps_roles (update_sync role ps).
Proof.
  destruct ps; [|apply keeps_roles_ret]. apply keeps_roles_bind.
  - apply keeps_roles_clear.
  - intros _. apply keeps_roles_sync.
Qed.

Lemma create_role_commit_Ok (name : string) (ps : option (list (string * string)))
      (su : bool) (st st' : Store) (role : RoleORM) :
  RoleService.create_role_commit name ps su st = Ok (role, st') ->
  roles st' = (roles st ++ [new_role st name su])%list
  /\ (su = true -> List.filter role_is_superuser (roles st) = []).
Proof.
  rewrite create_role_commit_eq, create_eq.
  assert (forall st1 r,
            match create_sync r ps st1 with
            | Ok (_, st2) => Ok (r, st2)
            | Raise e => Raise e
            end = Ok (role, st') -> roles st' = roles st1) as Hsync.
  { intros st1 r. pose proof (keeps_roles_create_sync r ps st1) as Hk.
    destruct (create_sync r ps st1) as [[? st2]|e]; [|discriminate].
    intros E; inversion E; subst. exact Hk. }
  destruct su.
  - rewrite assert_single_super_role_eq, other_super_None.
    destruct (List.filter role_is_superuser (roles st)) as [|? [|? ?]]; try discriminate.
    destruct (existsb _ (roles st)); [discriminate|].
    intros E. apply Hsync in E. split; [exact E | reflexivity].
  - destruct (existsb _ (roles st)); [discriminate|].
    intros E. apply Hsync in E. split; [exact E | discriminate].
Qed.

Lemma update_role_commit_eq (i : Z) (name : option string)
      (ps : option (list (string * string))) (su : option bool) (st : Store) :
  RoleService.update_role_commit i name ps su st
  = match RoleService._require_role i false st with
    | Ok (role, st0) =>
        match RoleRepository.update_role role name su st0 with
        | Ok (updated, st1) =>
            match update_sync updated ps st1 with
            | Ok (_, st2) => Ok (updated, st2)
            | Raise e => Raise e
            end
        | Raise (ValueError msg) => Raise (HTTPException HTTP_400_BAD_REQUEST msg)
        | Raise e => Raise e
        end
    | Raise e => Raise e
    end.
Proof.
  unfold RoleService.update_role_commit, RoleService.except_ValueError. unfold bind at 1.
  destruct (RoleService._require_role i false st) as [[role st0]|e]; [|reflexivity].
  unfold bind at 1.
  destruct (RoleRepository.update_role role name su st0) as [[upd st1]|e].
  - unfold bind, ret, update_sync. destruct ps; reflexivity.
  - destruct e; reflexivity.
Qed.

Lemma update_role_commit_Ok (i : Z) (name : option string)
      (ps : option (list (string * string))) (su : option bool)
      (st st' : Store) (r' : RoleORM) :
  RoleService.update_role_commit i name ps su st = Ok (r', st') ->
  exists old,
    In old (roles st) /\ role_id old = role_id r'
    /\ role_deleted_at r' = role_deleted_at old
    /\ roles st' = map (replace_role r') (roles st)
    /\ (role_is_superuser r' = role_is_superuser old
        \/ role_is_superuser r' = false
        \/ List.filter (other_super (Some (role_id r'))) (roles st) = []).
Proof.
  rewrite update_role_commit_eq.
  destruct (RoleService._require_role i false st) as [[old st0]|e] eqn:Ereq; [|discriminate].
  apply require_role_Ok in Ereq as (-> & Hin & Hid & _).
  destruct (RoleRepository.update_role old name su st) as [[upd st1]|e] eqn:Eupd;
    [|destruct e; discriminate].
  apply update_role_Ok in Eupd as (Hid' & Hdel & Hroles & Hflag).
  pose proof (keeps_roles_update_sync upd ps st1) as Hk.
  destruct (update_sync upd ps st1) as [[? st2]|e]; [|discriminate].
  intros E; inversion E; subst. exists old.
  rewrite Hid'. repeat split; auto. congruence.
Qed.

Lemma delete_role_Ok (i : Z) (hard : bool) (now' : Z) (st st' : Store) :
  RoleService.delete_role i hard now' st = Ok (tt, st') ->
  exists old,
    In old (roles st) /\ role_id old = i
    /\ (if hard
        then roles st' = List.filter (fun r => negb (role_id r =? i)) (roles st)
        else roles st' = map (replace_role (mkRole i (role_name old) (role_is_superuser old)
                                                   (Some now'))) (roles st)).
Proof.
  unfold RoleService.delete_role. unfold bind at 1.
  destruct (RoleService._require_role i true st) as [[old st0]|e] eqn:Ereq; [|discriminate].
  apply require_role_Ok in Ereq as (-> & Hin & Hid & _).
  exists old. split; [assumption|]. split; [assumption|]. subst i.
  destruct hard.
  - unfold RoleRepository.hard_delete in H. unfold_monad. inversion H. reflexivity.
  - unfold RoleRepository.soft_delete in H. rewrite flush_row_eq in H. inversion H.
    reflexivity.
Qed.

Lemma restore_role_Ok (i : Z) (st st' : Store) (r' : RoleORM) :
  RoleService.restore_role i st = Ok (r', st') ->
  st' = st
  \/ exists old,
      In old (roles st) /\ role_id old = i
      /\ roles st' = map (replace_role (mkRole i (role_name old) (role_is_superuser old)
                                               None)) (roles st).
Proof.
  unfold RoleService.restore_role. unfold bind at 1.
  destruct (RoleService._require_role i true st) as [[old st0]|e] eqn:Ereq; [|discriminate].
  apply require_role_Ok in Ereq as (-> & Hin & Hid & _).
  destruct (role_deleted_at old).
  - unfold RoleRepository.restore. unfold bind. rewrite flush_row_eq. unfold ret.
    intros E; inversion E; subst. right. exists old. auto.
  - unfold ret. intros E; inversion E. now left.
Qed.

(** The invariant is stated for a property [P] of a role that holds of
    superuser roles only and is decided by the two columns [is_superuser]
    and [deleted_at]: the flag itself, or the flag on an active role. *)
Section SingleBy.
Variable P : RoleORM -> bool.
Hypothesis P_superuser : forall r, P r = true -> role_is_superuser r = true.
Hypothesis P_columns :
  forall r r', role_is_superuser r = role_is_superuser r' ->
               role_deleted_at r = role_deleted_at r' -> P r = P r'.
Hypothesis P_soft_delete :
  forall r t, P (mkRole (role_id r) (role_name r) (role_is_superuser r) (Some t)) = true ->
              P r = true.

Lemma invariant_replace (st st' : Store) (old role : RoleORM) :
  roles_invariant P st ->
  In old (roles st) -> role_id old = role_id role ->
  roles st' = map (replace_role role) (roles st) ->
  (P role = true ->
   P old = true \/ forall r, In r (roles st) -> role_id r <> role_id role -> P r = false) ->
  roles_invariant P st'.
Proof using Type.
  intros [Hnd Hs] Hin Hid Hroles Hflag. unfold roles_invariant, role_ids_unique.
  rewrite Hroles, map_id_replace. split; [assumption|].
  now apply (single_by_replace P _ old).
Qed.

Lemma not_superuser_not_P (r : RoleORM) : role_is_superuser r = false -> P r = false.
Proof using P_superuser.
  intros Hr. destruct (P r) eqn:E; [|reflexivity].
  apply P_superuser in E. congruence.
Qed.

Lemma no_superuser_no_P (rs : list RoleORM) (r : RoleORM) :
  List.filter role_is_superuser rs = [] -> In r rs -> P r = false.
Proof using P_superuser.
  intros Hnone Hr. apply not_superuser_not_P.
  now apply (proj2 (filter_none _ _) Hnone).
Qed.

Lemma step_invariant (st : Store) (op : RoleService.RoleOp) :
  (is_restore op = true ->
   forall r, P (mkRole (role_id r) (role_name r) (role_is_superuser r) None) = true ->
             P r = true) ->
  roles_invariant P st -> roles_invariant P (RoleService.step st op).
Proof using P_superuser P_columns P_soft_delete.
  intros Hrestore Hinv. pose proof Hinv as [Hnd Hs].
  destruct op as [n ps su|i n ps su|i t|i|i]; unfold RoleService.step, commit_or_rollback.
  - destruct (RoleService.create_role_commit n ps su st) as [[r st']|e] eqn:E;
      [|assumption].
    apply create_role_commit_Ok in E as [Hroles Hnone].
    unfold roles_invariant, role_ids_unique. rewrite Hroles. split.
    + rewrite map_app. simpl. apply NoDup_app_remove_l with (l := []). simpl.
      apply List.NoDup_app; [assumption | repeat constructor; intros [] |].
      intros x Hx [<-|[]]. now apply next_id_fresh in Hx.
    + apply single_by_append; [assumption|]. intros Hnew q Hq.
      apply P_superuser in Hnew. simpl in Hnew.
      apply (no_superuser_no_P (roles st)); [now apply Hnone | assumption].
  - destruct (RoleService.update_role_commit i n ps su st) as [[r st']|e] eqn:E;
      [|assumption].
    apply update_role_commit_Ok in E as (old & Hin & Hid & Hdel & Hroles & Hflag).
    apply (invariant_replace st st' old r); auto. intros Hr.
    destruct Hflag as [Hf|[Hf|Hf]].
    + left. rewrite <- Hr. symmetry. now apply P_columns.
    + apply not_superuser_not_P in Hf. congruence.
    + right. intros q Hq Hne. apply not_superuser_not_P.
      pose proof (proj2 (filter_none _ _) Hf q Hq) as Hx. unfold other_super in Hx.
      destruct (role_is_superuser q); [|reflexivity]. simpl in Hx.
      apply negb_false_iff, Z.eqb_eq in Hx. contradiction.
  - destruct (RoleService.delete_role i false t st) as [[[] st']|e] eqn:E; [|assumption].
    apply delete_role_Ok in E as (old & Hin & Hid & Hroles). subst i.
    refine (invariant_replace st st' old _ Hinv Hin _ Hroles _); [reflexivity|].
    intros Hr. left. now apply P_soft_delete in Hr.
  - destruct (RoleService.delete_role i true 0 st) as [[[] st']|e] eqn:E; [|assumption].
    apply delete_role_Ok in E as (old & Hin & Hid & Hroles).
    unfold roles_invariant, role_ids_unique. rewrite Hroles. split.
    + now apply NoDup_map_filter.
    + now apply single_by_filter.
  - destruct (RoleService.restore_role i st) as [[r st']|e] eqn:E; [|assumption].
    apply restore_role_Ok in E as [->|(old & Hin & Hid & Hroles)]; [assumption|].
    subst i.
    refine (invariant_replace st st' old _ Hinv Hin _ Hroles _); [reflexivity|].
    intros Hr. left. now apply (Hrestore eq_refl).
Qed.

Lemma run_invariant (ops : list RoleService.RoleOp) (st : Store) :
  (forall op, In op ops -> is_restore op = true ->
              forall r, P (mkRole (role_id r) (role_name r) (role_is_superuser r) None)
                        = true -> P r = true) ->
  roles_invariant P st -> roles_invariant P (RoleService.run st ops).
Proof using P_superuser P_columns P_soft_delete.
  revert st. induction ops as [|op ops IH]; simpl; intros st Hres Hinv; [assumption|].
  apply IH; [intros; eapply Hres; eauto|].
  apply step_invariant; [|assumption]. apply Hres. now left.
Qed.

End SingleBy.

(** C2, as the code has it.  From a store that satisfies the primary key of
    [roles] and in which at most one role, soft-deleted or not, has
    [is_superuser = true], every sequence of role operations (create,
    update, soft delete, hard delete, restore) leads to a store in which at
    most one role at all, hence at most one non-deleted role, has the
    flag. *)
Theorem role_operations_keep_single_superuser (st : Store) (ops : list RoleService.RoleOp) :
  role_ids_unique st ->
  at_most_one_super st ->
  at_most_one_super (RoleService.run st ops)
  /\ at_most_one_active_super (RoleService.run st ops).
Proof.
  intros Hnd Hone.
  assert (roles_invariant role_is_superuser (RoleService.run st ops)) as [Hnd' Hs'].
  { apply run_invariant; auto.
    split; [assumption|]. now apply single_by_length. }
  apply single_by_length in Hs'; [|assumption].
  split; [exact Hs'|].
  unfold at_most_one_active_super, active_super_roles.
  pose proof (active_super_le (roles (RoleService.run st ops))). unfold super_roles in Hs'. lia.
Qed.

(** Restoring is the only operation that can break the bound on active
    superuser roles: sequences without a restore keep it from any store
    that satisfies the primary key. *)
Lemma operations_other_than_restore_keep_active_bound
      (st : Store) (ops : list RoleService.RoleOp) :
  role_ids_unique st ->
  at_most_one_active_super st ->
  Forall (fun op => is_restore op = false) ops ->
  at_most_one_active_super (RoleService.run st ops).
Proof.
  intros Hnd Hone Hops.
  assert (roles_invariant active_super (RoleService.run st ops)) as [Hnd' Hs'].
  { apply run_invariant.
    - intros r Hr. unfold active_super in Hr. now apply andb_true_iff in Hr as [Hr _].
    - intros r r' Hsu Hdel. unfold active_super. now rewrite Hsu, Hdel.
    - intros r t Hr. unfold active_super in Hr. simpl in Hr.
      rewrite andb_false_r in Hr. discriminate.
    - intros op Hin Hres. rewrite List.Forall_forall in Hops. rewrite (Hops op Hin) in Hres.
      discriminate.
    - split; [assumption|]. now apply single_by_length. }
  now apply single_by_length in Hs'.
Qed.

(** C2 as stated fails: with a soft-deleted superuser role next to an
    active one, at most one non-deleted role has the flag, and restoring
    the first leaves two non-deleted superuser roles. *)
Lemma restore_breaks_active_superuser_bound :
  role_ids_unique two_super_roles_store
  /\ at_most_one_active_super two_super_roles_store
  /\ ~ at_most_one_active_super
       (RoleService.run two_super_roles_store [RoleService.OpRestore 1]).
Proof.
  split; [|split].
  - unfold role_ids_unique; simpl. repeat constructor; simpl; intuition lia.
  - unfold at_most_one_active_super; simpl. lia.
  - unfold at_most_one_active_super. vm_compute. lia.
Qed.

(** ** The conflict check on the superuser flag *)

Lemma filter_and_length {A} (f g : A -> bool) (l : list A) :
  (length (List.filter (fun x => f x && g x) l) <= length (List.filter f l))%nat.
Proof.
  induction l as [|a l IH]; simpl; [lia|].
  destruct (f a); simpl; [destruct (g a); simpl; lia | assumption].
Qed.

Lemma other_super_length (exclude : option Z) (st : Store) :
  at_most_one_super st ->
  (length (List.filter (other_super exclude) (roles st)) <= 1)%nat.
Proof.
  intros H. unfold at_most_one_super, super_roles in H.
  pose proof (filter_and_length role_is_superuser
                (fun r => match exclude with
                          | Some x => negb (role_id r =? x)
                          | None => true
                          end) (roles st)) as Hle.
  unfold other_super. lia.
Qed.

Lemma other_super_exists (exclude : option Z) (rs : list RoleORM) :
  List.filter (other_super exclude) rs <> []
  <-> exists r, In r rs /\ role_is_superuser r = true
                /\ match exclude with Some x => role_id r <> x | None => True end.
Proof.
  split.
  - destruct (List.filter (other_super exclude) rs) as [|r l] eqn:E; [congruence|].
    intros _. assert (In r (List.filter (other_super exclude) rs)) as Hin
        by (rewrite E; now left).
    apply List.filter_In in Hin as [Hin Ho]. unfold other_super in Ho.
    apply andb_true_iff in Ho as [Hs Hx]. exists r. repeat split; auto.
    destruct exclude; [|exact I]. now apply negb_true_iff, Z.eqb_neq in Hx.
  - intros (r & Hin & Hs & Hx) E.
    pose proof (proj2 (filter_none _ _) E r Hin) as Hf. unfold other_super in Hf.
    rewrite Hs in Hf. simpl in Hf. destruct exclude; [|discriminate].
    apply negb_false_iff, Z.eqb_eq in Hf. contradiction.
Qed.

Lemma sync_result_not_http {A} (m : M unit) (a : A) (st : Store) (c : Z) (d : string) :
  keeps_roles m ->
  match m st with
  | Ok (_, st2) => Ok (a, st2)
  | Raise e => Raise e
  end <> Raise (HTTPException c d).
Proof.
  intros Hk. specialize (Hk st). destruct (m st) as [[? ?]|e]; [discriminate|].
  intros E; inversion E; subst. now apply (Hk c d).
Qed.

Lemma create_superuser_outcome (name : string) (ps : option (list (string * string)))
      (st : Store) :
  at_most_one_super st ->
  RoleService.create_role_commit name ps true st = Raise superuser_exists_error
  <-> exists r, In r (roles st) /\ role_is_superuser r = true.
Proof.
  intros Hone. rewrite create_role_commit_eq, create_eq, assert_single_super_role_eq.
  pose proof (other_super_length None st Hone) as Hlen.
  pose proof (other_super_exists None (roles st)) as Hex.
  destruct (List.filter (other_super None) (roles st)) as [|x [|y l]]; simpl in Hlen; [| |lia].
  - split.
    + destruct (existsb _ (roles st)); [discriminate|].
      intros E. exfalso. revert E. apply sync_result_not_http, keeps_roles_create_sync.
    + intros (r & Hin & Hs). exfalso. apply (proj2 Hex); eauto.
  - split; [|reflexivity]. intros _.
    destruct (proj1 Hex) as (r & Hin & Hs & _); [discriminate|eauto].
Qed.

Lemma update_role_to_super_eq (role : RoleORM) (name : option string) (st : Store) :
  role_is_superuser role = false ->
  name_taken_by_other st (role_id role) name = false ->
  RoleRepository.update_role role name (Some true) st
  = let updated := mkRole (role_id role)
                          (if truthy_opt_str name then default "" name else role_name role)
                          true (role_deleted_at role) in
    match List.filter (other_super (Some (role_id role))) (roles st) with
    | [] => Ok (updated, set_roles st (map (replace_role updated) (roles st)))
    | [_] => Raise (ValueError "A superuser role already exists")
    | _ :: _ :: _ => Raise MultipleResultsFound
    end.
Proof.
  intros Hsu Hfree. unfold name_taken_by_other in Hfree.
  unfold RoleRepository.update_role, RoleRepository.flush_renamed.
  destruct (truthy_opt_str name); simpl in Hfree; unfold_monad; simpl.
  - rewrite Hfree, flush_row_eq. simpl. rewrite Hsu. simpl.
    rewrite assert_single_super_role_eq. simpl.
    pose proof (other_super_replace
                  (mkRole (role_id role) (default "" name) false (role_deleted_at role))
                  (roles st)) as Hoth.
    simpl in Hoth. rewrite Hoth.
    destruct (List.filter (other_super (Some (role_id role))) (roles st)) as [|? [|? ?]];
      try reflexivity.
    simpl. do 2 f_equal. unfold set_roles; simpl. f_equal.
    apply (replace_replace
             (mkRole (role_id role) (default "" name) false (role_deleted_at role))
             (mkRole (role_id role) (default "" name) true (role_deleted_at role))).
    reflexivity.
  - rewrite Hsu. simpl. rewrite assert_single_super_role_eq.
    destruct (List.filter (other_super (Some (role_id role))) (roles st)) as [|? [|? ?]];
      try reflexivity.
Qed.

(** An update to [is_superuser = true] of a role that has the flag runs
    no check. *)
Lemma update_role_flag_kept (role : RoleORM) (name : option string) (st : Store) :
  role_is_superuser role = true ->
  name_taken_by_other st (role_id role) name = false ->
  exists updated st1,
    RoleRepository.update_role role name (Some true) st = Ok (updated, st1).
Proof.
  intros Hsu Hfree. unfold name_taken_by_other in Hfree.
  unfold RoleRepository.update_role, RoleRepository.flush_renamed.
  destruct (truthy_opt_str name); simpl in Hfree; unfold_monad; simpl.
  - rewrite Hfree, flush_row_eq. simpl. rewrite Hsu. simpl. eauto.
  - rewrite Hsu. simpl. eauto.
Qed.

Lemma update_to_superuser_outcome (role : RoleORM) (name : option string)
      (ps : option (list (string * string))) (st : Store) :
  at_most_one_super st ->
  RoleService._require_role (role_id role) false st = Ok (role, st) ->
  name_taken_by_other st (role_id role) name = false ->
  RoleService.update_role_commit (role_id role) name ps (Some true) st
  = Raise superuser_exists_error
  <-> exists r, In r (roles st) /\ role_is_superuser r = true /\ role_id r <> role_id role.
Proof.
  intros Hone Hreq Hfree.
  destruct (role_is_superuser role) eqn:Hsu.
  { split.
    - intros E. exfalso. rewrite update_role_commit_eq, Hreq in E.
      destruct (update_role_flag_kept role name st Hsu Hfree) as (u & st1 & Eu).
      rewrite Eu in E. revert E. apply sync_result_not_http, keeps_roles_update_sync.
    - intros (r & Hin & Hs & Hne). exfalso. apply Hne. f_equal.
      apply require_role_Ok in Hreq as (_ & Hrole & _).
      apply (length_le_1_eq (super_roles st)); [exact Hone | |];
        unfold super_roles; apply List.filter_In; auto. }
  rewrite update_role_commit_eq, Hreq, update_role_to_super_eq by assumption.
  pose proof (other_super_length (Some (role_id role)) st Hone) as Hlen.
  pose proof (other_super_exists (Some (role_id role)) (roles st)) as Hex.
  cbv zeta.
  destruct (List.filter (other_super (Some (role_id role))) (roles st)) as [|x [|y l]];
    simpl in Hlen; [| |lia].
  - split.
    + intros E. exfalso. revert E. apply sync_result_not_http, keeps_roles_update_sync.
    + intros Hr. exfalso. now apply (proj2 Hex).
  - split; [|reflexivity]. intros _. apply (proj1 Hex). discriminate.
Qed.

Lemma create_role_Raise_http (name : string) (ps : option (list (string * string)))
      (su : bool) (st : Store) (c : Z) (d : string) :
  RoleService.create_role name ps su st = Raise (HTTPException c d)
  <-> RoleService.create_role_commit name ps su st = Raise (HTTPException c d).
Proof.
  unfold RoleService.create_role, RoleRepository.get_by_id. unfold_monad.
  destruct (RoleService.create_role_commit name ps su st) as [[r st1]|e];
    [|split; intros E; inversion E; reflexivity].
  destruct (scalar_one_or_none _) as [?|e] eqn:E; [split; discriminate|].
  apply scalar_one_or_none_Raise in E. subst e. split; discriminate.
Qed.

Lemma update_role_Raise_http (i : Z) (name : option string)
      (ps : option (list (string * string))) (su : option bool)
      (st : Store) (c : Z) (d : string) :
  RoleService.update_role i name ps su st = Raise (HTTPException c d)
  <-> RoleService.update_role_commit i name ps su st = Raise (HTTPException c d).
Proof.
  unfold RoleService.update_role, RoleRepository.get_by_id. unfold_monad.
  destruct (RoleService.update_role_commit i name ps su st) as [[r st1]|e];
    [|split; intros E; inversion E; reflexivity].
  destruct (scalar_one_or_none _) as [?|e] eqn:E; [split; discriminate|].
  apply scalar_one_or_none_Raise in E. subst e. split; discriminate.
Qed.

(** An update that assigns a name another role carries fails on the
    UNIQUE constraint before the flag is looked at. *)
Lemma update_role_name_taken (role : RoleORM) (name : option string)
      (ps : option (list (string * string))) (su : option bool) (st : Store) :
  RoleService._require_role (role_id role) false st = Ok (role, st) ->
  name_taken_by_other st (role_id role) name = true ->
  RoleService.update_role (role_id role) name ps su st
  = Raise (IntegrityError "roles.name").
Proof.
  intros Hreq Htaken. unfold name_taken_by_other in Htaken.
  apply andb_true_iff in Htaken as [Hname Hex].
  unfold RoleService.update_role. unfold bind at 1.
  rewrite update_role_commit_eq, Hreq.
  unfold RoleRepository.update_role, RoleRepository.flush_renamed.
  rewrite Hname. unfold bind at 1. unfold bind at 1. unfold bind at 1.
  unfold get_store at 1. cbn [role_id role_name]. rewrite Hex. reflexivity.
Qed.

(** Creating a superuser role under a name that is taken, when no role
    has the flag, fails on the UNIQUE constraint. *)
Lemma create_role_name_taken (name : string) (ps : option (list (string * string)))
      (st : Store) :
  (forall r, In r (roles st) -> role_is_superuser r = false) ->
  (exists r, In r (roles st) /\ role_name r = name) ->
  RoleService.create_role name ps true st = Raise (IntegrityError "roles.name").
Proof.
  intros Hnone (r & Hin & Hname).
  unfold RoleService.create_role. unfold bind at 1.
  rewrite create_role_commit_eq, create_eq, assert_single_super_role_eq.
  assert (List.filter (other_super None) (roles st) = []) as ->.
  { apply filter_none. intros x Hx. unfold other_super. now rewrite (Hnone x Hx). }
  assert (existsb (fun r => String.eqb (role_name r) name) (roles st) = true) as ->.
  { apply existsb_exists. exists r. split; [exact Hin|]. now apply String.eqb_eq. }
  reflexivity.
Qed.

(** C3, as the code has it.  In a store with at most one superuser role,
    creating a role with [is_superuser = true] raises the HTTP 400 error
    "A superuser role already exists" exactly when some role, active or
    soft-deleted, already has the flag; and updating an active role to
    [is_superuser = true], without giving it a name another role carries,
    raises that error exactly when some other role, active or
    soft-deleted, has the flag.  An update that gives the role a name
    another role carries raises [IntegrityError] on the unique name
    instead, whatever the flags; so does a creation under a name that is
    taken when no role has the flag. *)
Theorem superuser_flag_refused_iff_other_superuser (st : Store) :
  at_most_one_super st ->
  (forall name ps,
      RoleService.create_role name ps true st = Raise superuser_exists_error
      <-> exists r, In r (roles st) /\ role_is_superuser r = true)
  /\ (forall role name ps,
         RoleService._require_role (role_id role) false st = Ok (role, st) ->
         name_taken_by_other st (role_id role) name = false ->
         RoleService.update_role (role_id role) name ps (Some true) st
         = Raise superuser_exists_error
         <-> exists r, In r (roles st) /\ role_is_superuser r = true
                       /\ role_id r <> role_id role)
  /\ (forall role name ps su,
         RoleService._require_role (role_id role) false st = Ok (role, st) ->
         name_taken_by_other st (role_id role) name = true ->
         RoleService.update_role (role_id role) name ps su st
         = Raise (IntegrityError "roles.name"))
  /\ (forall name ps,
         (forall r, In r (roles st) -> role_is_superuser r = false) ->
         (exists r, In r (roles st) /\ role_name r = name) ->
         RoleService.create_role name ps true st = Raise (IntegrityError "roles.name")).
Proof.
  intros Hone. split; [|split; [|split]].
  - intros name ps. unfold superuser_exists_error. rewrite create_role_Raise_http.
    now apply create_superuser_outcome.
  - intros role name ps Hreq Hfree. unfold superuser_exists_error.
    rewrite update_role_Raise_http. now apply update_to_superuser_outcome.
  - intros role name ps su. apply update_role_name_taken.
  - intros name ps. apply create_role_name_taken.
Qed.

(** C3 as stated fails: the only role with the flag is soft-deleted, no
    active role has it, and creating a superuser role is refused; the error
    carries status 400, not 409. *)
Lemma create_superuser_refused_when_other_is_soft_deleted :
  active_super_roles deleted_super_role_store = []
  /\ RoleService.create_role "operators" None true deleted_super_role_store
     = Raise superuser_exists_error
  /\ superuser_exists_error
     = HTTPException HTTP_400_BAD_REQUEST "A superuser role already exists"
  /\ HTTP_400_BAD_REQUEST <> HTTP_409_CONFLICT.
Proof. repeat split; try reflexivity. discriminate. Qed.

(** ** Privilege evaluation *)

Lemma In_join {A B} (l : list A) (r : list B) (on : A -> B -> bool) (a : A) (b : B) :
  In (a, b) (join l r on) <-> In a l /\ In b r /\ on a b = true.
Proof.
  unfold join. rewrite in_flat_map. split.
  - intros (x & Hx & Hin). apply in_map_iff in Hin as (y & E & Hy).
    inversion E; subst. apply List.filter_In in Hy. tauto.
  - intros (Ha & Hb & Hon). exists a. split; [assumption|].
    apply in_map_iff. exists b. split; [reflexivity|]. now apply List.filter_In.
Qed.

Lemma count_positive {A} (l : list A) : (0 <? sql_count l) = true <-> exists x, In x l.
Proof.
  unfold sql_count. rewrite Z.ltb_lt. destruct l as [|a l]; simpl.
  - split; [lia | intros [x []]].
  - split; [intros _; exists a; now left | lia].
Qed.

Lemma is_None_true {A} (o : option A) : is_None o = true <-> o = None.
Proof. destruct o; simpl; split; congruence. Qed.

Lemma pair_of_link (l : Z * Z) (a b : Z) : a = fst l -> b = snd l -> (a, b) = l.
Proof. destruct l; simpl; congruence. Qed.

Lemma user_is_superuser_spec (st : Store) (uid : Z) :
  UserRepository.user_is_superuser uid st = Ok (true, st) <-> holds_superuser_role st uid.
Proof.
  unfold UserRepository.user_is_superuser. unfold_monad.
  assert (forall b, Ok (b, st) = Ok (true, st) <-> b = true) as Hb
      by (intros b; split; [intros E; inversion E; reflexivity | intros ->; reflexivity]).
  rewrite Hb, count_positive. unfold holds_superuser_role. split.
  - intros ([[u ur] r] & Hin). apply List.filter_In in Hin as [Hin Hc].
    apply andb_true_iff in Hc as [Hc Hdel]. apply andb_true_iff in Hc as [Hid Hsu].
    unfold UserRepository.superuser_join in Hin.
    apply In_join in Hin as (Hin & Hr & Hon). apply In_join in Hin as (Hu & Hur & Hon').
    simpl in Hon. apply Z.eqb_eq in Hid, Hon, Hon'. apply is_None_true in Hdel.
    exists u, r. repeat split; auto.
    replace (uid, role_id r) with ur; [assumption|].
    symmetry. apply pair_of_link; congruence.
  - intros (u & r & Hu & Hid & Hur & Hr & Hsu & Hdel).
    exists ((u, (uid, role_id r)), r). apply List.filter_In. split.
    + unfold UserRepository.superuser_join. apply In_join. split; [|split].
      * apply In_join. repeat split; auto. simpl. now apply Z.eqb_eq.
      * assumption.
      * simpl. apply Z.eqb_refl.
    + rewrite Hsu, Hdel. simpl. rewrite !andb_true_r. now apply Z.eqb_eq.
Qed.

Lemma user_has_privilege_spec (st : Store) (uid : Z) (resource action : string) :
  UserRepository.user_has_privilege uid resource action st = Ok (true, st)
  <-> holds_privilege st uid resource action.
Proof.
  unfold UserRepository.user_has_privilege. unfold_monad.
  assert (forall b, Ok (b, st) = Ok (true, st) <-> b = true) as Hb
      by (intros b; split; [intros E; inversion E; reflexivity | intros ->; reflexivity]).
  rewrite Hb, count_positive. unfold holds_privilege. split.
  - intros ([[[[u ur] r] rp] p] & Hin). apply List.filter_In in Hin as [Hin Hc].
    repeat (let H := fresh "Hc" in apply andb_true_iff in Hc as [Hc H]).
    unfold UserRepository.privilege_join in Hin.
    apply In_join in Hin as (Hin & Hp & Hon4). apply In_join in Hin as (Hin & Hrp & Hon3).
    apply In_join in Hin as (Hin & Hr & Hon2). apply In_join in Hin as (Hu & Hur & Hon1).
    simpl in Hon2, Hon3, Hon4.
    apply Z.eqb_eq in Hc, Hon1, Hon2, Hon3, Hon4.
    apply is_None_true in Hc4, Hc3, Hc2. apply String.eqb_eq in Hc1, Hc0.
    exists u, r, p. repeat split; auto.
    + replace (uid, role_id r) with ur; [assumption|].
      symmetry. apply pair_of_link; congruence.
    + replace (role_id r, privilege_id p) with rp; [assumption|].
      symmetry. apply pair_of_link; congruence.
  - intros (u & r & p & Hu & Hid & Hud & Hur & Hr & Hrd & Hrp & Hp & Hpd & Hres & Hact).
    exists ((((u, (uid, role_id r)), r), (role_id r, privilege_id p)), p).
    apply List.filter_In. split.
    + unfold UserRepository.privilege_join.
      repeat (apply In_join; split; [|split]); simpl; auto;
        try apply Z.eqb_refl. now apply Z.eqb_eq.
    + rewrite Hud, Hrd, Hpd, Hres, Hact, !String.eqb_refl. simpl.
      rewrite !andb_true_r. now apply Z.eqb_eq.
Qed.

Lemma user_is_superuser_total (uid : Z) (st : Store) :
  exists b, UserRepository.user_is_superuser uid st = Ok (b, st).
Proof. unfold UserRepository.user_is_superuser. unfold_monad. eauto. Qed.

Lemma user_has_privilege_total (uid : Z) (resource action : string) (st : Store) :
  exists b, UserRepository.user_has_privilege uid resource action st = Ok (b, st).
Proof. unfold UserRepository.user_has_privilege. unfold_monad. eauto. Qed.

(** C1. [assert_privilege] returns without error when the user holds a
    non-deleted superuser role; otherwise it returns exactly when the
    non-deleted user is assigned a non-deleted role linked to a non-deleted
    privilege whose resource and action are the requested strings; and in
    the remaining case it raises 403 Forbidden. *)
Theorem assert_privilege_decision (st : Store) (uid : Z) (resource action : string) :
  (holds_superuser_role st uid ->
   AuthService.assert_privilege uid resource action st = Ok (tt, st))
  /\ (~ holds_superuser_role st uid ->
      (AuthService.assert_privilege uid resource action st = Ok (tt, st)
       <-> holds_privilege st uid resource action))
  /\ (~ holds_superuser_role st uid ->
      ~ holds_privilege st uid resource action ->
      AuthService.assert_privilege uid resource action st
      = Raise (HTTPException HTTP_403_FORBIDDEN
                             ("Missing privilege " ++ action ++ " on " ++ resource))).
Proof.
  pose proof (user_is_superuser_spec st uid) as Hsup.
  pose proof (user_has_privilege_spec st uid resource action) as Hpriv.
  destruct (user_is_superuser_total uid st) as [bs Es].
  destruct (user_has_privilege_total uid resource action st) as [bp Ep].
  assert (bs = true <-> holds_superuser_role st uid) as Hs.
  { rewrite <- Hsup, Es.
    split; [intros ->; reflexivity | intros E; inversion E; reflexivity]. }
  assert (bp = true <-> holds_privilege st uid resource action) as Hp.
  { rewrite <- Hpriv, Ep.
    split; [intros ->; reflexivity | intros E; inversion E; reflexivity]. }
  assert (AuthService.assert_privilege uid resource action st
          = if bs then Ok (tt, st)
            else if bp then Ok (tt, st)
                 else Raise (AuthService.missing_privilege resource action)) as ->.
  { unfold AuthService.assert_privilege, bind. rewrite Es.
    destruct bs; [reflexivity|]. rewrite Ep. destruct bp; reflexivity. }
  unfold AuthService.missing_privilege.
  destruct bs.
  - split; [reflexivity|]. split; intros Hn; exfalso; apply Hn, Hs; reflexivity.
  - split; [|split].
    + intros H. apply Hs in H. discriminate.
    + intros _. destruct bp.
      * split; [intros _; now apply Hp | reflexivity].
      * split; [discriminate | intros H; apply Hp in H; discriminate].
    + intros _ Hn. destruct bp; [exfalso; apply Hn, Hp; reflexivity | reflexivity].
Qed.

(** ** Login *)

Lemma NoDup_map_eq {A B} (f : A -> B) (l : list A) (x y : A) :
  List.NoDup (map f l) -> In x l -> In y l -> f x = f y -> x = y.
Proof.
  induction l as [|a l IH]; simpl; [tauto|]. intros Hnd Hx Hy E.
  inversion Hnd as [|b bs Hb Hnd']; subst.
  destruct Hx as [->|Hx], Hy as [->|Hy]; auto.
  - exfalso. apply Hb. rewrite E. now apply in_map.
  - exfalso. apply Hb. rewrite <- E. now apply in_map.
Qed.

Lemma filter_unique_key {A B} (f : A -> B) (g : A -> bool) (l : list A) (u : A) :
  List.NoDup (map f l) -> In u l ->
  (forall x, In x l -> g x = true -> f x = f u) ->
  List.filter g l = if g u then [u] else [].
Proof.
  intros Hnd Hu Hkey.
  assert (forall x, In x l -> g x = true -> x = u) as Huniq
      by (intros x Hx Hg; apply (NoDup_map_eq f l); auto).
  clear Hkey. induction l as [|a l IH]; simpl in *; [tauto|].
  inversion Hnd as [|b bs Hb Hnd']; subst.
  destruct Hu as [->|Hu].
  - assert (List.filter g l = []) as ->.
    { apply filter_none. intros x Hx. destruct (g x) eqn:Ex; [|reflexivity].
      exfalso. apply Hb. rewrite <- (Huniq x (or_intror Hx) Ex). now apply in_map. }
    destruct (g u); reflexivity.
  - destruct (g a) eqn:Ea.
    + assert (a = u) as -> by (apply Huniq; auto).
      exfalso. apply Hb. now apply in_map.
    + apply IH; auto.
Qed.

Section Login.
Context `{Security}.

Lemma get_by_email_unique (st : Store) (u : UserORM) :
  user_emails_unique st -> In u (users st) ->
  UserRepository.get_by_email (user_email u) st
  = Ok (if is_None (user_deleted_at u) then Some u else None, st).
Proof using Type.
  intros Huq Hin. unfold UserRepository.get_by_email. unfold_monad.
  rewrite (filter_unique_key user_email _ (users st) u Huq Hin).
  - rewrite String.eqb_refl. simpl. destruct (is_None (user_deleted_at u)); reflexivity.
  - intros x _ Hx. apply andb_true_iff in Hx as [Hx _]. now apply String.eqb_eq in Hx.
Qed.

Lemma get_by_email_unknown (st : Store) (email : string) :
  (forall u, In u (users st) -> user_email u <> email) ->
  UserRepository.get_by_email email st = Ok (None, st).
Proof using Type.
  intros Hno. unfold UserRepository.get_by_email. unfold_monad.
  assert (List.filter (fun u => String.eqb (user_email u) email
                                && is_None (user_deleted_at u)) (users st) = []) as ->;
    [|reflexivity].
  apply filter_none. intros u Hu. destruct (String.eqb (user_email u) email) eqn:E;
    [|reflexivity].
  apply String.eqb_eq in E. now apply Hno in Hu.
Qed.

(** The outcome of a login attempt with the email of a stored user. *)
Lemma authenticate_known (st : Store) (u : UserORM) (password : string) (now' : Z) :
  user_emails_unique st -> In u (users st) ->
  AuthService.authenticate (user_email u) password now' st
  = if is_None (user_deleted_at u)
    then if negb (verify_password password (user_hashed_password u))
         then Raise AuthService.invalid_credentials
         else if user_is_blocked u
              then Raise AuthService.user_is_blocked_error
              else Ok (token_for u now', st)
    else Raise AuthService.invalid_credentials.
Proof using Type.
  intros Huq Hin. unfold AuthService.authenticate, bind.
  rewrite get_by_email_unique by assumption.
  destruct (is_None (user_deleted_at u)); [|reflexivity].
  destruct (negb (verify_password password (user_hashed_password u))); [reflexivity|].
  destruct (user_is_blocked u); reflexivity.
Qed.

Lemma replace_user_same_id (st : Store) (u u1 x : UserORM) :
  user_ids_unique st -> In u (users st) -> In x (users st) ->
  user_id u1 = user_id u -> user_email u1 = user_email u ->
  user_email (replace_user u1 x) = user_email x
  /\ user_id (replace_user u1 x) = user_id x.
Proof using Type.
  intros Hnd Hu Hx Hid Hem. unfold replace_user.
  destruct (user_id x =? user_id u1) eqn:E; [|auto].
  apply Z.eqb_eq in E. rewrite Hid in E.
  rewrite (NoDup_map_eq user_id (users st) x u Hnd Hx Hu E). auto.
Qed.

(** Rewriting the row of a stored user, key and email unchanged, keeps the
    constraints of [users] and puts the new row in the table. *)
Lemma flush_row_user (st : Store) (u u1 : UserORM) :
  user_ids_unique st -> user_emails_unique st -> In u (users st) ->
  user_id u1 = user_id u -> user_email u1 = user_email u ->
  exists st1,
    UserRepository.flush_row u1 st = Ok (tt, st1)
    /\ user_ids_unique st1 /\ user_emails_unique st1 /\ In u1 (users st1).
Proof using Type.
  intros Hnd Hem Hu Hid Hmail. eexists. split; [reflexivity|].
  unfold user_ids_unique, user_emails_unique. simpl.
  change (fun u0 => if user_id u0 =? user_id u1 then u1 else u0) with (replace_user u1).
  assert (map user_id (map (replace_user u1) (users st)) = map user_id (users st)) as ->.
  { rewrite map_map. apply map_ext_in. intros x Hx.
    now apply (replace_user_same_id st u u1 x). }
  assert (map user_email (map (replace_user u1) (users st)) = map user_email (users st)) as ->.
  { rewrite map_map. apply map_ext_in. intros x Hx.
    now apply (replace_user_same_id st u u1 x). }
  repeat split; auto. apply in_map_iff. exists u. split; [|assumption].
  unfold replace_user. rewrite Hid, Z.eqb_refl. reflexivity.
Qed.

End Login.

(** C5. For a stored user and a password that verifies against the stored
    hash: once the user is soft-deleted, login is refused with 401, and once
    restored it succeeds again (the user not being blocked); once an active
    user is blocked, login is refused with 403, and once unblocked it
    succeeds again; a soft-deleted user is refused with 401 and a blocked
    active one with 403 in any store; an email no user has, or a password
    that does not verify, is refused with 401.  The store satisfies the
    primary key and the UNIQUE constraint on [email] of [users]. *)
Theorem login_follows_user_lifecycle `{Security}
        (st : Store) (u : UserORM) (password : string) (now' deleted_at : Z) :
  user_ids_unique st -> user_emails_unique st -> In u (users st) ->
  verify_password password (user_hashed_password u) = true ->
  let unauthenticated : result (string * Store) :=
    Raise (HTTPException HTTP_401_UNAUTHORIZED "Invalid credentials") in
  let forbidden : result (string * Store) :=
    Raise (HTTPException HTTP_403_FORBIDDEN "User is blocked") in
  (exists deleted st1,
      UserRepository.soft_delete u deleted_at st = Ok (deleted, st1)
      /\ AuthService.authenticate (user_email u) password now' st1 = unauthenticated
      /\ exists restored st2,
          UserRepository.restore deleted st1 = Ok (restored, st2)
          /\ (user_is_blocked u = false ->
              AuthService.authenticate (user_email u) password now' st2
              = Ok (token_for u now', st2)))
  /\ (user_deleted_at u = None ->
      exists blocked st1,
        UserRepository.set_block_status u true st = Ok (blocked, st1)
        /\ AuthService.authenticate (user_email u) password now' st1 = forbidden
        /\ exists unblocked st2,
            UserRepository.set_block_status blocked false st1 = Ok (unblocked, st2)
            /\ AuthService.authenticate (user_email u) password now' st2
               = Ok (token_for u now', st2))
  /\ (user_deleted_at u <> None ->
      AuthService.authenticate (user_email u) password now' st = unauthenticated)
  /\ (user_deleted_at u = None -> user_is_blocked u = true ->
      AuthService.authenticate (user_email u) password now' st = forbidden)
  /\ (forall email any_password,
         (forall x, In x (users st) -> user_email x <> email) ->
         AuthService.authenticate email any_password now' st = unauthenticated)
  /\ (forall wrong_password,
         verify_password wrong_password (user_hashed_password u) = false ->
         AuthService.authenticate (user_email u) wrong_password now' st = unauthenticated).
Proof.
  intros Hids Hmails Hin Hpw unauthenticated forbidden.
  assert (forall u1 st1, UserRepository.flush_row u1 st1 = Ok (tt, set_users st1
            (map (replace_user u1) (users st1)))) as Hflush by reflexivity.
  split; [|split; [|split; [|split; [|split]]]].
  - set (deleted := mkUser (user_id u) (user_email u) (user_hashed_password u) false
                           (user_is_blocked u) (Some deleted_at)).
    destruct (flush_row_user st u deleted Hids Hmails Hin eq_refl eq_refl)
      as (st1 & E1 & Hids1 & Hmails1 & Hin1).
    exists deleted, st1. split.
    { unfold UserRepository.soft_delete, bind. fold deleted. rewrite E1. reflexivity. }
    split.
    { change (user_email u) with (user_email deleted).
      rewrite authenticate_known by assumption. reflexivity. }
    set (restored := mkUser (user_id u) (user_email u) (user_hashed_password u) true
                            (user_is_blocked u) None).
    destruct (flush_row_user st1 deleted restored Hids1 Hmails1 Hin1 eq_refl eq_refl)
      as (st2 & E2 & Hids2 & Hmails2 & Hin2).
    exists restored, st2. split.
    { unfold UserRepository.restore, bind.
      change (UserRepository.flush_row _ st1) with (UserRepository.flush_row restored st1).
      rewrite E2. reflexivity. }
    intros Hnb. change (user_email u) with (user_email restored).
    rewrite authenticate_known by assumption. simpl. rewrite Hpw, Hnb. reflexivity.
  - intros Hact.
    set (blocked := mkUser (user_id u) (user_email u) (user_hashed_password u)
                           (user_is_active u) true (user_deleted_at u)).
    destruct (flush_row_user st u blocked Hids Hmails Hin eq_refl eq_refl)
      as (st1 & E1 & Hids1 & Hmails1 & Hin1).
    exists blocked, st1. split.
    { unfold UserRepository.set_block_status, bind. fold blocked. rewrite E1. reflexivity. }
    split.
    { change (user_email u) with (user_email blocked).
      rewrite authenticate_known by assumption. simpl. rewrite Hact, Hpw. reflexivity. }
    set (unblocked := mkUser (user_id u) (user_email u) (user_hashed_password u)
                             (user_is_active u) false (user_deleted_at u)).
    destruct (flush_row_user st1 blocked unblocked Hids1 Hmails1 Hin1 eq_refl eq_refl)
      as (st2 & E2 & Hids2 & Hmails2 & Hin2).
    exists unblocked, st2. split.
    { unfold UserRepository.set_block_status, bind.
      change (UserRepository.flush_row _ st1) with (UserRepository.flush_row unblocked st1).
      rewrite E2. reflexivity. }
    change (user_email u) with (user_email unblocked).
    rewrite authenticate_known by assumption. simpl. rewrite Hact, Hpw. reflexivity.
  - intros Hdel. rewrite authenticate_known by assumption.
    destruct (user_deleted_at u); [reflexivity | congruence].
  - intros Hact Hb. rewrite authenticate_known by assumption.
    rewrite Hact, Hpw, Hb. reflexivity.
  - intros email pw Hno. unfold AuthService.authenticate, bind.
    rewrite get_by_email_unknown by assumption. reflexivity.
  - intros pw Hwrong. rewrite authenticate_known by assumption.
    rewrite Hwrong. destruct (is_None (user_deleted_at u)); reflexivity.
Qed.

(** ** Bootstrap *)

(** C8. On empty storage the seed returns a store with exactly one role,
    active, named "admin" and flagged superuser, linked to exactly the
    fifteen baseline privileges, which are listed here pair by pair, all
    active and no two alike, and exactly one user, active, whose only role
    is that one; run again on that store, the seed returns it unchanged. *)
Theorem seed_bootstraps_once `{Security} :
  exists (seeded : Store) (admin_role : RoleORM) (admin_user : UserORM),
    Seeds.seed_initial_data empty_store = Ok (tt, seeded)
    /\ roles seeded = [admin_role]
    /\ active_super_roles seeded = [admin_role]
    /\ role_name admin_role = "admin"
    /\ map privilege_key (privileges seeded)
       = [ ("users", "read"); ("users", "insert"); ("users", "update");
           ("users", "delete"); ("users", "block"); ("users", "unblock");
           ("users", "reset_password");
           ("roles", "read"); ("roles", "insert"); ("roles", "update");
           ("roles", "delete");
           ("privileges", "read"); ("privileges", "insert"); ("privileges", "update");
           ("privileges", "delete") ]
    /\ List.NoDup (map privilege_key (privileges seeded))
    /\ List.NoDup (map privilege_id (privileges seeded))
    /\ UserRepository.loaded_privileges seeded (role_id admin_role) = privileges seeded
    /\ Forall (fun p => privilege_deleted_at p = None) (privileges seeded)
    /\ users seeded = [admin_user]
    /\ user_deleted_at admin_user = None /\ user_is_active admin_user = true
    /\ UserRepository.loaded_roles seeded (user_id admin_user) = [admin_role]
    /\ Seeds.seed_initial_data seeded = Ok (tt, seeded).
Proof.
  eexists _, (mkRole 1 "admin" true None),
          (mkUser 1 "admin@example.com" (get_password_hash "ChangeMe123!") true false None).
  split; [vm_compute; reflexivity|].
  split; [vm_compute; reflexivity|]. split; [vm_compute; reflexivity|].
  split; [reflexivity|]. split; [vm_compute; reflexivity|].
  split.
  { vm_compute map.
    repeat (constructor; [cbn [In]; intuition discriminate|]). constructor. }
  split.
  { vm_compute map.
    repeat (constructor; [cbn [In]; intuition discriminate|]). constructor. }
  repeat (split; [vm_compute; try reflexivity; repeat constructor|]).
  vm_compute. reflexivity.
Qed.

(** ** The cache backend *)

Ltac unfold_cache :=
  unfold DragonflyCache.set, DragonflyCache.get, DragonflyCache.delete,
    DragonflyCache._get_client, DragonflyCache.from_url_ping,
    DragonflyCache.redis_set, DragonflyCache.redis_get,
    DragonflyCache.redis_delete, DragonflyCache.in_fallback,
    AsyncTTLCache.set, AsyncTTLCache.get, AsyncTTLCache.delete, AsyncTTLCache.pop, ttl_or;
  unfold_monad.

(** No first ping returns, so a cache without a client stays without one
    and answers from its in-process part, whether the server is reachable
    or not. *)
Lemma get_client_without_client (env : Env) (c : DragonflyCache.t) :
  DragonflyCache._client c = false ->
  DragonflyCache._get_client env c = Ok (false, c).
Proof.
  destruct c as [ttl0 client fb srv]. simpl. intros ->.
  unfold DragonflyCache._get_client, DragonflyCache.from_url_ping. simpl.
  destruct (redis_up env); reflexivity.
Qed.

Lemma cache_get_fallback (env : Env) (key : string) (c : DragonflyCache.t) :
  DragonflyCache._client c = false ->
  DragonflyCache.get env key c
  = match AsyncTTLCache.get key (now env) (DragonflyCache._fallback c) with
    | Ok (v, f) => Ok (v, with_fallback c f)
    | Raise e => Raise e
    end.
Proof.
  intros Hc. unfold DragonflyCache.get, bind. rewrite get_client_without_client by assumption.
  reflexivity.
Qed.

Lemma cache_set_fallback (env : Env) (key : string) (value : CacheValue) (ttl : option Z)
      (c : DragonflyCache.t) :
  DragonflyCache._client c = false ->
  DragonflyCache.set env key value ttl c
  = match AsyncTTLCache.set key value (Some (ttl_or ttl (DragonflyCache.ttl_seconds c)))
            (now env) (DragonflyCache._fallback c) with
    | Ok (a, f) => Ok (a, with_fallback c f)
    | Raise e => Raise e
    end.
Proof.
  intros Hc. unfold DragonflyCache.set, bind. rewrite get_client_without_client by assumption.
  reflexivity.
Qed.

Lemma cache_delete_fallback (env : Env) (key : string) (c : DragonflyCache.t) :
  DragonflyCache._client c = false ->
  DragonflyCache.delete env key c
  = match AsyncTTLCache.delete key (DragonflyCache._fallback c) with
    | Ok (a, f) => Ok (a, with_fallback c f)
    | Raise e => Raise e
    end.
Proof.
  intros Hc. unfold DragonflyCache.delete, bind.
  rewrite get_client_without_client by assumption. reflexivity.
Qed.

(** A read returns, brings nothing into the cache and touches no other
    key; it leaves the cache as it is when the key has not expired. *)
Lemma cache_get_effect (env : Env) (key : string) (c : DragonflyCache.t) :
  DragonflyCache._client c = false ->
  exists v c',
    DragonflyCache.get env key c = Ok (v, c')
    /\ DragonflyCache._client c' = false
    /\ (forall k x, stored c' k = Some x -> stored c k = Some x)
    /\ (forall k, k <> key -> stored c' k = stored c k /\ expiration c' k = expiration c k)
    /\ (forall x, v = Some x -> stored c key = Some x)
    /\ (forall e, expiration c key = Some e -> e <> 0 -> now env <= e ->
                  c' = c /\ v = stored c key)
    /\ ((forall e, expiration c key = Some e -> e = 0 \/ e < now env) -> v = None).
Proof.
  intros Hc. rewrite cache_get_fallback by assumption.
  destruct c as [ttl0 client fb srv]. simpl in Hc. subst client.
  unfold stored, expiration, with_fallback, AsyncTTLCache.get, AsyncTTLCache.pop. simpl.
  destruct (AsyncTTLCache._expirations fb !! key) as [e|] eqn:Ee.
  - destruct ((e =? 0) || (e <? now env)) eqn:Eexp.
    + do 2 eexists. split; [reflexivity|]. simpl. split; [reflexivity|].
      split; [|split; [|split; [|split]]].
      * intros k x Hk. destruct (String.eqb_spec k key) as [->|Hne].
        -- now rewrite lookup_delete_eq in Hk.
        -- now rewrite lookup_delete_ne in Hk by congruence.
      * intros k Hne. now rewrite !lookup_delete_ne by congruence.
      * discriminate.
      * intros e' He' Hz Hle. inversion He'; subst e'.
        apply orb_true_iff in Eexp as [E0|El]; lia.
      * reflexivity.
    + do 2 eexists. split; [reflexivity|]. simpl. split; [reflexivity|].
      split; [auto|]. split; [auto|]. split; [auto|]. split.
      * intros e' _ _ _. destruct fb; auto.
      * intros Hall. apply orb_false_iff in Eexp as [E0 El].
        destruct (Hall e eq_refl); lia.
  - do 2 eexists. split; [reflexivity|]. simpl. split; [reflexivity|].
    split; [|split; [|split; [|split]]].
    + intros k x Hk. destruct (String.eqb_spec k key) as [->|Hne].
      * now rewrite lookup_delete_eq in Hk.
      * now rewrite lookup_delete_ne in Hk by congruence.
    + intros k Hne. now rewrite !lookup_delete_ne by congruence.
    + discriminate.
    + discriminate.
    + reflexivity.
Qed.

(** A write returns and touches its key only. *)
Lemma cache_set_effect (env : Env) (key : string) (value : CacheValue) (ttl : option Z)
      (c : DragonflyCache.t) :
  DragonflyCache._client c = false ->
  exists c',
    DragonflyCache.set env key value ttl c = Ok (tt, c')
    /\ DragonflyCache._client c' = false
    /\ stored c' key = Some value
    /\ expiration c' key
       = Some (now env + ttl_or (Some (ttl_or ttl (DragonflyCache.ttl_seconds c)))
                                (AsyncTTLCache.ttl_seconds (DragonflyCache._fallback c)))
    /\ (forall k, k <> key -> stored c' k = stored c k /\ expiration c' k = expiration c k).
Proof.
  intros Hc. rewrite cache_set_fallback by assumption.
  destruct c as [ttl0 client fb srv]. simpl in Hc. subst client.
  unfold stored, expiration, with_fallback, AsyncTTLCache.set. simpl.
  eexists. split; [reflexivity|]. simpl. split; [reflexivity|].
  rewrite !lookup_insert_eq. split; [reflexivity|]. split; [reflexivity|].
  intros k Hne. now rewrite !lookup_insert_ne by congruence.
Qed.

(** A deletion returns, removes its key and touches no other. *)
Lemma cache_delete_effect (env : Env) (key : string) (c : DragonflyCache.t) :
  DragonflyCache._client c = false ->
  exists c',
    DragonflyCache.delete env key c = Ok (tt, c')
    /\ DragonflyCache._client c' = false
    /\ stored c' key = None /\ expiration c' key = None
    /\ (forall k, k <> key -> stored c' k = stored c k /\ expiration c' k = expiration c k).
Proof.
  intros Hc. rewrite cache_delete_fallback by assumption.
  destruct c as [ttl0 client fb srv]. simpl in Hc. subst client.
  unfold stored, expiration, with_fallback, AsyncTTLCache.delete, AsyncTTLCache.pop. simpl.
  eexists. split; [reflexivity|]. simpl. split; [reflexivity|].
  rewrite !lookup_delete_eq. split; [reflexivity|]. split; [reflexivity|].
  intros k Hne. now rewrite !lookup_delete_ne by congruence.
Qed.


(** ** Token revocation *)

Section Revocation.
Context `{Security}.
Variable int_of_str : string -> option Z.



End Revocation.

(** ** Authenticated requests of a blocked user *)

Lemma cache_get_reaches (env : Env) (c c1 : DragonflyCache.t) (key : string)
      (v : option CacheValue) :
  DragonflyCache.get env key c = Ok (v, c1) ->
  client_reaches_server env c1
  /\ DragonflyCache.ttl_seconds c1 = DragonflyCache.ttl_seconds c.
Proof.
  unfold client_reaches_server. destruct c as [ttl0 client fb srv]. unfold_cache. simpl.
  destruct client; simpl.
  - destruct (redis_up env); simpl; [|discriminate].
    destruct (srv !! key) as [[v' e]|]; [destruct (now env <? e)|];
      intros E; inversion E; subst; simpl; auto.
  - destruct (redis_up env) eqn:Eup; simpl;
      (destruct (AsyncTTLCache._expirations fb !! key) as [e|];
       [destruct ((e =? 0) || (e <? now env))|]);
      intros E; inversion E; subst; simpl; split; auto; discriminate.
Qed.

Lemma cache_get_total (env : Env) (c : DragonflyCache.t) (key : string) :
  client_reaches_server env c ->
  exists v c1, DragonflyCache.get env key c = Ok (v, c1).
Proof.
  unfold client_reaches_server. destruct c as [ttl0 client fb srv]. simpl. intros Hreach.
  destruct client.
  - unfold_cache. simpl. rewrite (Hreach eq_refl). simpl.
    destruct (srv !! key) as [[v' e]|]; [destruct (now env <? e)|]; eauto.
  - destruct (cache_get_effect env key (DragonflyCache.mk ttl0 false fb srv) eq_refl)
      as (v & c1 & E & _). eauto.
Qed.

Lemma cache_set_default_total (env : Env) (c : DragonflyCache.t) (key : string)
      (value : CacheValue) :
  client_reaches_server env c -> 0 < DragonflyCache.ttl_seconds c ->
  exists c1, DragonflyCache.set env key value None c = Ok (tt, c1).
Proof.
  unfold client_reaches_server. destruct c as [ttl0 client fb srv]. simpl.
  intros Hreach Hpos. assert ((ttl0 <=? 0) = false) as Et by (apply Z.leb_gt; lia).
  destruct client.
  - unfold_cache. simpl. rewrite (Hreach eq_refl). simpl. rewrite Et. eauto.
  - destruct (cache_set_effect env key value None (DragonflyCache.mk ttl0 false fb srv)
                eq_refl) as (c1 & E & _). eauto.
Qed.

Lemma cache_get_client (env : Env) (c c1 : DragonflyCache.t) (key : string)
      (v : option CacheValue) :
  DragonflyCache.get env key c = Ok (v, c1) ->
  DragonflyCache._client c1 = DragonflyCache._client c.
Proof.
  destruct c as [ttl0 client fb srv]. destruct client.
  - unfold_cache. simpl. destruct (redis_up env); simpl; [|discriminate].
    destruct (srv !! key) as [[v' e]|]; [destruct (now env <? e)|];
      intros E; inversion E; subst; reflexivity.
  - intros Hget.
    destruct (cache_get_effect env key (DragonflyCache.mk ttl0 false fb srv) eq_refl)
      as (v2 & c2 & E & Hc & _).
    rewrite E in Hget. injection Hget as _ <-. exact Hc.
Qed.

Lemma client_reaches_server_up (env env' : Env) (c : DragonflyCache.t) :
  redis_up env' = redis_up env -> client_reaches_server env c ->
  client_reaches_server env' c.
Proof. unfold client_reaches_server. intros ->. auto. Qed.

Lemma get_by_id_unique (st : Store) (u : UserORM) :
  user_ids_unique st -> In u (users st) ->
  UserRepository.get_by_id (user_id u) st
  = Ok (if is_None (user_deleted_at u) then Some u else None, st).
Proof.
  intros Huq Hin. unfold UserRepository.get_by_id. unfold_monad.
  rewrite (filter_unique_key user_id _ (users st) u Huq Hin).
  - rewrite Z.eqb_refl. simpl. destruct (is_None (user_deleted_at u)); reflexivity.
  - intros x _ Hx. apply andb_true_iff in Hx as [Hx _]. now apply Z.eqb_eq in Hx.
Qed.


(** ** Cache invalidation in [UserService] *)

(** C10. A user is read by email, which caches the row under
    "user:email:old@example.com"; [update_user] then changes the email and
    deletes the entries under the new email and the id, not the one under
    the old email; a following [get_by_email "old@example.com"] returns the
    cached copy, while the store holds no user with that email. *)
Theorem update_user_leaves_old_email_entry :
  exists w1 w2 w3 u u' stale,
    UserService.get_by_email renamed_user_env "old@example.com" renamed_user_world
    = Ok (Some (ORMUser u), w1)
    /\ UserService.update_user renamed_user_env 1 (Some "new@example.com") None w1
       = Ok (u', w2)
    /\ user_email u' = "new@example.com"
    /\ UserRepository.get_by_email "old@example.com" (db w2) = Ok (None, db w2)
    /\ UserService.get_by_email renamed_user_env "old@example.com" w2
       = Ok (Some (Namespace stale), w3)
    /\ ud_email stale = "old@example.com".
Proof.
  do 6 eexists. split; [vm_compute; reflexivity|].
  split; [vm_compute; reflexivity|].
  split; [reflexivity|]. split; [vm_compute; reflexivity|].
  split; [vm_compute; reflexivity|]. reflexivity.
Qed.

(** What the invalidation does achieve: the entries under the email and
    the id of the user object it is given are gone. *)


Lemma delete_then_absent (env env' : Env) (c c1 : DragonflyCache.t) (key : string) :
  DragonflyCache.delete env key c = Ok (tt, c1) ->
  redis_up env' = redis_up env ->
  cached_at env' c1 key = None.
Proof.
  destruct c as [ttl0 client fb srv]. unfold cached_at. unfold_cache. simpl.
  intros Hdel Hup. rewrite Hup.
  destruct client; simpl in *.
  - destruct (redis_up env); simpl in *; [|discriminate].
    inversion Hdel; subst; simpl. now rewrite lookup_delete_eq.
  - destruct (redis_up env) eqn:Eup; simpl in *.
    + inversion Hdel; subst; simpl. now rewrite lookup_delete_eq.
    + inversion Hdel; subst; simpl. now rewrite lookup_delete_eq.
Qed.

Lemma delete_keeps_absent (env env' : Env) (c c1 : DragonflyCache.t) (key key2 : string) :
  DragonflyCache.delete env key2 c = Ok (tt, c1) ->
  redis_up env' = redis_up env ->
  cached_at env' c key = None ->
  cached_at env' c1 key = None.
Proof.
  intros Hdel Hup. destruct (String.eqb key key2) eqn:Ek.
  { apply String.eqb_eq in Ek. subst key2. intros _.
    now apply (delete_then_absent env env' c c1). }
  apply String.eqb_neq in Ek. revert Hdel.
  destruct c as [ttl0 client fb srv]. unfold cached_at. unfold_cache. simpl.
  rewrite Hup.
  destruct client; simpl;
    [destruct (redis_up env); simpl; [|discriminate] | destruct (redis_up env); simpl];
    intros Hdel; inversion Hdel; subst; simpl;
    rewrite ?lookup_delete_ne by congruence.
  - destruct (srv !! key) as [[v e]|]; [destruct (now env' <? e)|]; simpl; auto.
  - destruct (AsyncTTLCache._expirations fb !! key) as [e|]; [|reflexivity].
    destruct ((e =? 0) || (e <? now env')); simpl; auto.
  - destruct (AsyncTTLCache._expirations fb !! key) as [e|]; [|reflexivity].
    destruct ((e =? 0) || (e <? now env')); simpl; auto.
Qed.

Lemma invalidate_cache_removes_keys (env env' : Env) (user : UserORM) (w w' : World) :
  UserService._invalidate_cache env (Some user) w = Ok (tt, w') ->
  redis_up env' = redis_up env ->
  db w' = db w
  /\ cached_at env' (cache w') (UserService.email_key (user_email user)) = None
  /\ (user_id user <> 0 ->
      cached_at env' (cache w') (UserService.id_key (user_id user)) = None).
Proof.
  unfold UserService._invalidate_cache. unfold bind, in_cache. intros Hinv Hup.
  destruct (DragonflyCache.delete env (UserService.email_key (user_email user)) (cache w))
    as [[[] c1]|e] eqn:E1; [|discriminate].
  pose proof (delete_then_absent env env' _ _ _ E1 Hup) as Habs1.
  unfold truthy_int in Hinv. destruct (user_id user =? 0) eqn:Ez; simpl in Hinv.
  - unfold ret in Hinv. inversion Hinv; subst; simpl.
    repeat split; auto. apply Z.eqb_eq in Ez. congruence.
  - destruct (DragonflyCache.delete env (UserService.id_key (user_id user)) c1)
      as [[[] c2]|e] eqn:E2; [|discriminate].
    inversion Hinv; subst; simpl. repeat split.
    + now apply (delete_keeps_absent env env' c1 c2 _ _ E2 Hup).
    + intros _. now apply (delete_then_absent env env' _ _ _ E2 Hup).
Qed.

Lemma in_db_Ok {A} (m : M A) (w w' : World) (a : A) :
  in_db m w = Ok (a, w') ->
  exists st', m (db w) = Ok (a, st') /\ w' = mkWorld st' (cache w).
Proof.
  unfold in_db. destruct (m (db w)) as [[a' st']|e]; [|discriminate].
  intros E; inversion E; subst. eauto.
Qed.

Lemma require_user_id (i : Z) (incl : bool) (st st' : Store) (user : UserORM) :
  UserService._require_user i incl st = Ok (user, st') -> user_id user = i.
Proof.
  unfold UserService._require_user, UserRepository.get_by_id_include_deleted,
    UserRepository.get_by_id. unfold bind at 1.
  destruct incl; unfold_monad.
  - destruct (scalar_one_or_none _) as [[u|]|e] eqn:E; try discriminate.
    apply scalar_one_or_none_Some in E.
    assert (In u (List.filter (fun u => user_id u =? i) (users st))) as Hin
        by (rewrite E; now left).
    apply List.filter_In in Hin as [_ Hid]. apply Z.eqb_eq in Hid.
    simpl. intros Hr; inversion Hr; subst. reflexivity.
  - destruct (scalar_one_or_none _) as [[u|]|e] eqn:E; try discriminate.
    apply scalar_one_or_none_Some in E.
    assert (In u (List.filter (fun u => (user_id u =? i)
                                        && is_None (user_deleted_at u)) (users st)))
      as Hin by (rewrite E; now left).
    apply List.filter_In in Hin as [_ Hid]. apply andb_true_iff in Hid as [Hid _].
    apply Z.eqb_eq in Hid. simpl.
    destruct (negb (is_None (user_deleted_at u))); intros Hr; inversion Hr; subst.
    reflexivity.
Qed.

(** Destructs the first call of a sequence that returned. *)
Tactic Notation "first_call" hyp(H) "as" ident(a) ident(s) ident(E) :=
  unfold bind at 1 in H;
  match type of H with
  | match ?m ?w with _ => _ end = _ =>
      destruct (m w) as [[a s]|?] eqn:E; [|discriminate H]
  end.

Lemma for_each_preserves {S A B} (proj : S -> B) (xs : list A) (body : A -> ST S unit) :
  (forall x s t s', body x s = Ok (t, s') -> proj s' = proj s) ->
  forall s s', for_each xs body s = Ok (tt, s') -> proj s' = proj s.
Proof.
  intros Hbody. induction xs as [|x xs IH]; intros s s' Hrun.
  - simpl in Hrun. unfold ret in Hrun. now injection Hrun as <-.
  - cbn [for_each] in Hrun. unfold bind in Hrun.
    destruct (body x s) as [[t s1]|] eqn:E; [|discriminate].
    rewrite (IH _ _ Hrun). eapply Hbody; eauto.
Qed.

Lemma insert_user_role_keeps (uid rid : Z) (st st' : Store) (t : unit) :
  UserRepository.insert_user_role uid rid st = Ok (t, st') ->
  privileges st' = privileges st /\ roles st' = roles st /\ users st' = users st.
Proof.
  unfold UserRepository.insert_user_role. unfold_monad.
  destruct (existsb _ (user_roles st)); [discriminate|].
  intros E. injection E as _ <-. auto.
Qed.

(** Binding the parameters of a statement changes nothing. *)
Lemma bind_params_Ok {S} (params : list Z) (s s' : S) (t : unit) :
  bind_params params s = Ok (t, s') -> s' = s /\ forallb in_int64 params = true.
Proof.
  unfold bind_params. destruct (forallb in_int64 params); [|discriminate].
  unfold ret. intros E. injection E as _ <-. auto.
Qed.

Lemma bind_params_in_range {S} (params : list Z) (s : S) :
  forallb in_int64 params = true -> bind_params params s = Ok (tt, s).
Proof. unfold bind_params. now intros ->. Qed.

Lemma bind_params_out_of_range {S} (params : list Z) (s : S) :
  forallb in_int64 params = false -> bind_params params s = Raise OverflowError.
Proof. unfold bind_params. now intros ->. Qed.

Section Invalidation.
Context `{Security}.

Lemma create_user_Ok (email password : string) (blocked : bool) (role_ids : option (list Z))
      (st st' : Store) (user : UserORM) :
  UserRepository.create_user email password blocked role_ids st = Ok (user, st') ->
  users st' = (users st ++ [user])%list
  /\ user_email user = email /\ user_deleted_at user = None
  /\ (forall x, In x (users st) -> user_email x <> email)
  /\ roles st' = roles st /\ privileges st' = privileges st
  /\ user_id user = next_id (map user_id (users st))
  /\ user_is_blocked user = blocked.
Proof using Type.
  unfold UserRepository.create_user. unfold bind at 1.
  match goal with
  | |- match ?sel st with _ => _ end = _ -> _ =>
      assert (forall rs st1, sel st = Ok (rs, st1) -> st1 = st) as Hsel;
        [|destruct (sel st) as [[rs st1]|] eqn:Esel; [|discriminate]]
  end.
  { intros rs st1. destruct role_ids as [[|i ids]|].
    - unfold ret. intros E. now injection E as _ <-.
    - unfold bind at 1. destruct (bind_params (i :: ids) st) as [[[] s1]|] eqn:Eb;
        [|discriminate].
      apply bind_params_Ok in Eb as [-> _]. unfold_monad. intros E. now injection E as _ <-.
    - unfold ret. intros E. now injection E as _ <-. }
  specialize (Hsel _ _ eq_refl). subst st1. unfold bind at 1. unfold get_store at 1.
  destruct (existsb _ (users st)) eqn:Ex; [discriminate|].
  unfold bind at 1. unfold put_store at 1. unfold bind at 1.
  destruct (for_each _ _ _) as [[[] st2]|] eqn:Eloop; [|discriminate].
  unfold ret. intros E. injection E as <- <-.
  pose proof (for_each_preserves users _ _
                (fun x s t s' E => proj2 (proj2 (insert_user_role_keeps _ _ _ _ _ E)))
                _ _ Eloop) as Hu.
  pose proof (for_each_preserves roles _ _
                (fun x s t s' E => proj1 (proj2 (insert_user_role_keeps _ _ _ _ _ E)))
                _ _ Eloop) as Hr.
  pose proof (for_each_preserves privileges _ _
                (fun x s t s' E => proj1 (insert_user_role_keeps _ _ _ _ _ E))
                _ _ Eloop) as Hp.
  cbn [users roles privileges set_users] in Hu, Hr, Hp.
  repeat split; auto.
  intros x Hx Heq.
  assert (existsb (fun u => String.eqb (user_email u) email) (users st) = true);
    [|congruence].
  apply existsb_exists. exists x. split; [exact Hx|]. now apply String.eqb_eq.
Qed.

Lemma update_user_id (user updated : UserORM) (email : option string)
      (role_ids : option (list Z)) (st st' : Store) :
  UserRepository.update_user user email role_ids st = Ok (updated, st') ->
  user_id updated = user_id user.
Proof using Type.
  unfold UserRepository.update_user. intros Hu.
  first_call Hu as u1 st1 E1. first_call Hu as x st2 E2.
  unfold ret in Hu. inversion Hu; subst. clear Hu E2.
  destruct (truthy_opt_str email).
  - first_call E1 as y st3 E3. unfold ret in E1. inversion E1; subst. reflexivity.
  - unfold ret in E1. inversion E1; subst. reflexivity.
Qed.

Lemma get_by_id_not_cached (env : Env) (i : Z) (w : World) :
  cached_at env (cache w) (UserService.id_key i) = None ->
  forall d w', UserService.get_by_id env i w <> Ok (Some (Namespace d), w').
Proof using Type.
  intros Habs d w' Hget. unfold UserService.get_by_id in Hget.
  unfold bind at 1 in Hget. unfold in_cache at 1 in Hget. unfold cached_at in Habs.
  destruct (DragonflyCache.get env (UserService.id_key i) (cache w))
    as [[v c']|e]; [|discriminate]. subst v. simpl in Hget.
  first_call Hget as o w1 E1. destruct o as [u|].
  - first_call Hget as x w2 E2. unfold ret in Hget. discriminate.
  - unfold ret in Hget. discriminate.
Qed.

(** The user object a mutating operation hands to [_invalidate_cache]
    carries the id the operation acts on, and nothing touches the cache
    afterwards.  A [restore_user] of a user that is not deleted returns
    before any change. *)
Lemma mutation_ends_with_invalidation (env : Env) (op : UserOp) (w w' : World) :
  perform env op w = Ok (tt, w') ->
  w' = w
  \/ exists user w0 w1,
      UserService._invalidate_cache env (Some user) w0 = Ok (tt, w1)
      /\ user_id user = subject op w /\ cache w' = cache w1.
Proof using Type.
  intros Hop.
  destruct op as [e p r|i e r|i|i|i p|i hard|i|i r|i r]; simpl in Hop.
  - (* create_user *)
    first_call Hop as res w3 Eop. unfold ret in Hop. inversion Hop; subst w3. clear Hop.
    unfold UserService.create_user in Eop.
    first_call Eop as user w1 Ecreate. apply in_db_Ok in Ecreate as (st1 & Ecreate & ->).
    first_call Eop as x w2 Einv. destruct x. right. exists user. eexists. exists w2.
    split; [exact Einv|]. split.
    + apply create_user_Ok in Ecreate. simpl. tauto.
    + destruct (truthy_int (user_id user)).
      * apply in_db_Ok in Eop as (st2 & _ & ->). reflexivity.
      * unfold ret in Eop. inversion Eop; subst. reflexivity.
  - (* update_user *)
    first_call Hop as res w3 Eop. unfold ret in Hop. inversion Hop; subst w3. clear Hop.
    unfold UserService.update_user in Eop.
    first_call Eop as user w1 Ereq. apply in_db_Ok in Ereq as (st1 & Ereq & ->).
    first_call Eop as updated w2 Eupd. apply in_db_Ok in Eupd as (st2 & Eupd & ->).
    first_call Eop as x w3 Einv. destruct x. right. exists updated. eexists. exists w3.
    split; [exact Einv|]. split.
    + simpl. apply update_user_id in Eupd. apply require_user_id in Ereq. congruence.
    + unfold ret in Eop. inversion Eop; subst. reflexivity.
  - (* block_user *)
    first_call Hop as res w3 Eop. unfold ret in Hop. inversion Hop; subst w3. clear Hop.
    unfold UserService.block_user in Eop.
    first_call Eop as user w1 Ereq. apply in_db_Ok in Ereq as (st1 & Ereq & ->).
    first_call Eop as updated w2 Eupd. apply in_db_Ok in Eupd as (st2 & Eupd & ->).
    first_call Eop as x w3 Einv. destruct x. right. exists updated. eexists. exists w3.
    split; [exact Einv|]. split.
    + unfold UserRepository.set_block_status in Eupd. unfold_monad.
      inversion Eupd; subst. simpl. now apply require_user_id in Ereq.
    + unfold ret in Eop. inversion Eop; subst. reflexivity.
  - (* unblock_user *)
    first_call Hop as res w3 Eop. unfold ret in Hop. inversion Hop; subst w3. clear Hop.
    unfold UserService.unblock_user in Eop.
    first_call Eop as user w1 Ereq. apply in_db_Ok in Ereq as (st1 & Ereq & ->).
    first_call Eop as updated w2 Eupd. apply in_db_Ok in Eupd as (st2 & Eupd & ->).
    first_call Eop as x w3 Einv. destruct x. right. exists updated. eexists. exists w3.
    split; [exact Einv|]. split.
    + unfold UserRepository.set_block_status in Eupd. unfold_monad.
      inversion Eupd; subst. simpl. now apply require_user_id in Ereq.
    + unfold ret in Eop. inversion Eop; subst. reflexivity.
  - (* reset_password *)
    first_call Hop as res w3 Eop. unfold ret in Hop. inversion Hop; subst w3. clear Hop.
    unfold UserService.reset_password in Eop.
    first_call Eop as user w1 Ereq. apply in_db_Ok in Ereq as (st1 & Ereq & ->).
    first_call Eop as updated w2 Eupd. apply in_db_Ok in Eupd as (st2 & Eupd & ->).
    first_call Eop as x w3 Einv. destruct x. right. exists updated. eexists. exists w3.
    split; [exact Einv|]. split.
    + unfold UserRepository.reset_password in Eupd. unfold_monad.
      inversion Eupd; subst. simpl. now apply require_user_id in Ereq.
    + unfold ret in Eop. inversion Eop; subst. reflexivity.
  - (* delete_user *)
    unfold UserService.delete_user in Hop.
    first_call Hop as user w1 Ereq. apply in_db_Ok in Ereq as (st1 & Ereq & ->).
    first_call Hop as deleted w2 Edel. right. exists deleted, w2, w'.
    split; [exact Hop|]. split; [|reflexivity].
    apply require_user_id in Ereq. destruct hard.
    + first_call Edel as x w3 Eh. unfold ret in Edel. inversion Edel; subst. reflexivity.
    + apply in_db_Ok in Edel as (st2 & Edel & ->).
      unfold UserRepository.soft_delete in Edel. unfold_monad.
      inversion Edel; subst. reflexivity.
  - (* restore_user *)
    first_call Hop as res w3 Eop. unfold ret in Hop. inversion Hop; subst w3. clear Hop.
    unfold UserService.restore_user in Eop.
    first_call Eop as user w1 Ereq. apply in_db_Ok in Ereq as (st1 & Ereq & ->).
    destruct (user_deleted_at user).
    + first_call Eop as restored w2 Eres. apply in_db_Ok in Eres as (st2 & Eres & ->).
      first_call Eop as x w3 Einv. destruct x. right. exists restored. eexists. exists w3.
      split; [exact Einv|]. split.
      * unfold UserRepository.restore in Eres. unfold_monad.
        inversion Eres; subst. simpl. now apply require_user_id in Ereq.
      * unfold ret in Eop. inversion Eop; subst. reflexivity.
    + left. unfold ret in Eop. inversion Eop; subst.
      assert (st1 = db w) as ->; [|destruct w; reflexivity].
      revert Ereq. unfold UserService._require_user,
        UserRepository.get_by_id_include_deleted. unfold_monad.
      destruct (scalar_one_or_none _) as [[?|]|?]; simpl; try discriminate.
      intros E; inversion E; reflexivity.
  - (* assign_roles *)
    first_call Hop as res w3 Eop. unfold ret in Hop. inversion Hop; subst w3. clear Hop.
    unfold UserService.assign_roles in Eop.
    first_call Eop as user w1 Ereq. apply in_db_Ok in Ereq as (st1 & Ereq & ->).
    first_call Eop as y w2 Eatt. apply in_db_Ok in Eatt as (st2 & _ & ->).
    first_call Eop as x w3 Einv. destruct x. right. exists user. eexists. exists w3.
    split; [exact Einv|]. split.
    + now apply require_user_id in Ereq.
    + apply in_db_Ok in Eop as (st3 & _ & ->). reflexivity.
  - (* remove_roles *)
    first_call Hop as res w3 Eop. unfold ret in Hop. inversion Hop; subst w3. clear Hop.
    unfold UserService.remove_roles in Eop.
    first_call Eop as user w1 Ereq. apply in_db_Ok in Ereq as (st1 & Ereq & ->).
    first_call Eop as y w2 Edet. apply in_db_Ok in Edet as (st2 & _ & ->).
    first_call Eop as x w3 Einv. destruct x. right. exists user. eexists. exists w3.
    split; [exact Einv|]. split.
    + now apply require_user_id in Ereq.
    + apply in_db_Ok in Eop as (st3 & _ & ->). reflexivity.
Qed.

(** After a mutating operation of [UserService] has returned, the cache
    holds no entry under the id of the user it acted on, so that a
    following [get_by_id] does not answer with a cached copy. *)
Lemma mutation_invalidates_id_key (env env' : Env) (op : UserOp) (w w' : World) :
  perform env op w = Ok (tt, w') ->
  redis_up env' = redis_up env ->
  subject op w <> 0 ->
  w' = w
  \/ (cached_at env' (cache w') (UserService.id_key (subject op w)) = None
      /\ forall d w'',
          UserService.get_by_id env' (subject op w) w' <> Ok (Some (Namespace d), w'')).
Proof using Type.
  intros Hop Hup Hid.
  destruct (mutation_ends_with_invalidation env op w w' Hop)
    as [->|(user & w0 & w1 & Hinv & Hsame & Hcache)]; [now left | right].
  destruct (invalidate_cache_removes_keys env env' user w0 w1 Hinv Hup) as (_ & _ & Hk).
  rewrite Hsame in Hk. specialize (Hk Hid). rewrite <- Hcache in Hk.
  split; [assumption|]. now apply get_by_id_not_cached.
Qed.

End Invalidation.

(** ** Listing queries: ordering, windows and pages *)

Lemma insert_sorted_Permutation {A} (le : A -> A -> bool) (x : A) (l : list A) :
  Permutation (insert_sorted le x l) (x :: l).
Proof.
  induction l as [|y l IH]; simpl; [reflexivity|].
  destruct (le x y); [reflexivity|].
  rewrite IH. apply perm_swap.
Qed.

Lemma order_by_Permutation {A} (le : A -> A -> bool) (l : list A) :
  Permutation (order_by le l) l.
Proof.
  induction l as [|x l IH]; simpl; [reflexivity|].
  rewrite insert_sorted_Permutation. now constructor.
Qed.

Lemma order_by_In {A} (le : A -> A -> bool) (l : list A) (x : A) :
  In x (order_by le l) <-> In x l.
Proof.
  split; apply Permutation_in; [|symmetry]; apply order_by_Permutation.
Qed.

Lemma order_by_length {A} (le : A -> A -> bool) (l : list A) :
  length (order_by le l) = length l.
Proof. apply Permutation_length, order_by_Permutation. Qed.

Section OrderByKey.
Context {A : Type} (key : A -> Z).

Let le (a b : A) : bool := key a <=? key b.

Lemma insert_sorted_key (x : A) (l : list A) :
  StronglySorted Z.le (map key l) ->
  StronglySorted Z.le (map key (insert_sorted le x l)).
Proof.
  induction l as [|y l IH]; simpl; intros Hs.
  - repeat constructor.
  - inversion Hs as [|? ? Hl Hy]; subst. unfold le at 1.
    destruct (key x <=? key y) eqn:E.
    + simpl. constructor; [exact Hs|].
      apply Z.leb_le in E. constructor; [exact E|].
      eapply List.Forall_impl; [|exact Hy]. simpl. intros; lia.
    + simpl. constructor; [now apply IH|].
      apply Z.leb_gt in E.
      apply List.Forall_forall. intros k Hk.
      apply in_map_iff in Hk. destruct Hk as [z [<- Hz]].
      apply (Permutation_in _ (insert_sorted_Permutation le x l)) in Hz.
      destruct Hz as [<-|Hz]; [lia|].
      rewrite List.Forall_forall in Hy. apply Hy. now apply in_map.
Qed.

Lemma order_by_key_sorted (l : list A) :
  StronglySorted Z.le (map key (order_by le l)).
Proof.
  induction l as [|x l IH]; simpl; [constructor|].
  now apply insert_sorted_key.
Qed.

End OrderByKey.

Lemma In_firstn_In {A} (n : nat) (l : list A) (x : A) : In x (firstn n l) -> In x l.
Proof.
  revert l. induction n as [|n IH]; intros [|y l]; simpl; try tauto.
  intros [->|Hx]; auto.
Qed.

Lemma In_skipn_In {A} (n : nat) (l : list A) (x : A) : In x (skipn n l) -> In x l.
Proof.
  revert l. induction n as [|n IH]; intros [|y l]; simpl; try tauto.
  intros Hx. auto.
Qed.

Lemma StronglySorted_skipn {A} (R : A -> A -> Prop) (n : nat) (l : list A) :
  StronglySorted R l -> StronglySorted R (skipn n l).
Proof.
  revert l. induction n as [|n IH]; intros l Hs; [exact Hs|].
  destruct l as [|x l]; [exact Hs|]. simpl.
  inversion Hs; subst. now apply IH.
Qed.

Lemma StronglySorted_firstn {A} (R : A -> A -> Prop) (n : nat) (l : list A) :
  StronglySorted R l -> StronglySorted R (firstn n l).
Proof.
  revert l. induction n as [|n IH]; intros l Hs; [constructor|].
  destruct l as [|x l]; [constructor|]. simpl.
  inversion Hs as [|? ? Hl Hx]; subst. constructor; [now apply IH|].
  rewrite List.Forall_forall in *. intros y Hy. apply Hx.
  eapply In_firstn_In; eauto.
Qed.

Lemma offset_limit_In {A} (offset limit : Z) (rows : list A) (x : A) :
  In x (offset_limit offset limit rows) -> In x rows.
Proof.
  unfold offset_limit. destruct (limit <? 0); intros Hx.
  - eapply In_skipn_In; eauto.
  - eapply In_skipn_In, In_firstn_In; eauto.
Qed.

Lemma offset_limit_length {A} (offset limit : Z) (rows : list A) :
  0 <= limit -> (length (offset_limit offset limit rows) <= Z.to_nat limit)%nat.
Proof.
  intros Hl. unfold offset_limit.
  destruct (limit <? 0) eqn:E; [apply Z.ltb_lt in E; lia|].
  rewrite List.length_firstn. lia.
Qed.

Lemma offset_limit_sorted {A} (R : A -> A -> Prop) (offset limit : Z) (rows : list A) :
  StronglySorted R rows -> StronglySorted R (offset_limit offset limit rows).
Proof.
  intros Hs. unfold offset_limit. destruct (limit <? 0).
  - now apply StronglySorted_skipn.
  - now apply StronglySorted_firstn, StronglySorted_skipn.
Qed.

Lemma offset_limit_past_end {A} (offset limit : Z) (rows : list A) :
  Z.of_nat (length rows) <= offset -> offset_limit offset limit rows = [].
Proof.
  intros Ho. unfold offset_limit.
  rewrite skipn_all2 by lia. destruct (limit <? 0); [reflexivity|apply firstn_nil].
Qed.

Lemma offset_limit_map {A B} (f : A -> B) (offset limit : Z) (rows : list A) :
  map f (offset_limit offset limit rows) = offset_limit offset limit (map f rows).
Proof.
  unfold offset_limit. destruct (limit <? 0).
  - symmetry. apply List.skipn_map.
  - now rewrite List.skipn_map, List.firstn_map.
Qed.

Lemma firstn_add_skipn {A} (a b : nat) (l : list A) :
  firstn (a + b) l = (firstn a l ++ firstn b (skipn a l))%list.
Proof.
  revert l. induction a as [|a IH]; intros l; [reflexivity|].
  destruct l as [|x l]; simpl; [now rewrite firstn_nil|].
  now rewrite IH.
Qed.

(** The clamped page window of the three listing services. *)
Lemma page_window (page per_page : Z) :
  let pp := Z.min (Z.max per_page 1) 1000 in
  1 <= pp <= 1000 /\ 0 <= (Z.max page 1 - 1) * pp.
Proof. simpl. nia. Qed.

(** Binding the offset and the limit of a clamped page. *)
Lemma bind_page_window {S} (page per_page : Z) (s : S) :
  let pp := Z.min (Z.max per_page 1) 1000 in
  let offset := (Z.max page 1 - 1) * pp in
  bind_params [offset; pp] s
  = if offset <? 2 ^ 63 then Ok (tt, s) else Raise OverflowError.
Proof.
  destruct (page_window page per_page) as [Hpp Hoff]. cbv zeta in *.
  set (pp := Z.min (Z.max per_page 1) 1000) in *.
  set (offset := (Z.max page 1 - 1) * pp) in *.
  unfold bind_params, in_int64. cbn [forallb].
  assert ((- 2 ^ 63 <=? offset) = true) as -> by (apply Z.leb_le; lia).
  assert ((- 2 ^ 63 <=? pp) = true) as -> by (apply Z.leb_le; lia).
  assert ((pp <=? 2 ^ 63 - 1) = true) as -> by (apply Z.leb_le; lia).
  destruct (Z.ltb_spec offset (2 ^ 63)).
  - assert ((offset <=? 2 ^ 63 - 1) = true) as -> by (apply Z.leb_le; lia). reflexivity.
  - assert ((offset <=? 2 ^ 63 - 1) = false) as -> by (apply Z.leb_gt; lia). reflexivity.
Qed.

Lemma list_roles_eq (st : Store) (page per_page : Z) :
  RoleService.list_roles page per_page st
  = if (Z.max page 1 - 1) * Z.min (Z.max per_page 1) 1000 <? 2 ^ 63
    then Ok (map role_summary
               (offset_limit ((Z.max page 1 - 1) * Z.min (Z.max per_page 1) 1000)
                  (Z.min (Z.max per_page 1) 1000)
                  (order_by (fun r r' => role_id r <=? role_id r')
                     (List.filter (fun r => is_None (role_deleted_at r)) (roles st)))), st)
    else Raise OverflowError.
Proof.
  unfold RoleService.list_roles, RoleRepository.list_role_summaries. unfold bind at 1.
  rewrite (bind_page_window page per_page st). cbv zeta.
  destruct (_ <? 2 ^ 63); reflexivity.
Qed.

(** X1. [RoleService.list_roles] returns a page as long as the offset
    [(max page 1 - 1) * min (max per_page 1) 1000] fits an SQLite INTEGER,
    and leaves the store alone; the page holds at most 1000 rows and at
    most [max per_page 1], in ascending order of [id], each the summary
    of a role that is not soft-deleted.  From an offset of [2 ^ 63] on the
    call raises [OverflowError]. *)
Theorem list_roles_bounded_sorted_active (st : Store) (page per_page : Z) :
  if (Z.max page 1 - 1) * Z.min (Z.max per_page 1) 1000 <? 2 ^ 63
  then exists rows,
      RoleService.list_roles page per_page st = Ok (rows, st)
      /\ (length rows <= 1000)%nat
      /\ Z.of_nat (length rows) <= Z.max per_page 1
      /\ StronglySorted Z.le (map rs_id rows)
      /\ (forall s, In s rows ->
            exists r, In r (roles st) /\ role_deleted_at r = None /\ s = role_summary r)
  else RoleService.list_roles page per_page st = Raise OverflowError.
Proof.
  rewrite list_roles_eq.
  destruct (_ <? 2 ^ 63); [|reflexivity].
  eexists. split; [reflexivity|].
  destruct (page_window page per_page) as [Hpp Hoff]. cbv zeta in Hpp, Hoff.
  set (pp := Z.min (Z.max per_page 1) 1000) in *.
  set (all := order_by _ _).
  assert (Hlen : (length (offset_limit ((Z.max page 1 - 1) * pp) pp all) <= Z.to_nat pp)%nat)
    by (apply offset_limit_length; lia).
  rewrite List.length_map. repeat split.
  - lia.
  - subst pp. lia.
  - rewrite map_map. change (fun x => rs_id (role_summary x)) with role_id.
    rewrite offset_limit_map. apply offset_limit_sorted, order_by_key_sorted.
  - intros s Hs. apply in_map_iff in Hs. destruct Hs as [r [<- Hr]].
    apply offset_limit_In in Hr. subst all. apply order_by_In in Hr.
    apply List.filter_In in Hr. destruct Hr as [Hin Hd].
    exists r. repeat split; auto. now destruct (role_deleted_at r).
Qed.

Lemma filter_length_le {A} (f : A -> bool) (l : list A) :
  (length (List.filter f l) <= length l)%nat.
Proof. induction l as [|a l IH]; simpl; [lia|]. destruct (f a); simpl; lia. Qed.

Lemma walk_role_pages_eq (st : Store) (per_page : Z) (n : nat) :
  1 <= per_page <= 1000 ->
  sql_count (roles st) < 2 ^ 63 ->
  walk_role_pages st per_page n
  = map role_summary
      (firstn (n * Z.to_nat per_page)
         (order_by (fun r r' => role_id r <=? role_id r')
            (List.filter (fun r => is_None (role_deleted_at r)) (roles st)))).
Proof.
  intros Hpp Hsize. induction n as [|n IH]; [reflexivity|].
  cbn [walk_role_pages]. rewrite IH, list_roles_eq.
  replace (Z.min (Z.max per_page 1) 1000) with per_page by lia.
  replace ((Z.max (Z.of_nat (S n)) 1 - 1) * per_page)
    with (Z.of_nat (n * Z.to_nat per_page)) by nia.
  destruct (Z.ltb_spec (Z.of_nat (n * Z.to_nat per_page)) (2 ^ 63)) as [Hin|Hout];
    cbn [rows_of].
  - unfold offset_limit. rewrite Nat2Z.id.
    destruct (per_page <? 0) eqn:E; [apply Z.ltb_lt in E; lia|].
    rewrite <- List.map_app, <- firstn_add_skipn.
    f_equal. f_equal. simpl. lia.
  - rewrite app_nil_r.
    pose proof (order_by_length (fun r r' => role_id r <=? role_id r')
                  (List.filter (fun r => is_None (role_deleted_at r)) (roles st))) as Hlen.
    pose proof (filter_length_le (fun r => is_None (role_deleted_at r)) (roles st)) as Hf.
    unfold sql_count in Hsize.
    rewrite !firstn_all2; [reflexivity | |]; rewrite Hlen; simpl; lia.
Qed.

(** X2. Walking the pages of [RoleService.list_roles] from page 1 with a
    page size within bounds neither skips nor repeats a role: while there
    are rows left every page is full, and once [n] pages reach
    [count_roles] they hold the summaries of the non-deleted roles, each
    once, in ascending order of [id].  The table holds fewer than
    [2 ^ 63] rows, as every table of the storage engine does; a page that
    raises is read as empty. *)
Theorem list_roles_pages_cover (st : Store) (per_page : Z) (n : nat) :
  1 <= per_page <= 1000 ->
  sql_count (roles st) < 2 ^ 63 ->
  exists c,
    RoleService.count_roles false st = Ok (c, st)
    /\ (Z.of_nat n * per_page <= c ->
        Z.of_nat (length (walk_role_pages st per_page n)) = Z.of_nat n * per_page)
    /\ (c <= Z.of_nat n * per_page ->
        Permutation (walk_role_pages st per_page n)
                    (map role_summary
                       (List.filter (fun r => is_None (role_deleted_at r)) (roles st))))
    /\ StronglySorted Z.le (map rs_id (walk_role_pages st per_page n)).
Proof.
  intros Hpp Hsize.
  exists (sql_count (List.filter (fun r => is_None (role_deleted_at r)) (roles st))).
  split; [reflexivity|].
  rewrite walk_role_pages_eq by assumption.
  set (active := List.filter (fun r => is_None (role_deleted_at r)) (roles st)).
  unfold sql_count.
  pose proof (order_by_length (fun r r' => role_id r <=? role_id r') active) as Hlen.
  repeat split.
  - intros Hc. rewrite List.length_map, List.length_firstn, Hlen. nia.
  - intros Hc. rewrite firstn_all2 by (rewrite Hlen; nia).
    apply Permutation_map, order_by_Permutation.
  - rewrite map_map. change (fun x => rs_id (role_summary x)) with role_id.
    rewrite <- List.firstn_map. apply StronglySorted_firstn, order_by_key_sorted.
Qed.

Lemma list_roles_pages_cover_witness :
  exists c,
    RoleService.count_roles false example_staff_store = Ok (c, example_staff_store)
    /\ (Z.of_nat 1 * 1 <= c ->
        Z.of_nat (length (walk_role_pages example_staff_store 1 1)) = Z.of_nat 1 * 1)
    /\ (c <= Z.of_nat 1 * 1 ->
        Permutation (walk_role_pages example_staff_store 1 1)
                    (map role_summary
                       (List.filter (fun r => is_None (role_deleted_at r))
                                    (roles example_staff_store))))
    /\ StronglySorted Z.le (map rs_id (walk_role_pages example_staff_store 1 1)).
Proof.
  apply (list_roles_pages_cover example_staff_store 1 1); [lia|].
  vm_compute. reflexivity.
Defined.

Lemma list_users_eq (w : World) (page per_page : Z) :
  UserService.list_users page per_page w
  = if (Z.max page 1 - 1) * Z.min (Z.max per_page 1) 1000 <? 2 ^ 63
    then Ok (map user_summary
               (offset_limit ((Z.max page 1 - 1) * Z.min (Z.max per_page 1) 1000)
                  (Z.min (Z.max per_page 1) 1000)
                  (order_by (fun u u' => user_id u <=? user_id u')
                     (List.filter (fun u => is_None (user_deleted_at u)) (users (db w))))),
             w)
    else Raise OverflowError.
Proof.
  unfold UserService.list_users, UserRepository.list_user_summaries, in_db.
  unfold bind at 1. rewrite (bind_page_window page per_page (db w)). cbv zeta.
  destruct (_ <? 2 ^ 63); [|reflexivity]. destruct w; reflexivity.
Qed.

(** X3. [UserService.list_users] returns a page as long as the offset
    fits an SQLite INTEGER, and touches neither the database nor the
    cache; the page holds at most 1000 rows, in ascending order of [id],
    each the summary of a user that is not soft-deleted, and a page that
    starts at or after [count_users] rows is empty.  From an offset of
    [2 ^ 63] on the call raises [OverflowError]. *)
Theorem list_users_bounded_sorted_active (w : World) (page per_page : Z) :
  if (Z.max page 1 - 1) * Z.min (Z.max per_page 1) 1000 <? 2 ^ 63
  then exists rows c,
      UserService.list_users page per_page w = Ok (rows, w)
      /\ UserService.count_users w = Ok (c, w)
      /\ (length rows <= 1000)%nat
      /\ Z.of_nat (length rows) <= Z.max per_page 1
      /\ StronglySorted Z.le (map us_id rows)
      /\ (forall s, In s rows ->
            exists u, In u (users (db w)) /\ user_deleted_at u = None
                      /\ s = user_summary u)
      /\ (c <= (Z.max page 1 - 1) * Z.min (Z.max per_page 1) 1000 -> rows = [])
  else UserService.list_users page per_page w = Raise OverflowError.
Proof.
  rewrite list_users_eq.
  destruct (_ <? 2 ^ 63); [|reflexivity].
  eexists.
  exists (sql_count (List.filter (fun u => is_None (user_deleted_at u)) (users (db w)))).
  split; [reflexivity|]. split; [destruct w; reflexivity|].
  destruct (page_window page per_page) as [Hpp Hoff]. cbv zeta in Hpp, Hoff.
  set (pp := Z.min (Z.max per_page 1) 1000) in *.
  set (all := order_by _ _).
  assert (Hlen : (length (offset_limit ((Z.max page 1 - 1) * pp) pp all) <= Z.to_nat pp)%nat)
    by (apply offset_limit_length; lia).
  rewrite List.length_map. repeat split.
  - lia.
  - subst pp. lia.
  - rewrite map_map. change (fun x => us_id (user_summary x)) with user_id.
    rewrite offset_limit_map. apply offset_limit_sorted, order_by_key_sorted.
  - intros s Hs. apply in_map_iff in Hs. destruct Hs as [u [<- Hu]].
    apply offset_limit_In in Hu. subst all. apply order_by_In in Hu.
    apply List.filter_In in Hu. destruct Hu as [Hin Hd].
    exists u. repeat split; auto. now destruct (user_deleted_at u).
  - intros Hc. rewrite offset_limit_past_end; [reflexivity|].
    subst all. rewrite order_by_length. unfold sql_count in Hc. exact Hc.
Qed.

(** ** The cache backend: round trips, expiry and independence of keys *)

(** What a call that returned tells about the server: a cache with a
    client got its answer from the server. *)
Lemma set_Ok_reaches (env : Env) (c c1 : DragonflyCache.t) (key : string)
      (value : CacheValue) (ttl : option Z) :
  DragonflyCache.set env key value ttl c = Ok (tt, c1) ->
  DragonflyCache._client c1 = DragonflyCache._client c
  /\ DragonflyCache.ttl_seconds c1 = DragonflyCache.ttl_seconds c
  /\ client_reaches_server env c /\ client_reaches_server env c1.
Proof.
  unfold client_reaches_server. destruct c as [ttl0 client fb srv]. destruct client.
  - unfold_cache. simpl. destruct (redis_up env); simpl; [|discriminate].
    destruct (_ <=? 0); [discriminate|]. intros E. injection E as <-. simpl. auto.
  - intros Hset.
    destruct (cache_set_effect env key value ttl (DragonflyCache.mk ttl0 false fb srv)
                eq_refl) as (c2 & E & Hc & _).
    rewrite E in Hset. injection Hset as <-. simpl.
    rewrite cache_set_fallback in E by reflexivity. simpl in E. injection E as <-.
    simpl. repeat split; auto; discriminate.
Qed.

Lemma set_Ok_cache_entry (env : Env) (c c1 : DragonflyCache.t) (key : string)
      (value : CacheValue) (ttl : option Z) :
  DragonflyCache.set env key value ttl c = Ok (tt, c1) ->
  0 < ttl_or ttl (DragonflyCache.ttl_seconds c) -> 0 <= now env ->
  cache_entry (DragonflyCache._client c) c1 key value
              (now env + ttl_or ttl (DragonflyCache.ttl_seconds c)).
Proof.
  intros Hset Hpos Hnow. destruct c as [ttl0 client fb srv].
  cbn [DragonflyCache.ttl_seconds DragonflyCache._client] in *.
  remember (ttl_or ttl ttl0) as T eqn:HT in *.
  assert ((T =? 0) = false) as Ez by (apply Z.eqb_neq; lia).
  unfold cache_entry. destruct client.
  - revert Hset. unfold DragonflyCache.set, DragonflyCache._get_client,
      DragonflyCache.redis_set. unfold_monad. cbn -[ttl_or Z.add Z.leb Z.eqb Z.ltb].
    rewrite <- HT. destruct (redis_up env); cbn -[ttl_or Z.add Z.leb Z.eqb Z.ltb];
      [|discriminate].
    destruct (T <=? 0); [discriminate|]. intros E. injection E as <-.
    cbn -[ttl_or Z.add Z.leb Z.eqb Z.ltb]. split; [reflexivity|].
    eexists. rewrite lookup_insert_eq. split; [reflexivity|lia].
  - destruct (cache_set_effect env key value ttl (DragonflyCache.mk ttl0 false fb srv)
                eq_refl) as (c2 & E & Hc & Hs & Hx & _).
    rewrite E in Hset. injection Hset as <-. split; [exact Hc|].
    unfold stored, expiration in Hs, Hx. cbn [DragonflyCache.ttl_seconds] in Hx.
    rewrite <- HT in Hx. unfold ttl_or at 1 in Hx. rewrite Ez in Hx.
    eexists. split; [exact Hx|]. repeat split; [lia | lia | exact Hs].
Qed.

Lemma cache_entry_read (env : Env) (up : bool) (c : DragonflyCache.t) (key : string)
      (value : CacheValue) (expires : Z) :
  cache_entry up c key value expires -> client_reaches_server env c ->
  now env < expires ->
  exists c2,
    DragonflyCache.get env key c = Ok (Some value, c2)
    /\ cache_entry up c2 key value expires
    /\ client_reaches_server env c2.
Proof.
  intros [Hcl Hent] Hreach Hnow. unfold client_reaches_server in *.
  destruct c as [ttl0 client fb srv]. simpl in *. subst client.
  unfold cache_entry. destruct up.
  - unfold_cache. simpl. rewrite (Hreach eq_refl). simpl.
    destruct Hent as (e & Hs & He). rewrite Hs.
    destruct (now env <? e) eqn:El; [|lia].
    eexists. split; [reflexivity|]. simpl. split; [|auto]. split; [reflexivity|]. eauto.
  - rewrite cache_get_fallback by reflexivity. simpl.
    unfold AsyncTTLCache.get.
    destruct Hent as (e & Hx & He & Hne & Hs). rewrite Hx.
    destruct (e =? 0) eqn:E0; [lia|]. destruct (e <? now env) eqn:El; [lia|]. simpl.
    eexists. split; [rewrite Hs; reflexivity|]. simpl. split; [|discriminate].
    split; [reflexivity|]. exists e. auto.
Qed.

(** A read of another key leaves the entry in place. *)
Lemma cache_entry_get_other (env : Env) (up : bool) (c c' : DragonflyCache.t)
      (key key' : string) (value : CacheValue) (expires : Z) (v : option CacheValue) :
  key' <> key -> cache_entry up c key value expires ->
  DragonflyCache.get env key' c = Ok (v, c') ->
  cache_entry up c' key value expires.
Proof.
  intros Hne [Hcl Hent] Hop. destruct c as [ttl0 client fb srv]. simpl in *. subst client.
  unfold cache_entry. destruct up.
  - revert Hop. unfold_cache. simpl. destruct (redis_up env); simpl; [|discriminate].
    destruct Hent as (e & Hs & He). intros Hop.
    destruct (srv !! key') as [[v' e']|]; [destruct (now env <? e')|];
      inversion Hop; subst; simpl; eauto.
  - destruct (cache_get_effect env key' (DragonflyCache.mk ttl0 false fb srv) eq_refl)
      as (v2 & c2 & E & Hc & _ & Hother & _).
    rewrite E in Hop. injection Hop as <- <-. split; [exact Hc|].
    destruct Hent as (e & Hx & He & Hne0 & Hs).
    destruct (Hother key (not_eq_sym Hne)) as [Hs2 Hx2]. unfold stored, expiration in Hs2, Hx2.
    exists e. rewrite Hs2, Hx2. auto.
Qed.

(** X4. A cache without a client answers from its in-process part,
    whether the server is reachable or not: what [DragonflyCache.set]
    writes is what [DragonflyCache.get] reads back up to and including the
    instant at which the time to live ends; after that the read finds
    nothing.  No call gives the cache a client. *)
Theorem cache_set_get_round_trip (env env' : Env) (c : DragonflyCache.t) (key : string)
        (value : CacheValue) (ttl : option Z) :
  DragonflyCache._client c = false ->
  0 < ttl_or ttl (DragonflyCache.ttl_seconds c) ->
  0 <= now env ->
  exists c1,
    DragonflyCache.set env key value ttl c = Ok (tt, c1)
    /\ DragonflyCache._client c1 = false
    /\ (now env' <= now env + ttl_or ttl (DragonflyCache.ttl_seconds c) ->
        exists c2, DragonflyCache.get env' key c1 = Ok (Some value, c2)
                   /\ DragonflyCache._client c2 = false)
    /\ (now env + ttl_or ttl (DragonflyCache.ttl_seconds c) < now env' ->
        exists c2, DragonflyCache.get env' key c1 = Ok (None, c2)
                   /\ DragonflyCache._client c2 = false).
Proof.
  intros Hc Hpos Hnow.
  destruct (cache_set_effect env key value ttl c Hc) as (c1 & Hset & Hc1 & Hs & Hx & _).
  exists c1. split; [exact Hset|]. split; [exact Hc1|].
  remember (ttl_or ttl (DragonflyCache.ttl_seconds c)) as T eqn:HT in *.
  assert ((T =? 0) = false) as Ez by (apply Z.eqb_neq; lia).
  unfold ttl_or at 1 in Hx. rewrite Ez in Hx.
  destruct (cache_get_effect env' key c1 Hc1)
    as (v & c2 & Eg & Hc2 & _ & _ & _ & Hlive & Hnone).
  split.
  - intros Hearly. exists c2. split; [|exact Hc2].
    destruct (Hlive _ Hx) as [_ ->]; [lia | lia |]. now rewrite Eg, Hs.
  - intros Hlate. exists c2. split; [|exact Hc2]. rewrite Eg. f_equal. f_equal.
    apply Hnone. intros e He. rewrite Hx in He. injection He as <-. right. lia.
Qed.

Lemma cache_set_get_round_trip_witness :
  exists c1,
    DragonflyCache.set (mkEnv 1000 true) "user:id:1" (VBool true) None
      (DragonflyCache.new default_settings) = Ok (tt, c1)
    /\ DragonflyCache._client c1 = false
    /\ (1030 <= 1000 + 30 ->
        exists c2, DragonflyCache.get (mkEnv 1030 true) "user:id:1" c1
                   = Ok (Some (VBool true), c2)
                   /\ DragonflyCache._client c2 = false)
    /\ (1000 + 30 < 1030 ->
        exists c2, DragonflyCache.get (mkEnv 1030 true) "user:id:1" c1 = Ok (None, c2)
                   /\ DragonflyCache._client c2 = false).
Proof.
  apply (cache_set_get_round_trip (mkEnv 1000 true) (mkEnv 1030 true)
           (DragonflyCache.new default_settings) "user:id:1" (VBool true) None).
  - reflexivity.
  - reflexivity.
  - simpl. lia.
Defined.

(** X5. The in-process cache keeps [_store] and [_expirations] over the
    same keys through [set], [delete] and [get]; a read hands out a value
    only while its expiry lies ahead, and otherwise drops the key from
    both dicts. *)
Theorem ttl_cache_keeps_same_keys (c : AsyncTTLCache.t) (key : string) (now' : Z) :
  same_keys c ->
  (forall value ttl c',
      AsyncTTLCache.set key value ttl now' c = Ok (tt, c') -> same_keys c')
  /\ (forall c',
         AsyncTTLCache.delete key c = Ok (tt, c') ->
         same_keys c' /\ AsyncTTLCache._store c' !! key = None)
  /\ (forall v c',
         AsyncTTLCache.get key now' c = Ok (v, c') ->
         same_keys c'
         /\ match v with
            | Some _ =>
                c' = c
                /\ exists e, AsyncTTLCache._expirations c !! key = Some e
                             /\ e <> 0 /\ now' <= e
            | None =>
                AsyncTTLCache._store c' !! key = None
                /\ AsyncTTLCache._expirations c' !! key = None
            end).
Proof.
  intros Hsame. destruct c as [ttl0 store exps]. unfold same_keys in *. simpl in Hsame.
  assert (Hpop : forall k,
             base.delete key store !! k = None <-> base.delete key exps !! k = None).
  { intros k. destruct (decide (key = k)) as [->|Hne].
    - rewrite !lookup_delete_eq. tauto.
    - rewrite !lookup_delete_ne by assumption. apply Hsame. }
  split; [|split].
  - intros value ttl c' H. unfold AsyncTTLCache.set in H. injection H as <-. simpl.
    intros k. destruct (decide (key = k)) as [->|Hne].
    + rewrite !lookup_insert_eq. split; discriminate.
    + rewrite !lookup_insert_ne by assumption. apply Hsame.
  - intros c' H. unfold AsyncTTLCache.delete in H. injection H as <-. simpl.
    split; [apply Hpop | apply lookup_delete_eq].
  - intros v c'. unfold AsyncTTLCache.get, AsyncTTLCache.pop. simpl.
    destruct (exps !! key) as [e|] eqn:Ee; [destruct ((e =? 0) || (e <? now')) eqn:Ex|];
      intros H; injection H as <- <-; simpl.
    + split; [apply Hpop|]. split; apply lookup_delete_eq.
    + split; [apply Hsame|].
      apply orb_false_iff in Ex. destruct Ex as [E0 El].
      apply Z.eqb_neq in E0. apply Z.ltb_ge in El.
      destruct (store !! key) eqn:Es.
      * split; [reflexivity|]. exists e. auto.
      * apply Hsame in Es. rewrite Es in Ee. discriminate.
    + split; [apply Hpop|]. split; apply lookup_delete_eq.
Qed.

Lemma ttl_cache_keeps_same_keys_witness :
  same_keys (AsyncTTLCache.new 30)
  /\ exists c',
      AsyncTTLCache.set "user:id:1" (VBool true) None 1000 (AsyncTTLCache.new 30)
      = Ok (tt, c')
      /\ same_keys c'.
Proof.
  assert (Hnew : same_keys (AsyncTTLCache.new 30)) by (intros key; split; reflexivity).
  split; [exact Hnew|].
  eexists. split; [reflexivity|].
  destruct (ttl_cache_keeps_same_keys (AsyncTTLCache.new 30) "user:id:1" 1000 Hnew)
    as (Hset & _ & _).
  eapply Hset. reflexivity.
Defined.

(** A write under one key does not change what a read of another key
    returns. *)
Lemma set_keeps_other_reads (env env' : Env) (c c1 c2 : DragonflyCache.t)
      (key key' : string) (value : CacheValue) (ttl : option Z) (v : option CacheValue) :
  key' <> key -> redis_up env' = redis_up env ->
  DragonflyCache.set env key value ttl c = Ok (tt, c1) ->
  DragonflyCache.get env' key' c = Ok (v, c2) ->
  exists c3, DragonflyCache.get env' key' c1 = Ok (v, c3).
Proof.
  intros Hne Hup Hset Hget. destruct c as [ttl0 client fb srv]. destruct client.
  - revert Hset Hget. unfold DragonflyCache.set, DragonflyCache._get_client,
      DragonflyCache.redis_set, DragonflyCache.get, DragonflyCache.redis_get.
    unfold_monad. cbn -[ttl_or Z.add Z.leb Z.eqb Z.ltb]. rewrite Hup.
    destruct (redis_up env); cbn -[ttl_or Z.add Z.leb Z.eqb Z.ltb]; [|discriminate].
    destruct (ttl_or ttl ttl0 <=? 0); [discriminate|]. intros E. injection E as <-.
    cbn -[ttl_or Z.add Z.leb Z.eqb Z.ltb].
    rewrite lookup_insert_ne by (intros Heq; apply Hne; now symmetry).
    destruct (srv !! key') as [[v' e']|]; [destruct (now env' <? e')|];
      intros Hget; injection Hget as <- _; eauto.
  - destruct (cache_set_effect env key value ttl (DragonflyCache.mk ttl0 false fb srv)
                eq_refl) as (c1' & E & Hc & _ & _ & Hother).
    rewrite E in Hset. injection Hset as <-.
    destruct (Hother key' Hne) as [Hs Hx]. unfold stored, expiration in Hs, Hx.
    simpl in Hs, Hx.
    rewrite cache_get_fallback in Hget by reflexivity.
    rewrite cache_get_fallback by exact Hc.
    simpl in Hget. unfold AsyncTTLCache.get in *. rewrite Hx.
    destruct (AsyncTTLCache._expirations fb !! key') as [e'|];
      [destruct ((e' =? 0) || (e' <? now env'))|];
      injection Hget as <- _; rewrite ?Hs; eauto.
Qed.

Lemma block_key_inj (token token' : string) :
  TokenBlocklistService.block_key token = TokenBlocklistService.block_key token' ->
  token = token'.
Proof. unfold TokenBlocklistService.block_key. simpl. intros Heq. now injection Heq. Qed.

(** X6. Revoking one token changes the answer of [is_revoked] for no
    other token. *)
Theorem revoke_leaves_other_tokens (settings : Settings) (env env' : Env)
        (c c1 c2 : DragonflyCache.t) (token token' : string) (revoked : bool) :
  token' <> token ->
  redis_up env' = redis_up env ->
  TokenBlocklistService.revoke settings env token c = Ok (tt, c1) ->
  TokenBlocklistService.is_revoked env' token' c = Ok (revoked, c2) ->
  exists c3, TokenBlocklistService.is_revoked env' token' c1 = Ok (revoked, c3).
Proof.
  intros Hne Hup Hrev Hq. unfold TokenBlocklistService.revoke in Hrev.
  unfold TokenBlocklistService.is_revoked in *. unfold bind, ret in *.
  destruct (DragonflyCache.get env' (TokenBlocklistService.block_key token') c)
    as [[v c2']|] eqn:Hget; [|discriminate Hq].
  injection Hq as <- <-.
  assert (Hkeys : TokenBlocklistService.block_key token'
                  <> TokenBlocklistService.block_key token)
    by (intros Heq; apply Hne; now apply block_key_inj).
  destruct (set_keeps_other_reads _ _ _ _ _ _ _ _ _ _ Hkeys Hup Hrev Hget) as [c3 ->].
  eauto.
Qed.

Lemma revoke_leaves_other_tokens_witness :
  exists c1 c3,
    TokenBlocklistService.revoke default_settings example_env "1"
      (DragonflyCache.new default_settings) = Ok (tt, c1)
    /\ TokenBlocklistService.is_revoked example_env "2" c1 = Ok (false, c3).
Proof.
  eexists.
  assert (Hrev : TokenBlocklistService.revoke default_settings example_env "1"
                   (DragonflyCache.new default_settings) = Ok (tt, _))
    by (vm_compute; reflexivity).
  destruct (revoke_leaves_other_tokens default_settings example_env example_env
              (DragonflyCache.new default_settings) _
              (DragonflyCache.new default_settings) "1" "2" false
              ltac:(discriminate) eq_refl Hrev ltac:(vm_compute; reflexivity))
    as [c3 Hq].
  exists c3. split; [exact Hrev | exact Hq].
Defined.

(** ** Cached user objects *)

Lemma block_key_ne_id_key (token : string) (i : Z) :
  TokenBlocklistService.block_key token <> UserService.id_key i.
Proof. unfold TokenBlocklistService.block_key, UserService.id_key. simpl. discriminate. Qed.

Lemma repo_get_by_id_store (i : Z) (st st' : Store) (o : option UserORM) :
  UserRepository.get_by_id i st = Ok (o, st') -> st' = st.
Proof.
  unfold UserRepository.get_by_id. unfold_monad.
  destruct (scalar_one_or_none _) as [?|?]; [|discriminate].
  intros E. now inversion E.
Qed.

(** A [get_by_id] that went to the database left the serialized row in
    the cache. *)
Lemma get_by_id_miss_fills_cache (env : Env) (i : Z) (w w1 : World) (u : UserORM) :
  UserService.get_by_id env i w = Ok (Some (ORMUser u), w1) ->
  0 < DragonflyCache.ttl_seconds (cache w) -> 0 <= now env ->
  db w1 = db w
  /\ UserRepository.get_by_id i (db w) = Ok (Some u, db w)
  /\ cache_entry (DragonflyCache._client (cache w)) (cache w1) (UserService.id_key i)
       (VUser (UserService._serialize_user (db w) u))
       (now env + DragonflyCache.ttl_seconds (cache w))
  /\ client_reaches_server env (cache w1).
Proof.
  intros Hget Hpos Hnow. unfold UserService.get_by_id in Hget.
  first_call Hget as cached w0 Ec. unfold in_cache in Ec.
  destruct (DragonflyCache.get env (UserService.id_key i) (cache w))
    as [[v c0]|] eqn:Eg; [|discriminate].
  injection Ec as <- <-.
  pose proof (cache_get_client _ _ _ _ _ Eg) as Hcl.
  apply cache_get_reaches in Eg as [_ Httl].
  destruct (truthy_value v) eqn:Et.
  - destruct v as [[b|d]|]; unfold UserService._deserialize_user, ret, raise in Hget;
      discriminate.
  - first_call Hget as user w2 Edb. apply in_db_Ok in Edb as (st' & Edb & ->).
    cbn [db cache] in *.
    pose proof (repo_get_by_id_store _ _ _ _ Edb) as ->.
    destruct user as [u'|]; [|unfold ret in Hget; discriminate].
    first_call Hget as x w3 Ecu. destruct x. unfold ret in Hget. injection Hget as -> ->.
    unfold UserService.cache_user, bind, get_store, in_cache in Ecu. cbn [db cache] in Ecu.
    destruct (DragonflyCache.set env (UserService.id_key i)
                (VUser (UserService._serialize_user (db w) u)) None c0)
      as [[[] c1]|] eqn:Es; [|discriminate].
    injection Ecu as <-. cbn [db cache].
    split; [reflexivity|]. split; [exact Edb|].
    pose proof (set_Ok_cache_entry _ _ _ _ _ _ Es) as Hent.
    cbn [ttl_or] in Hent. rewrite Httl, Hcl in Hent.
    split; [apply Hent; [exact Hpos | exact Hnow]|].
    now apply set_Ok_reaches in Es.
Qed.

(** While the entry is there, [get_by_id] answers from it without reading
    the database. *)
Lemma get_by_id_hit (env : Env) (up : bool) (i : Z) (st : Store) (c : DragonflyCache.t)
      (d : UserDict) (expires : Z) :
  cache_entry up c (UserService.id_key i) (VUser d) expires ->
  client_reaches_server env c ->
  now env < expires ->
  exists c2,
    UserService.get_by_id env i (mkWorld st c) = Ok (Some (Namespace d), mkWorld st c2)
    /\ cache_entry up c2 (UserService.id_key i) (VUser d) expires.
Proof.
  intros Hent Hreach Hnow.
  destruct (cache_entry_read _ _ _ _ _ _ Hent Hreach Hnow) as (c2 & Hget & Hent2 & _).
  exists c2. split; [|exact Hent2].
  unfold UserService.get_by_id. unfold bind, in_cache. cbn [db cache].
  rewrite Hget. reflexivity.
Qed.

(** X7. After a [UserService.get_by_id] that went to the database, a
    second call within the cache's time to live is answered with the copy
    serialized at the first call, whatever the database holds by then, and
    leaves the database as it is. *)
Theorem get_by_id_second_call_served_from_cache
        (env env' : Env) (w w1 : World) (i : Z) (u : UserORM) :
  0 <= now env ->
  0 < DragonflyCache.ttl_seconds (cache w) ->
  redis_up env' = redis_up env ->
  now env' < now env + DragonflyCache.ttl_seconds (cache w) ->
  UserService.get_by_id env i w = Ok (Some (ORMUser u), w1) ->
  db w1 = db w
  /\ forall st', exists c2,
        UserService.get_by_id env' i (mkWorld st' (cache w1))
        = Ok (Some (Namespace (UserService._serialize_user (db w) u)), mkWorld st' c2).
Proof.
  intros Hnow Hpos Hup Hearly Hget.
  destruct (get_by_id_miss_fills_cache env i w w1 u Hget Hpos Hnow)
    as (Hdb & _ & Hent & Hreach).
  split; [exact Hdb|]. intros st'.
  destruct (get_by_id_hit env' _ i st' (cache w1) _ _ Hent
              (client_reaches_server_up _ _ _ Hup Hreach) Hearly) as (c2 & Hhit & _).
  eauto.
Qed.

Lemma get_by_id_second_call_served_from_cache_witness :
  exists w1 c2,
    UserService.get_by_id example_env 1
      (mkWorld example_user_store (DragonflyCache.new default_settings))
    = Ok (Some (ORMUser example_user), w1)
    /\ UserService.get_by_id example_env 1
         (mkWorld empty_store (cache w1))
       = Ok (Some (Namespace (UserService._serialize_user example_user_store example_user)),
             mkWorld empty_store c2).
Proof.
  eexists.
  assert (Hget : UserService.get_by_id example_env 1
                   (mkWorld example_user_store (DragonflyCache.new default_settings))
                 = Ok (Some (ORMUser example_user), _))
    by (vm_compute; reflexivity).
  destruct (get_by_id_second_call_served_from_cache
              example_env example_env
              (mkWorld example_user_store (DragonflyCache.new default_settings)) _
              1 example_user
              ltac:(simpl; lia) ltac:(simpl; lia) eq_refl ltac:(simpl; lia) Hget)
    as [_ Hsecond].
  destruct (Hsecond empty_store) as [c2 Hhit].
  exists c2. split; [exact Hget | exact Hhit].
Defined.

Section CurrentUser.
Context `{Security}.
Variable int_of_str : string -> option Z.

Lemma decode_subject_state {S S'} (token : string) (now' : Z) (s s1 : S) (s' : S') (i : Z) :
  Dependencies.decode_subject int_of_str token now' s = Ok (i, s1) ->
  s1 = s /\ Dependencies.decode_subject int_of_str token now' s' = Ok (i, s').
Proof using Type.
  unfold Dependencies.decode_subject.
  destruct (decode_access_token token now') as [payload|]; [|discriminate].
  destruct (payload_sub payload) as [sub|]; [|discriminate].
  destruct (int_of_str sub) as [j|]; [|discriminate].
  unfold ret. intros E. injection E as -> ->. auto.
Qed.

(** What a [get_current_user] that returned went through. *)
Lemma get_current_user_Ok (env : Env) (token : string) (w w1 : World) (o : UserObject) :
  Dependencies.get_current_user int_of_str env token w = Ok (o, w1) ->
  exists i c0,
    Dependencies.decode_subject int_of_str token (now env) w = Ok (i, w)
    /\ TokenBlocklistService.is_revoked env token (cache w) = Ok (false, c0)
    /\ UserService.get_by_id env i (mkWorld (db w) c0) = Ok (Some o, w1)
    /\ object_is_blocked o = false.
Proof using Type.
  intros Hcur. unfold Dependencies.get_current_user in Hcur.
  first_call Hcur as i w0 Edec.
  destruct (decode_subject_state (S' := World) _ _ _ _ w _ Edec) as [-> Edec'].
  first_call Hcur as revoked w2 Erev. unfold in_cache in Erev.
  destruct (TokenBlocklistService.is_revoked env token (cache w)) as [[b c0]|] eqn:Eq;
    [|discriminate].
  injection Erev as -> <-.
  destruct revoked; [discriminate|].
  first_call Hcur as user w3 Eget.
  destruct user as [o'|]; [|discriminate].
  destruct (object_is_blocked o') eqn:Eb; [discriminate|].
  unfold ret in Hcur. injection Hcur as -> ->.
  exists i, c0. auto.
Qed.

Lemma get_current_user_from (env : Env) (token : string) (w w1 : World) (o : UserObject)
      (i : Z) (c0 : DragonflyCache.t) :
  Dependencies.decode_subject int_of_str token (now env) w = Ok (i, w) ->
  TokenBlocklistService.is_revoked env token (cache w) = Ok (false, c0) ->
  UserService.get_by_id env i (mkWorld (db w) c0) = Ok (Some o, w1) ->
  object_is_blocked o = false ->
  Dependencies.get_current_user int_of_str env token w = Ok (o, w1).
Proof using Type.
  intros Edec Erev Eget Eb. unfold Dependencies.get_current_user.
  unfold bind at 1. rewrite Edec. unfold bind at 1. unfold in_cache at 1. rewrite Erev.
  cbv beta iota. unfold bind at 1. rewrite Eget. cbv beta iota. rewrite Eb. reflexivity.
Qed.

Lemma is_revoked_get (env : Env) (token : string) (c c0 : DragonflyCache.t) (b : bool) :
  TokenBlocklistService.is_revoked env token c = Ok (b, c0) ->
  exists v, DragonflyCache.get env (TokenBlocklistService.block_key token) c = Ok (v, c0).
Proof using Type.
  unfold TokenBlocklistService.is_revoked, bind, ret.
  destruct (DragonflyCache.get _ _ _) as [[v c']|]; [|discriminate].
  intros E. injection E as _ <-. eauto.
Qed.

End CurrentUser.

(** X8. The first authenticated request of a user hands the route a row
    of the database, on which [reset_own_password] checks the old
    password; a second request within the cache's time to live hands it
    the [SimpleNamespace] rebuilt from the cache, on which
    [reset_own_password] raises [AttributeError] whatever the passwords
    are. *)
Theorem reset_own_password_fails_for_cached_user `{Security}
        (int_of_str : string -> option Z) (env env' : Env) (w w1 : World)
        (token : string) (u : UserORM) (c2 : DragonflyCache.t) :
  0 <= now env ->
  0 < DragonflyCache.ttl_seconds (cache w) ->
  redis_up env' = redis_up env ->
  now env' < now env + DragonflyCache.ttl_seconds (cache w) ->
  Dependencies.get_current_user int_of_str env token w = Ok (ORMUser u, w1) ->
  decode_access_token token (now env') = decode_access_token token (now env) ->
  TokenBlocklistService.is_revoked env' token (cache w1) = Ok (false, c2) ->
  (forall old_password new_password,
      AuthService.reset_own_password (ORMUser u) old_password new_password (db w1)
      <> Raise AttributeError)
  /\ exists d w2,
      Dependencies.get_current_user int_of_str env' token w1 = Ok (Namespace d, w2)
      /\ db w2 = db w1
      /\ forall old_password new_password,
          AuthService.reset_own_password (Namespace d) old_password new_password (db w2)
          = Raise AttributeError.
Proof.
  intros Hnow Hpos Hup Hearly Hcur Hdec Hrev. split.
  - intros old_password new_password. unfold AuthService.reset_own_password.
    destruct (negb (verify_password old_password (user_hashed_password u)));
      [discriminate|].
    unfold UserRepository.reset_password, UserRepository.flush_row. unfold_monad.
    discriminate.
  - destruct (get_current_user_Ok int_of_str env token w w1 _ Hcur)
      as (i & c0 & Edec & Erev0 & Eget & Eblk).
    destruct (is_revoked_get env token _ _ _ Erev0) as [v0 Eg0].
    apply cache_get_reaches in Eg0 as [_ Httl0].
    destruct (get_by_id_miss_fills_cache env i (mkWorld (db w) c0) w1 u Eget)
      as (Hdb & _ & Hent & _); cbn [db cache]; [lia | exact Hnow |].
    cbn [db cache] in Hdb, Hent.
    destruct (is_revoked_get env' token _ _ _ Hrev) as [v1 Eg1].
    pose proof (cache_entry_get_other env' _ _ _ _ _ _ _ _
                  (block_key_ne_id_key token i) Hent Eg1) as Hent2.
    pose proof (proj1 (cache_get_reaches _ _ _ _ _ Eg1)) as Hreach2.
    destruct (get_by_id_hit env' _ i (db w1) c2 _ _ Hent2 Hreach2) as (c3 & Hhit & _);
      [lia|].
    exists (UserService._serialize_user (db w) u), (mkWorld (db w1) c3).
    split; [|split; [reflexivity|reflexivity]].
    apply (get_current_user_from int_of_str env' token w1 _ _ i c2).
    + unfold Dependencies.decode_subject in *. rewrite Hdec.
      destruct (decode_access_token token (now env)) as [payload|]; [|discriminate].
      destruct (payload_sub payload) as [sub|]; [|discriminate].
      destruct (int_of_str sub) as [j|]; [|discriminate].
      unfold ret in *. injection Edec as ->. reflexivity.
    + exact Hrev.
    + exact Hhit.
    + exact Eblk.
Qed.

Lemma reset_own_password_fails_for_cached_user_witness :
  exists w1 d w2,
    Dependencies.get_current_user (H := example_security) example_int_of_str
      example_env "1" (mkWorld example_user_store (DragonflyCache.new default_settings))
    = Ok (ORMUser example_user, w1)
    /\ Dependencies.get_current_user (H := example_security) example_int_of_str
         example_env "1" w1
       = Ok (Namespace d, w2)
    /\ AuthService.reset_own_password (H := example_security) (Namespace d)
         "secret" "changed" (db w2)
       = Raise AttributeError.
Proof.
  eexists.
  assert (Hcur : Dependencies.get_current_user (H := example_security) example_int_of_str
                   example_env "1"
                   (mkWorld example_user_store (DragonflyCache.new default_settings))
                 = Ok (ORMUser example_user, _))
    by (vm_compute; reflexivity).
  destruct (reset_own_password_fails_for_cached_user (H := example_security)
              example_int_of_str example_env example_env
              (mkWorld example_user_store (DragonflyCache.new default_settings)) _
              "1" example_user _
              ltac:(simpl; lia) ltac:(simpl; lia) eq_refl ltac:(simpl; lia) Hcur eq_refl
              ltac:(vm_compute; reflexivity))
    as [_ (d & w2 & Hsecond & _ & Hraise)].
  exists d, w2. split; [exact Hcur|]. split; [exact Hsecond|]. apply Hraise.
Defined.

(** X9. [reset_own_password] on a stored user: a wrong old password is
    answered with 400 "Invalid password" and changes nothing; a right one
    replaces the hash, after which [authenticate] accepts exactly the
    passwords that verify against the hash of the new one. *)
Theorem reset_own_password_checks_old_password `{Security}
        (st : Store) (u : UserORM) (old_password new_password : string) (now' : Z) :
  user_ids_unique st -> user_emails_unique st -> In u (users st) ->
  user_deleted_at u = None -> user_is_blocked u = false ->
  (verify_password old_password (user_hashed_password u) = false ->
   AuthService.reset_own_password (ORMUser u) old_password new_password st
   = Raise (HTTPException HTTP_400_BAD_REQUEST "Invalid password"))
  /\ (verify_password old_password (user_hashed_password u) = true ->
      exists st',
        AuthService.reset_own_password (ORMUser u) old_password new_password st
        = Ok (tt, st')
        /\ forall password,
            AuthService.authenticate (user_email u) password now' st'
            = if verify_password password (get_password_hash new_password)
              then Ok (token_for u now', st')
              else Raise (HTTPException HTTP_401_UNAUTHORIZED "Invalid credentials")).
Proof.
  intros Hids Hemails Hin Hact Hblk. split; intros Hv.
  - unfold AuthService.reset_own_password. rewrite Hv. reflexivity.
  - set (u1 := mkUser (user_id u) (user_email u) (get_password_hash new_password)
                      (user_is_active u) (user_is_blocked u) (user_deleted_at u)).
    destruct (flush_row_user st u u1 Hids Hemails Hin eq_refl eq_refl)
      as (st1 & Hflush & Hids1 & Hemails1 & Hin1).
    exists st1. split.
    + unfold AuthService.reset_own_password. rewrite Hv. cbn [negb].
      unfold UserRepository.reset_password. fold u1. unfold bind at 1. unfold bind at 1.
      rewrite Hflush. reflexivity.
    + intros password.
      pose proof (authenticate_known st1 u1 password now' Hemails1 Hin1) as Hauth.
      cbn [user_email user_deleted_at user_hashed_password user_is_blocked u1] in Hauth.
      rewrite Hact, Hblk in Hauth. cbn [is_None] in Hauth. rewrite Hauth.
      destruct (verify_password password (get_password_hash new_password)); reflexivity.
Qed.

Lemma reset_own_password_checks_old_password_witness :
  exists st',
    AuthService.reset_own_password (H := example_security) (ORMUser example_user)
      "secret" "changed" example_user_store = Ok (tt, st')
    /\ AuthService.authenticate (H := example_security) "ada@example.com" "changed" 1000 st'
       = Ok ("1", st')
    /\ AuthService.authenticate (H := example_security) "ada@example.com" "secret" 1000 st'
       = Raise (HTTPException HTTP_401_UNAUTHORIZED "Invalid credentials").
Proof.
  destruct (reset_own_password_checks_old_password (H := example_security)
              example_user_store example_user "secret" "changed" 1000)
    as [_ Hright].
  - repeat constructor. intros [].
  - repeat constructor. intros [].
  - now left.
  - reflexivity.
  - reflexivity.
  - destruct (Hright eq_refl) as (st' & Hreset & Hauth).
    exists st'. split; [exact Hreset|]. split.
    + exact (Hauth "changed").
    + exact (Hauth "secret").
Defined.

(** ** Blocking and deleting a user takes effect on the next request *)

Lemma delete_reaches (env : Env) (c c1 : DragonflyCache.t) (key : string) :
  DragonflyCache.delete env key c = Ok (tt, c1) ->
  client_reaches_server env c1
  /\ DragonflyCache.ttl_seconds c1 = DragonflyCache.ttl_seconds c.
Proof.
  unfold client_reaches_server. destruct c as [ttl0 client fb srv]. destruct client.
  - unfold_cache. simpl. destruct (redis_up env) eqn:Eup; simpl; [|discriminate].
    intros E; inversion E; subst; simpl; auto.
  - rewrite cache_delete_fallback by reflexivity. simpl.
    intros E; inversion E; subst; simpl. split; [discriminate|reflexivity].
Qed.

(** A read that returned leaves an absent key absent. *)
Lemma get_keeps_absent (env : Env) (c c1 : DragonflyCache.t) (key key2 : string)
      (v : option CacheValue) :
  DragonflyCache.get env key2 c = Ok (v, c1) ->
  cached_at env c key = None ->
  cached_at env c1 key = None.
Proof.
  unfold cached_at. destruct c as [ttl0 client fb srv]. destruct client.
  - unfold_cache. simpl. destruct (redis_up env) eqn:Eup; simpl; [|discriminate].
    destruct (srv !! key2) as [[v2 e2]|]; [destruct (now env <? e2)|];
      intros E; inversion E; subst; simpl; rewrite ?Eup; simpl; auto.
  - intros Hget Habs.
    destruct (cache_get_effect env key2 (DragonflyCache.mk ttl0 false fb srv) eq_refl)
      as (v2 & c2 & E & Hc & Hsub & Hother & _).
    rewrite E in Hget. injection Hget as _ <-.
    rewrite cache_get_fallback in Habs by reflexivity.
    rewrite cache_get_fallback by exact Hc.
    cbn [DragonflyCache._fallback] in Habs. unfold AsyncTTLCache.get in *.
    destruct (AsyncTTLCache._expirations (DragonflyCache._fallback c2) !! key)
      as [e|] eqn:Ee; [|reflexivity].
    destruct ((e =? 0) || (e <? now env)) eqn:Ex; [reflexivity|].
    destruct (AsyncTTLCache._store (DragonflyCache._fallback c2) !! key) as [x|] eqn:Es;
      [|reflexivity].
    exfalso. destruct (String.eqb_spec key key2) as [->|Hne].
    + revert E Ee. rewrite cache_get_fallback by reflexivity. cbn [DragonflyCache._fallback].
      unfold AsyncTTLCache.get, AsyncTTLCache.pop.
      destruct (AsyncTTLCache._expirations fb !! key2) as [e2|] eqn:E2;
        [destruct ((e2 =? 0) || (e2 <? now env)) eqn:Ex2|];
        intros E; injection E as _ <-; cbn; rewrite ?lookup_delete_eq; try discriminate.
      intros Ee. rewrite E2 in Ee. injection Ee as <-.
      cbn in Es. congruence.
    + destruct (Hother key Hne) as [Hs Hx]. unfold stored, expiration in Hs, Hx.
      cbn [DragonflyCache._fallback] in Hs, Hx. rewrite Hx in Ee. rewrite Hs in Es.
      rewrite Ee, Ex, Es in Habs. discriminate.
Qed.

Lemma invalidate_cache_reaches (env : Env) (user : UserORM) (w w' : World) :
  UserService._invalidate_cache env (Some user) w = Ok (tt, w') ->
  client_reaches_server env (cache w')
  /\ DragonflyCache.ttl_seconds (cache w') = DragonflyCache.ttl_seconds (cache w).
Proof.
  unfold UserService._invalidate_cache. unfold bind, in_cache. intros Hinv.
  destruct (DragonflyCache.delete env (UserService.email_key (user_email user)) (cache w))
    as [[[] c1]|e] eqn:E1; [|discriminate].
  apply delete_reaches in E1 as [Hr1 Ht1].
  destruct (truthy_int (user_id user)); simpl in Hinv.
  - destruct (DragonflyCache.delete env (UserService.id_key (user_id user)) c1)
      as [[[] c2]|e] eqn:E2; [|discriminate].
    apply delete_reaches in E2 as [Hr2 Ht2].
    inversion Hinv; subst; simpl. split; [assumption|congruence].
  - unfold ret in Hinv. inversion Hinv; subst; simpl. auto.
Qed.

Lemma get_by_id_absent (st : Store) (i : Z) :
  (forall u, In u (users st) -> user_id u = i -> user_deleted_at u <> None) ->
  UserRepository.get_by_id i st = Ok (None, st).
Proof.
  intros Hno. unfold UserRepository.get_by_id. unfold_monad.
  replace (List.filter _ (users st)) with (@nil UserORM); [reflexivity|].
  symmetry. apply filter_none. intros u Hu.
  destruct (user_id u =? i) eqn:Ei; [|reflexivity]. apply Z.eqb_eq in Ei.
  specialize (Hno u Hu Ei). destruct (user_deleted_at u); [reflexivity|congruence].
Qed.

Lemma map_user_id_replace (user : UserORM) (us : list UserORM) :
  map user_id (map (replace_user user) us) = map user_id us.
Proof.
  induction us as [|x us IH]; [reflexivity|]. simpl. rewrite IH. f_equal.
  unfold replace_user. destruct (user_id x =? user_id user) eqn:E; [|reflexivity].
  apply Z.eqb_eq in E. congruence.
Qed.

Lemma In_replace_user (user old : UserORM) (us : list UserORM) :
  In old us -> user_id old = user_id user -> In user (map (replace_user user) us).
Proof.
  intros Hin Hid. apply in_map_iff. exists old. split; [|assumption].
  unfold replace_user. rewrite Hid, Z.eqb_refl. reflexivity.
Qed.

Lemma require_user_Ok (i : Z) (incl : bool) (st st' : Store) (user : UserORM) :
  UserService._require_user i incl st = Ok (user, st') ->
  st' = st /\ In user (users st) /\ user_id user = i
  /\ (incl = false -> user_deleted_at user = None).
Proof.
  intros Hreq. pose proof (require_user_id _ _ _ _ _ Hreq) as Hid.
  revert Hreq. unfold UserService._require_user, UserRepository.get_by_id_include_deleted,
    UserRepository.get_by_id. unfold bind at 1.
  destruct incl; unfold_monad.
  - destruct (scalar_one_or_none _) as [[u|]|e] eqn:E; try discriminate.
    apply scalar_one_or_none_Some in E. simpl. intros Hr. injection Hr as Hu Hs. subst u st'.
    assert (In user (List.filter (fun u => user_id u =? i) (users st))) as Hin
        by (rewrite E; now left).
    apply List.filter_In in Hin as [Hin _]. repeat split; auto. discriminate.
  - destruct (scalar_one_or_none _) as [[u|]|e] eqn:E; try discriminate.
    apply scalar_one_or_none_Some in E. simpl.
    destruct (is_None (user_deleted_at u)) eqn:Ed; simpl; [|discriminate].
    intros Hr. injection Hr as Hu Hs. subst u st'.
    assert (In user (List.filter (fun u => (user_id u =? i)
                                           && is_None (user_deleted_at u)) (users st)))
      as Hin by (rewrite E; now left).
    apply List.filter_In in Hin as [Hin _]. repeat split; auto.
    intros _. now apply is_None_true.
Qed.

Section NextRequest.
Context `{Security}.
Variable int_of_str : string -> option Z.

(** A request whose user is not in the cache and is, in the database,
    missing, soft-deleted or blocked, is rejected. *)
Lemma get_current_user_uncached (env : Env) (token sub : string) (payload : TokenPayload)
      (w : World) (i : Z) :
  decode_access_token token (now env) = Some payload ->
  payload_sub payload = Some sub ->
  int_of_str sub = Some i ->
  client_reaches_server env (cache w) ->
  cached_at env (cache w) (UserService.id_key i) = None ->
  0 < DragonflyCache.ttl_seconds (cache w) ->
  (forall u, UserRepository.get_by_id i (db w) = Ok (Some u, db w) ->
             user_is_blocked u = true) ->
  (exists o, UserRepository.get_by_id i (db w) = Ok (o, db w)) ->
  Dependencies.get_current_user int_of_str env token w
  = Raise Dependencies.credentials_exception.
Proof using Type.
  intros Hdec Hsub Hint Hreach Habs Httl Hblk [o Hdb].
  unfold Dependencies.get_current_user, Dependencies.decode_subject.
  unfold bind at 1. rewrite Hdec, Hsub, Hint. unfold ret at 1.
  unfold bind at 1. unfold in_cache at 1.
  destruct (cache_get_total env (cache w) (TokenBlocklistService.block_key token) Hreach)
    as (v0 & c1 & Eget0).
  unfold TokenBlocklistService.is_revoked. unfold bind at 1. rewrite Eget0.
  unfold ret at 1. cbv beta iota.
  destruct (truthy_value v0); [reflexivity|].
  pose proof (get_keeps_absent _ _ _ _ _ _ Eget0 Habs) as Habs1.
  apply cache_get_reaches in Eget0 as [Hreach1 Httl1].
  destruct (cache_get_total env c1 (UserService.id_key i) Hreach1) as (v & c2 & Eget).
  unfold cached_at in Habs1. rewrite Eget in Habs1. subst v.
  unfold UserService.get_by_id. unfold bind at 1. unfold bind at 1.
  unfold in_cache at 1. cbn [cache db]. rewrite Eget.
  cbn [truthy_value]. cbv beta iota. unfold bind at 1. unfold in_db at 1. cbn [db cache].
  rewrite Hdb. destruct o as [u|]; [|reflexivity].
  apply cache_get_reaches in Eget as [Hreach2 Httl2].
  destruct (cache_set_default_total env c2 (UserService.id_key i)
              (VUser (UserService._serialize_user (db w) u)) Hreach2)
    as (c3 & Eset); [lia|].
  unfold UserService.cache_user, bind, get_store, in_cache. cbn [db cache].
  rewrite Eset. cbn [ret object_is_blocked]. unfold ret.
  rewrite (Hblk u Hdb). reflexivity.
Qed.

End NextRequest.

(** X10. Once [UserService.block_user] has returned, the next request
    that carries a token of that user is rejected by [get_current_user]
    with 401: the cached copy is gone and the row read from the database
    is blocked.  The backend may not change between the two calls. *)
Theorem block_user_rejects_next_request `{Security}
        (int_of_str : string -> option Z) (env env' : Env) (w w' : World) (i : Z)
        (blocked : UserORM) (token sub : string) (payload : TokenPayload) :
  user_ids_unique (db w) ->
  i <> 0 ->
  0 < DragonflyCache.ttl_seconds (cache w) ->
  redis_up env' = redis_up env ->
  decode_access_token token (now env') = Some payload ->
  payload_sub payload = Some sub ->
  int_of_str sub = Some i ->
  UserService.block_user env i w = Ok (blocked, w') ->
  user_id blocked = i
  /\ user_is_blocked blocked = true
  /\ In blocked (users (db w'))
  /\ Dependencies.get_current_user int_of_str env' token w'
     = Raise (HTTPException HTTP_401_UNAUTHORIZED "Could not validate credentials").
Proof.
  intros Hids Hi Httl Hup Hdec Hsub Hint Hblock.
  unfold UserService.block_user in Hblock.
  first_call Hblock as user w1 Ereq. apply in_db_Ok in Ereq as (st1 & Ereq & ->).
  apply require_user_Ok in Ereq as (-> & Hin & Hid & Hact). specialize (Hact eq_refl).
  first_call Hblock as updated w2 Eupd. apply in_db_Ok in Eupd as (st2 & Eupd & ->).
  cbn [db cache] in *.
  unfold UserRepository.set_block_status, UserRepository.flush_row in Eupd.
  unfold bind, ret, get_store, put_store in Eupd. injection Eupd as <- <-.
  first_call Hblock as x w3 Einv. destruct x. unfold ret in Hblock.
  injection Hblock as <- <-.
  set (b := mkUser (user_id user) (user_email user) (user_hashed_password user)
                   (user_is_active user) true (user_deleted_at user)) in *.
  destruct (invalidate_cache_removes_keys env env' b _ _ Einv Hup) as (Hdb & _ & Habs).
  destruct (invalidate_cache_reaches env b _ _ Einv) as (Hreach & Httl').
  cbn [db cache] in Hdb, Httl'.
  assert (Husers : users (db w3) = map (replace_user b) (users (db w)))
    by (rewrite Hdb; reflexivity).
  assert (Hin' : In b (users (db w3))).
  { rewrite Husers. now apply (In_replace_user b user). }
  assert (Hids' : user_ids_unique (db w3)).
  { unfold user_ids_unique. rewrite Husers. now rewrite map_user_id_replace. }
  assert (Hget : UserRepository.get_by_id i (db w3) = Ok (Some b, db w3)).
  { rewrite <- Hid. change (user_id user) with (user_id b).
    rewrite (get_by_id_unique (db w3) b Hids' Hin').
    cbn [user_deleted_at b]. rewrite Hact. reflexivity. }
  repeat split; auto.
  apply (get_current_user_uncached int_of_str env' token sub payload w3 i);
    try assumption.
  - eapply client_reaches_server_up; eauto.
  - subst i. apply Habs. exact Hi.
  - lia.
  - intros u Hu. rewrite Hget in Hu. injection Hu as <-. reflexivity.
  - eauto.
Qed.

Lemma block_user_rejects_next_request_witness :
  exists blocked w',
    UserService.block_user example_env 1
      (mkWorld example_user_store (DragonflyCache.new default_settings))
    = Ok (blocked, w')
    /\ Dependencies.get_current_user (H := example_security) example_int_of_str
         example_env "1" w'
       = Raise (HTTPException HTTP_401_UNAUTHORIZED "Could not validate credentials").
Proof.
  eexists. eexists.
  assert (Hblock : UserService.block_user example_env 1
                     (mkWorld example_user_store (DragonflyCache.new default_settings))
                   = Ok (_, _))
    by (vm_compute; reflexivity).
  split; [exact Hblock|].
  refine (proj2 (proj2 (proj2
    (block_user_rejects_next_request (H := example_security) example_int_of_str
       example_env example_env
       (mkWorld example_user_store (DragonflyCache.new default_settings)) _ 1 _
       "1" "1" (mkPayload (Some "1") None) _ _ _ eq_refl eq_refl eq_refl eq_refl
       Hblock)))).
  - repeat constructor. intros [].
  - discriminate.
  - reflexivity.
Defined.

(** X11. Once [UserService.delete_user] has returned, soft or hard, the
    next request that carries a token of that user is rejected by
    [get_current_user] with 401. *)
Theorem delete_user_rejects_next_request `{Security}
        (int_of_str : string -> option Z) (env env' : Env) (w w' : World) (i : Z)
        (hard : bool) (token sub : string) (payload : TokenPayload) :
  user_ids_unique (db w) ->
  i <> 0 ->
  0 < DragonflyCache.ttl_seconds (cache w) ->
  redis_up env' = redis_up env ->
  decode_access_token token (now env') = Some payload ->
  payload_sub payload = Some sub ->
  int_of_str sub = Some i ->
  UserService.delete_user env i hard w = Ok (tt, w') ->
  UserRepository.get_by_id i (db w') = Ok (None, db w')
  /\ Dependencies.get_current_user int_of_str env' token w'
     = Raise (HTTPException HTTP_401_UNAUTHORIZED "Could not validate credentials").
Proof.
  intros Hids Hi Httl Hup Hdec Hsub Hint Hdel.
  unfold UserService.delete_user in Hdel.
  first_call Hdel as user w1 Ereq. apply in_db_Ok in Ereq as (st1 & Ereq & ->).
  apply require_user_Ok in Ereq as (-> & Hin & Hid & _).
  first_call Hdel as deleted w2 Edel.
  assert (Hw2 : user_id deleted = i
                /\ DragonflyCache.ttl_seconds (cache w2) = DragonflyCache.ttl_seconds (cache w)
                /\ forall u, In u (users (db w2)) -> user_id u = i ->
                             user_deleted_at u <> None).
  { destruct hard.
    - first_call Edel as x w3 Eh. destruct x. apply in_db_Ok in Eh as (st2 & Eh & ->).
      unfold ret in Edel. injection Edel as <- <-. cbn [db cache].
      unfold UserRepository.hard_delete in Eh. unfold_monad. injection Eh as <-.
      cbn [users set_users]. repeat split; auto.
      intros u Hu Hui. apply List.filter_In in Hu as [_ Hu].
      rewrite Hid, Hui, Z.eqb_refl in Hu. discriminate.
    - apply in_db_Ok in Edel as (st2 & Edel & ->). cbn [db cache].
      unfold UserRepository.soft_delete, UserRepository.flush_row in Edel.
      unfold_monad. injection Edel as <- <-. cbn [users set_users user_id].
      repeat split; auto.
      intros u Hu Hui. apply in_map_iff in Hu as (x & Hx & Hxin).
      cbn [user_id] in Hx. destruct (user_id x =? user_id user) eqn:Ex.
      + subst u. discriminate.
      + subst u. apply Z.eqb_neq in Ex. congruence. }
  destruct Hw2 as (Hdid & Httl2 & Hgone).
  destruct (invalidate_cache_removes_keys env env' deleted _ _ Hdel Hup)
    as (Hdb & _ & Habs).
  destruct (invalidate_cache_reaches env deleted _ _ Hdel) as (Hreach & Httl').
  assert (Hget : UserRepository.get_by_id i (db w') = Ok (None, db w')).
  { apply get_by_id_absent. rewrite Hdb. exact Hgone. }
  split; [exact Hget|].
  apply (get_current_user_uncached int_of_str env' token sub payload w' i);
    try assumption.
  - eapply client_reaches_server_up; eauto.
  - rewrite <- Hdid. apply Habs. congruence.
  - lia.
  - intros u Hu. rewrite Hget in Hu. discriminate.
  - eauto.
Qed.

Lemma delete_user_rejects_next_request_witness :
  exists w',
    UserService.delete_user example_env 1 false
      (mkWorld example_user_store (DragonflyCache.new default_settings))
    = Ok (tt, w')
    /\ Dependencies.get_current_user (H := example_security) example_int_of_str
         example_env "1" w'
       = Raise (HTTPException HTTP_401_UNAUTHORIZED "Could not validate credentials").
Proof.
  eexists.
  assert (Hdel : UserService.delete_user example_env 1 false
                   (mkWorld example_user_store (DragonflyCache.new default_settings))
                 = Ok (tt, _))
    by (vm_compute; reflexivity).
  split; [exact Hdel|].
  refine (proj2
    (delete_user_rejects_next_request (H := example_security) example_int_of_str
       example_env example_env
       (mkWorld example_user_store (DragonflyCache.new default_settings)) _ 1 false
       "1" "1" (mkPayload (Some "1") None) _ _ _ eq_refl eq_refl eq_refl eq_refl Hdel)).
  - repeat constructor. intros [].
  - discriminate.
  - reflexivity.
Defined.

(** ** Grants, revocations and deletions as the privilege check sees them *)

Lemma assert_privilege_cases (st : Store) (uid : Z) (resource action : string) :
  (holds_superuser_role st uid \/ holds_privilege st uid resource action ->
   AuthService.assert_privilege uid resource action st = Ok (tt, st))
  /\ (~ holds_superuser_role st uid -> ~ holds_privilege st uid resource action ->
      AuthService.assert_privilege uid resource action st
      = Raise (AuthService.missing_privilege resource action))
  /\ (AuthService.assert_privilege uid resource action st = Ok (tt, st) ->
      holds_superuser_role st uid \/ holds_privilege st uid resource action).
Proof.
  pose proof (user_is_superuser_spec st uid) as Hsup.
  pose proof (user_has_privilege_spec st uid resource action) as Hpriv.
  destruct (user_is_superuser_total uid st) as [bs Es].
  destruct (user_has_privilege_total uid resource action st) as [bp Ep].
  assert (bs = true <-> holds_superuser_role st uid) as Hs.
  { rewrite <- Hsup, Es.
    split; [intros ->; reflexivity | intros E; inversion E; reflexivity]. }
  assert (bp = true <-> holds_privilege st uid resource action) as Hp.
  { rewrite <- Hpriv, Ep.
    split; [intros ->; reflexivity | intros E; inversion E; reflexivity]. }
  assert (AuthService.assert_privilege uid resource action st
          = if bs then Ok (tt, st)
            else if bp then Ok (tt, st)
                 else Raise (AuthService.missing_privilege resource action)) as ->.
  { unfold AuthService.assert_privilege, bind. rewrite Es.
    destruct bs; [reflexivity|]. rewrite Ep. destruct bp; reflexivity. }
  destruct bs, bp; repeat split; try reflexivity; try discriminate; intros;
    try (left; apply Hs; reflexivity); try (right; apply Hp; reflexivity).
  - exfalso. apply H, Hs. reflexivity.
  - exfalso. apply H, Hs. reflexivity.
  - exfalso. apply H0, Hp. reflexivity.
  - destruct H as [H|H]; [apply Hs in H | apply Hp in H]; discriminate.
Qed.

(** What a [get_or_create] that returned has done. *)
Lemma get_or_create_Ok (resource action : string) (d : option string)
      (st st' : Store) (p : PrivilegeORM) :
  PrivilegeRepository.get_or_create resource action d st = Ok (p, st') ->
  In p (privileges st')
  /\ privilege_key p = (resource, action)
  /\ privilege_deleted_at p = None
  /\ List.filter (fun q => key_matches resource action q && is_None (privilege_deleted_at q))
                 (privileges st') = [p]
  /\ (st' = st
      \/ (st' = set_privileges st (privileges st ++ [p])%list
          /\ p = mkPrivilege (next_id (map privilege_id (privileges st)))
                             resource action d None
          /\ List.filter (fun q => key_matches resource action q
                                   && is_None (privilege_deleted_at q))
                         (privileges st) = [])).
Proof.
  unfold PrivilegeRepository.get_or_create. unfold_monad.
  change (fun p0 => String.eqb (privilege_resource p0) resource
                    && String.eqb (privilege_action p0) action
                    && is_None (privilege_deleted_at p0))
    with (fun q => key_matches resource action q && is_None (privilege_deleted_at q)).
  destruct (scalar_one_or_none _) as [[q|]|e] eqn:E; try discriminate.
  - apply scalar_one_or_none_Some in E. intros Hr. injection Hr as Hq Hs. subst q st'.
    assert (Hin : In p (List.filter (fun q => key_matches resource action q
                                              && is_None (privilege_deleted_at q))
                                    (privileges st))) by (rewrite E; now left).
    apply List.filter_In in Hin as [Hin Hc]. apply andb_true_iff in Hc as [Hk Hd].
    apply key_matches_eq in Hk. apply is_None_true in Hd. repeat split; auto.
  - unfold PrivilegeRepository.flush_new. unfold_monad.
    destruct (existsb _ (privileges st)) eqn:Ex; [discriminate|].
    intros Hr. injection Hr as <- <-. cbn [privileges set_privileges].
    assert (E0 : List.filter (fun q => key_matches resource action q
                                       && is_None (privilege_deleted_at q))
                             (privileges st) = []).
    { destruct (List.filter _ (privileges st)) as [|a [|b l]]; [reflexivity| |];
        simpl in E; discriminate. }
    repeat split.
    + apply in_or_app. right. now left.
    + rewrite List.filter_app, E0. simpl.
      unfold key_matches. simpl. rewrite !String.eqb_refl. reflexivity.
    + right. repeat split. exact E0.
Qed.

Lemma attach_privilege_Ok (role : RoleORM) (p : PrivilegeORM) (st st' : Store) :
  role_id role <> 0 -> privilege_id p <> 0 ->
  RoleRepository.attach_privilege role p st = Ok (tt, st') ->
  In (role_id role, privilege_id p) (role_privileges st')
  /\ (st' = st
      \/ st' = set_role_privileges st
                 (role_privileges st ++ [(role_id role, privilege_id p)])%list).
Proof.
  intros Hr Hp. unfold RoleRepository.attach_privilege.
  rewrite (truthy_int_true _ Hr), (truthy_int_true _ Hp). cbn [negb orb].
  unfold_monad.
  destruct (first _) as [l|] eqn:Ef.
  - intros E. injection E as <-. split; [|now left].
    destruct (List.filter _ (role_privileges st)) as [|x xs] eqn:Efi; [discriminate|].
    assert (Hin : In x (List.filter
                          (fun l => (fst l =? role_id role) && (snd l =? privilege_id p))
                          (role_privileges st))) by (rewrite Efi; now left).
    apply List.filter_In in Hin as [Hin Hc]. apply andb_true_iff in Hc as [H1 H2].
    apply Z.eqb_eq in H1, H2. destruct x as [a b]. simpl in *. now subst.
  - unfold RoleRepository.insert_role_privilege. unfold_monad.
    destruct (existsb _ (role_privileges st)); [discriminate|].
    intros E. injection E as <-. cbn [role_privileges set_role_privileges].
    split; [|now right]. apply in_or_app. right. now left.
Qed.

Lemma role_get_by_id_store (i : Z) (incl : bool) (st st' : Store) (o : option RoleORM) :
  RoleRepository.get_by_id i incl st = Ok (o, st') -> st' = st.
Proof.
  unfold RoleRepository.get_by_id. unfold_monad.
  destruct (scalar_one_or_none _) as [?|?]; [|discriminate].
  intros E. now inversion E.
Qed.

(** X12. Once [RoleService.grant_privilege] has returned, every
    non-deleted user who is assigned the role passes [assert_privilege]
    for the granted resource and action.  Keys are as the database
    allocates them: not 0. *)
Theorem grant_privilege_authorizes_role_holders
        (st st' : Store) (rid : Z) (resource action : string) (r : option RoleORM) :
  rid <> 0 ->
  (forall p, In p (privileges st) -> privilege_id p <> 0) ->
  RoleService.grant_privilege rid resource action st = Ok (r, st') ->
  forall u,
    In u (users st) -> user_deleted_at u = None ->
    In (user_id u, rid) (user_roles st) ->
    AuthService.assert_privilege (user_id u) resource action st' = Ok (tt, st').
Proof.
  intros Hrid Hpids Hgrant u Hu Hud Hlink.
  unfold RoleService.grant_privilege in Hgrant.
  first_call Hgrant as role st0 Ereq.
  apply require_role_Ok in Ereq as (-> & Hrin & Hri & Hract). specialize (Hract eq_refl).
  first_call Hgrant as p st1 Egoc.
  apply get_or_create_Ok in Egoc as (Hpin & Hkey & Hpd & _ & Hst1).
  first_call Hgrant as x st2 Eatt. destruct x.
  assert (Hpid : privilege_id p <> 0).
  { destruct Hst1 as [->|(_ & -> & _)]; [now apply Hpids|].
    cbn [privilege_id]. pose proof (next_id_positive (map privilege_id (privileges st))).
    lia. }
  apply attach_privilege_Ok in Eatt as (Hlinked & Hst2); [|congruence|exact Hpid].
  apply role_get_by_id_store in Hgrant. subst st'.
  assert (Hsame : users st2 = users st /\ user_roles st2 = user_roles st
                  /\ roles st2 = roles st /\ privileges st2 = privileges st1).
  { destruct Hst2 as [->| ->]; destruct Hst1 as [->|(-> & _)]; repeat split. }
  destruct Hsame as (Hus & Hurs & Hrs & Hps).
  apply (assert_privilege_cases st2 (user_id u) resource action). right.
  exists u, role, p. rewrite Hus, Hurs, Hrs, Hps, Hri.
  unfold privilege_key in Hkey. injection Hkey as Hres Hact.
  rewrite Hri in Hlinked. repeat split; auto.
Qed.

Lemma grant_privilege_authorizes_role_holders_witness :
  exists r st',
    RoleService.grant_privilege 1 "users" "read" example_auditor_store = Ok (r, st')
    /\ AuthService.assert_privilege 1 "users" "read" st' = Ok (tt, st').
Proof.
  eexists. eexists.
  assert (Hgrant : RoleService.grant_privilege 1 "users" "read" example_auditor_store
                   = Ok (_, _)) by (vm_compute; reflexivity).
  split; [exact Hgrant|].
  refine (grant_privilege_authorizes_role_holders example_auditor_store _ 1
            "users" "read" _ _ _ Hgrant example_user _ eq_refl _).
  - discriminate.
  - intros p [<-|[]]. discriminate.
  - now left.
  - now left.
Defined.

(** X13. Once [RoleService.delete_role] has returned, soft or hard, a
    user whose only role it was is refused every resource and action by
    [assert_privilege], superuser role or not. *)
Theorem deleted_role_grants_nothing
        (st st' : Store) (rid uid : Z) (hard : bool) (now' : Z) :
  RoleService.delete_role rid hard now' st = Ok (tt, st') ->
  (forall r, In (uid, r) (user_roles st) -> r = rid) ->
  forall resource action,
    AuthService.assert_privilege uid resource action st'
    = Raise (HTTPException HTTP_403_FORBIDDEN
                           ("Missing privilege " ++ action ++ " on " ++ resource)).
Proof.
  intros Hdel Honly resource action.
  unfold RoleService.delete_role in Hdel.
  first_call Hdel as role st0 Ereq.
  apply require_role_Ok in Ereq as (-> & Hrin & Hri & _).
  assert (Hst' : user_roles st' = user_roles st
                 /\ forall r, In r (roles st') -> role_id r = rid ->
                              role_deleted_at r <> None).
  { destruct hard.
    - unfold RoleRepository.hard_delete in Hdel. unfold_monad. injection Hdel as <-.
      split; [reflexivity|]. cbn [roles set_roles]. intros r Hr Hid.
      apply List.filter_In in Hr as [_ Hr]. rewrite Hri, Hid, Z.eqb_refl in Hr.
      discriminate.
    - unfold RoleRepository.soft_delete, RoleRepository.flush_row in Hdel.
      unfold_monad. injection Hdel as <-.
      split; [reflexivity|]. cbn [roles set_roles role_id]. intros r Hr Hid.
      apply in_map_iff in Hr as (x & Hx & _).
      destruct (role_id x =? role_id role) eqn:Ex.
      + subst r. discriminate.
      + subst r. apply Z.eqb_neq in Ex. congruence. }
  destruct Hst' as [Hur Hgone].
  apply (assert_privilege_cases st' uid resource action).
  - intros (u & r & _ & _ & Hl & Hr & _ & Hd). rewrite Hur in Hl.
    apply (Hgone r Hr); [now apply Honly | exact Hd].
  - intros (u & r & p & _ & _ & _ & Hl & Hr & Hd & _). rewrite Hur in Hl.
    apply (Hgone r Hr); [now apply Honly | exact Hd].
Qed.

Lemma deleted_role_grants_nothing_witness :
  exists st',
    RoleService.delete_role 1 true 0 example_auditor_store = Ok (tt, st')
    /\ AuthService.assert_privilege 1 "users" "read" st'
       = Raise (HTTPException HTTP_403_FORBIDDEN "Missing privilege read on users").
Proof.
  eexists.
  assert (Hdel : RoleService.delete_role 1 true 0 example_auditor_store = Ok (tt, _))
    by (vm_compute; reflexivity).
  split; [exact Hdel|].
  refine (deleted_role_grants_nothing example_auditor_store _ 1 1 true 0 Hdel _
            "users" "read").
  intros r [E|[]]. now injection E.
Defined.

(** X14. For a soft-deleted user [assert_privilege] still succeeds when
    the user holds a non-deleted superuser role, and only then: the
    privileges of the user's other roles do not count, because
    [user_has_privilege] looks at the user's [deleted_at] and
    [user_is_superuser] does not. *)
Theorem assert_privilege_soft_deleted_user
        (st : Store) (u : UserORM) (resource action : string) :
  user_ids_unique st -> In u (users st) -> user_deleted_at u <> None ->
  (AuthService.assert_privilege (user_id u) resource action st = Ok (tt, st)
   <-> holds_superuser_role st (user_id u))
  /\ UserRepository.user_has_privilege (user_id u) resource action st = Ok (false, st).
Proof.
  intros Hids Hin Hdel.
  assert (Hno : ~ holds_privilege st (user_id u) resource action).
  { intros (u' & r & p & Hu' & Hid & Hud & _).
    pose proof (NoDup_map_eq user_id (users st) u' u Hids Hu' Hin Hid) as ->.
    contradiction. }
  destruct (assert_privilege_cases st (user_id u) resource action) as (Hyes & _ & Honly).
  split; [split|].
  - intros Hok. destruct (Honly Hok) as [Hs|Hp]; [exact Hs | contradiction].
  - intros Hs. apply Hyes. now left.
  - destruct (user_has_privilege_total (user_id u) resource action st) as [[|] Eb];
      [|exact Eb].
    exfalso. apply Hno. now apply user_has_privilege_spec.
Qed.

Lemma assert_privilege_soft_deleted_user_witness :
  AuthService.assert_privilege 1 "roles" "delete" example_deleted_admin_store
  = Ok (tt, example_deleted_admin_store)
  /\ UserRepository.user_has_privilege 1 "users" "read" example_deleted_admin_store
     = Ok (false, example_deleted_admin_store).
Proof.
  split.
  - apply (assert_privilege_soft_deleted_user example_deleted_admin_store
             (mkUser 1 "root@example.com" "hashed:secret" false false (Some 1700000000))
             "roles" "delete").
    + repeat constructor. intros [].
    + now left.
    + discriminate.
    + exists (mkUser 1 "root@example.com" "hashed:secret" false false (Some 1700000000)),
        (mkRole 1 "admin" true None).
      simpl. repeat split; auto.
  - reflexivity.
Defined.

Lemma in_db_same_store {A} (m : M A) (w : World) (a : A) :
  m (db w) = Ok (a, db w) -> in_db m w = Ok (a, w).
Proof. unfold in_db. intros ->. destruct w; reflexivity. Qed.

(** X15. A request that passes [require_superuser] passes
    [require_privilege] for every resource and action, with the same user
    object and the same state afterwards. *)
Theorem superuser_passes_every_require_privilege `{Security}
        (int_of_str : string -> option Z) (env : Env) (token : string)
        (w w' : World) (o : UserObject) :
  Dependencies.require_superuser int_of_str env token w = Ok (o, w') ->
  forall resource action,
    Dependencies.require_privilege int_of_str resource action env token w = Ok (o, w').
Proof.
  intros Hsup resource action.
  unfold Dependencies.require_superuser in Hsup.
  first_call Hsup as current_user w1 Ecur.
  first_call Hsup as super w2 Esup.
  apply in_db_Ok in Esup as (st2 & Esup & ->).
  destruct (user_is_superuser_total (object_id current_user) (db w1)) as [b Eb].
  rewrite Eb in Esup. injection Esup as -> <-.
  destruct super; [|discriminate]. unfold ret in Hsup. injection Hsup as <- <-.
  unfold Dependencies.require_privilege. unfold bind at 1. rewrite Ecur.
  unfold bind at 1.
  rewrite (in_db_same_store _ w1 tt).
  - destruct w1; reflexivity.
  - apply assert_privilege_cases. left. now apply user_is_superuser_spec.
Qed.

Lemma superuser_passes_every_require_privilege_witness :
  exists o w',
    Dependencies.require_superuser (H := example_security) example_int_of_str
      example_env "1" (mkWorld example_admin_store (DragonflyCache.new default_settings))
    = Ok (o, w')
    /\ Dependencies.require_privilege (H := example_security) example_int_of_str
         "roles" "delete" example_env "1"
         (mkWorld example_admin_store (DragonflyCache.new default_settings))
       = Ok (o, w').
Proof.
  eexists. eexists.
  assert (Hsup : Dependencies.require_superuser (H := example_security)
                   example_int_of_str example_env "1"
                   (mkWorld example_admin_store (DragonflyCache.new default_settings))
                 = Ok (_, _)) by (vm_compute; reflexivity).
  split; [exact Hsup|].
  exact (superuser_passes_every_require_privilege (H := example_security)
           example_int_of_str example_env "1" _ _ _ Hsup "roles" "delete").
Defined.

(** ** Replacing the privileges of a role *)

Lemma active_with_key_true (k : string * string) (q : PrivilegeORM) :
  active_with_key k q = true <-> privilege_key q = k /\ privilege_deleted_at q = None.
Proof.
  unfold active_with_key. rewrite andb_true_iff, key_matches_eq, is_None_true.
  destruct k; reflexivity.
Qed.

Lemma NoDup_ids_append (ps : list PrivilegeORM) (resource action : string)
      (d : option string) :
  List.NoDup (map privilege_id ps) ->
  List.NoDup (map privilege_id
                (ps ++ [mkPrivilege (next_id (map privilege_id ps)) resource action d None])).
Proof.
  intros Hnd. rewrite List.map_app. simpl.
  apply NoDup_app_remove_l with (l := []). simpl.
  apply Permutation_NoDup with (l := next_id (map privilege_id ps) :: map privilege_id ps).
  - apply Permutation_cons_append.
  - constructor; [apply next_id_fresh | exact Hnd].
Qed.

(** What a [_sync_privileges] that returned has done. *)
Lemma sync_privileges_Ok (role : RoleORM) (specs : list (string * string)) :
  role_id role <> 0 ->
  forall st st',
    List.NoDup (map privilege_id (privileges st)) ->
    (forall p, In p (privileges st) -> privilege_id p <> 0) ->
    RoleService._sync_privileges role specs st = Ok (tt, st') ->
    List.NoDup (map privilege_id (privileges st'))
    /\ (forall p, In p (privileges st') -> privilege_id p <> 0)
    /\ (forall p, In p (privileges st) -> In p (privileges st'))
    /\ (forall l, In l (role_privileges st) -> In l (role_privileges st'))
    /\ (forall k, List.filter (active_with_key k) (privileges st) <> [] ->
                  List.filter (active_with_key k) (privileges st')
                  = List.filter (active_with_key k) (privileges st))
    /\ (forall l, In l (role_privileges st') ->
                  In l (role_privileges st)
                  \/ exists p, In p (privileges st') /\ privilege_deleted_at p = None
                               /\ In (privilege_key p) specs
                               /\ l = (role_id role, privilege_id p))
    /\ (forall s, In s specs ->
                  exists p, List.filter (active_with_key s) (privileges st') = [p]
                            /\ In (role_id role, privilege_id p) (role_privileges st'))
    /\ (forall q, In q (privileges st') ->
                  In q (privileges st)
                  \/ (privilege_deleted_at q = None /\ In (privilege_key q) specs))
    /\ roles st' = roles st /\ users st' = users st /\ user_roles st' = user_roles st.
Proof.
  intros Hrid. induction specs as [|spec specs IH]; intros st st' Hnd Hnz Hsync.
  - unfold RoleService._sync_privileges in Hsync. simpl in Hsync. unfold ret in Hsync.
    injection Hsync as <-. repeat split; auto. intros s [].
  - unfold RoleService._sync_privileges in Hsync. cbn [for_each] in Hsync.
    first_call Hsync as x st2 Ebody. destruct x.
    first_call Ebody as p st1 Egoc.
    apply get_or_create_Ok in Egoc as (Hpin & Hkey & Hpd & Hfil & Hst1).
    assert (Hnd1 : List.NoDup (map privilege_id (privileges st1))).
    { destruct Hst1 as [-> | (-> & -> & _)]; [exact Hnd|]. now apply NoDup_ids_append. }
    assert (Hnz1 : forall q, In q (privileges st1) -> privilege_id q <> 0).
    { destruct Hst1 as [-> | (-> & -> & _)]; [exact Hnz|].
      intros q Hq. cbn [privileges set_privileges] in Hq.
      apply in_app_or in Hq as [Hq|[<-|[]]]; [now apply Hnz|].
      cbn [privilege_id].
      pose proof (next_id_positive (map privilege_id (privileges st))). lia. }
    apply attach_privilege_Ok in Ebody as (Hlinked & Hst2); [|exact Hrid|now apply Hnz1].
    assert (Hps2 : privileges st2 = privileges st1)
      by (destruct Hst2 as [-> | ->]; reflexivity).
    fold (RoleService._sync_privileges role specs) in Hsync.
    destruct (IH st2 st') as (Hnd' & Hnz' & Hmono & Hlmono & Hstable & Hnew & Hall & Hadd & Hr & Hu & Hur);
      [rewrite Hps2; exact Hnd1 | rewrite Hps2; exact Hnz1 | exact Hsync |].
    assert (Hmono1 : forall q, In q (privileges st) -> In q (privileges st1)).
    { destruct Hst1 as [-> | (-> & _)]; [auto|].
      intros q Hq. cbn [privileges set_privileges]. apply in_or_app. now left. }
    assert (Hstable1 : forall k, List.filter (active_with_key k) (privileges st) <> [] ->
                                 List.filter (active_with_key k) (privileges st1)
                                 = List.filter (active_with_key k) (privileges st)).
    { destruct Hst1 as [-> | (-> & Hp & Hempty)]; [reflexivity|].
      intros k Hk. cbn [privileges set_privileges]. rewrite List.filter_app.
      cbn [List.filter]. destruct (active_with_key k p) eqn:Ek; [|apply app_nil_r].
      exfalso. apply Hk. apply active_with_key_true in Ek as [Ek _].
      rewrite <- Ek, Hkey. exact Hempty. }
    assert (Hlinks1 : forall l, In l (role_privileges st2) ->
                                In l (role_privileges st)
                                \/ l = (role_id role, privilege_id p)).
    { intros l Hl. destruct Hst2 as [-> | ->].
      - left. destruct Hst1 as [-> | (-> & _)]; exact Hl.
      - cbn [role_privileges set_role_privileges] in Hl.
        apply in_app_or in Hl as [Hl|[<-|[]]]; [left|now right].
        destruct Hst1 as [-> | (-> & _)]; exact Hl. }
    assert (Hlmono1 : forall l, In l (role_privileges st) -> In l (role_privileges st2)).
    { intros l Hl. destruct Hst2 as [-> | ->]; destruct Hst1 as [-> | (-> & _)];
        cbn [role_privileges set_role_privileges set_privileges]; auto;
        apply in_or_app; now left. }
    assert (Hfil' : List.filter (active_with_key spec) (privileges st') = [p]).
    { rewrite Hstable; rewrite Hps2; unfold active_with_key; rewrite Hfil;
        [reflexivity | discriminate]. }
    repeat split.
    + exact Hnd'.
    + exact Hnz'.
    + intros q Hq. apply Hmono. rewrite Hps2. now apply Hmono1.
    + intros l Hl. now apply Hlmono, Hlmono1.
    + intros k Hk. rewrite Hstable; rewrite Hps2, Hstable1; auto.
    + intros l Hl. destruct (Hnew l Hl) as [Hold|(q & Hq & Hqd & Hqk & ->)].
      * destruct (Hlinks1 l Hold) as [Hst | ->]; [now left|]. right.
        exists p. repeat split; auto.
        -- apply Hmono. now rewrite Hps2.
        -- rewrite Hkey. destruct spec. now left.
      * right. exists q. repeat split; auto. now right.
    + intros s [<-|Hs].
      * exists p. split; [exact Hfil'|]. now apply Hlmono.
      * now apply Hall.
    + intros q Hq. destruct (Hadd q Hq) as [Hq2|[Hqd Hqk]].
      * rewrite Hps2 in Hq2. destruct Hst1 as [-> | (-> & _ & _)]; [now left|].
        cbn [privileges set_privileges] in Hq2.
        apply in_app_or in Hq2 as [Hq2|[<-|[]]]; [now left|]. right.
        split; [exact Hpd|]. rewrite Hkey. destruct spec. now left.
      * right. split; [exact Hqd | now right].
    + rewrite Hr. destruct Hst2 as [-> | ->]; destruct Hst1 as [-> | (-> & _)]; reflexivity.
    + rewrite Hu. destruct Hst2 as [-> | ->]; destruct Hst1 as [-> | (-> & _)]; reflexivity.
    + rewrite Hur. destruct Hst2 as [-> | ->]; destruct Hst1 as [-> | (-> & _)]; reflexivity.
Qed.

Lemma only_roles_bind {A B} (m : M A) (k : A -> M B) :
  only_roles m -> (forall a, only_roles (k a)) -> only_roles (bind m k).
Proof.
  intros Hm Hk st b st' Hb. unfold bind in Hb.
  destruct (m st) as [[a st1]|] eqn:E; [|discriminate].
  destruct (Hm _ _ _ E) as (H1 & H2 & H3 & H4).
  destruct (Hk a _ _ _ Hb) as (H1' & H2' & H3' & H4').
  repeat split; congruence.
Qed.

Lemma only_roles_ret {A} (a : A) : only_roles (ret a).
Proof. intros st b st' E. unfold ret in E. injection E as _ <-. auto. Qed.

Lemma only_roles_flush_row (role : RoleORM) : only_roles (RoleRepository.flush_row role).
Proof.
  intros st a st'. unfold RoleRepository.flush_row. unfold_monad.
  intros E. injection E as _ <-. auto.
Qed.

Lemma only_roles_flush_renamed (role : RoleORM) :
  only_roles (RoleRepository.flush_renamed role).
Proof.
  intros st a st'. unfold RoleRepository.flush_renamed. unfold bind at 1.
  unfold get_store at 1. destruct (existsb _ (roles st)); [discriminate|].
  apply only_roles_flush_row.
Qed.

Lemma only_roles_assert (exclude : option Z) :
  only_roles (RoleRepository._assert_single_super_role exclude).
Proof.
  intros st a st'. rewrite assert_single_super_role_eq.
  destruct (List.filter _ (roles st)) as [|x [|y l]]; try discriminate.
  intros E. injection E as _ <-. auto.
Qed.

Lemma only_roles_update_role (role : RoleORM) (name : option string) (su : option bool) :
  only_roles (RoleRepository.update_role role name su).
Proof.
  unfold RoleRepository.update_role.
  apply only_roles_bind.
  - destruct (truthy_opt_str name); [|apply only_roles_ret].
    apply only_roles_bind; [apply only_roles_flush_renamed|].
    intros _. apply only_roles_ret.
  - intros r1. apply only_roles_bind.
    + destruct su as [b|]; [|apply only_roles_ret].
      destruct (negb (Bool.eqb b (role_is_superuser r1))); [|apply only_roles_ret].
      apply only_roles_bind.
      * destruct b; [apply only_roles_assert | apply only_roles_ret].
      * intros _. apply only_roles_ret.
    + intros r2. apply only_roles_bind; [apply only_roles_flush_row|].
      intros _. apply only_roles_ret.
Qed.

(** X16. [RoleService.update_role] with a list of privileges replaces
    the role's privileges: once it has returned, the role is linked to a
    stored privilege exactly when that privilege is not soft-deleted and
    its resource and action are in the list.  Keys are as the database
    allocates them: unique and not 0. *)
Theorem update_role_replaces_privileges
        (st st' : Store) (rid : Z) (name : option string)
        (specs : list (string * string)) (su : option bool) (r' : RoleORM) :
  rid <> 0 ->
  List.NoDup (map privilege_id (privileges st)) ->
  (forall p, In p (privileges st) -> privilege_id p <> 0) ->
  RoleService.update_role_commit rid name (Some specs) su st = Ok (r', st') ->
  forall p,
    In p (privileges st') ->
    (In (rid, privilege_id p) (role_privileges st')
     <-> privilege_deleted_at p = None /\ In (privilege_key p) specs).
Proof.
  intros Hrid Hnd Hnz Hupd p Hp.
  rewrite update_role_commit_eq in Hupd.
  destruct (RoleService._require_role rid false st) as [[role st0]|] eqn:Ereq;
    [|discriminate].
  apply require_role_Ok in Ereq as (-> & Hrin & Hri & _).
  destruct (RoleRepository.update_role role name su st) as [[updated st1]|e] eqn:Eupd;
    [|destruct e; discriminate].
  destruct (only_roles_update_role role name su _ _ _ Eupd) as (Hps1 & Hrp1 & _ & _).
  apply update_role_Ok in Eupd as (Hid & _).
  destruct (update_sync updated (Some specs) st1) as [[x st2]|] eqn:Esync; [|discriminate].
  injection Hupd as -> ->. destruct x.
  unfold update_sync in Esync. first_call Esync as x st2 Eclear. destruct x.
  unfold RoleService.clear_privileges in Eclear. unfold_monad. injection Eclear as <-.
  assert (Hur : role_id r' = rid) by congruence.
  set (cleared := set_role_privileges st1 _) in Esync.
  assert (Hndc : List.NoDup (map privilege_id (privileges cleared)))
    by (subst cleared; cbn [privileges set_role_privileges]; rewrite Hps1; exact Hnd).
  assert (Hnzc : forall q, In q (privileges cleared) -> privilege_id q <> 0)
    by (subst cleared; cbn [privileges set_role_privileges]; rewrite Hps1; exact Hnz).
  assert (Hrid' : role_id r' <> 0) by congruence.
  destruct (sync_privileges_Ok r' specs Hrid' cleared st' Hndc Hnzc Esync)
    as (Hnd' & _ & _ & _ & _ & Hnew & Hall & Hadd & _).
  rewrite Hur in *. split.
  - intros Hlink. destruct (Hnew _ Hlink) as [Hold|(q & Hq & Hqd & Hqk & Heq)].
    + destruct (Hadd p Hp) as [Hpc|Hfresh]; [|exact Hfresh]. exfalso.
      subst cleared. cbn [privileges role_privileges set_role_privileges] in Hold, Hpc.
      apply List.filter_In in Hold as [_ Hc]. cbn [fst snd] in Hc.
      rewrite Hur, Z.eqb_refl in Hc. cbn [andb] in Hc. apply negb_true_iff in Hc.
      assert (Hex : existsb (fun p0 => privilege_id p0 =? privilege_id p) (privileges st1)
                    = true); [|congruence].
      apply existsb_exists. exists p. split; [exact Hpc | apply Z.eqb_refl].
    + injection Heq as Heq.
      pose proof (NoDup_map_eq privilege_id _ p q Hnd' Hp Hq Heq) as ->. auto.
  - intros [Hd Hk]. destruct (Hall _ Hk) as (q & Hfil & Hlink).
    assert (Hin : In p (List.filter (active_with_key (privilege_key p)) (privileges st')))
      by (apply List.filter_In; split; [exact Hp | now apply active_with_key_true]).
    rewrite Hfil in Hin. destruct Hin as [->|[]]. exact Hlink.
Qed.

Lemma update_role_replaces_privileges_witness :
  exists r' st',
    RoleService.update_role_commit 1 None (Some [("roles", "read")]) None example_role_store
    = Ok (r', st')
    /\ (In (1, 2) (role_privileges st')
        <-> @None Z = None /\ In ("roles", "read") [("roles", "read")])
    /\ (In (1, 1) (role_privileges st')
        <-> @None Z = None /\ In ("users", "read") [("roles", "read")]).
Proof.
  eexists. eexists.
  assert (Hupd : RoleService.update_role_commit 1 None (Some [("roles", "read")]) None
                   example_role_store = Ok (_, _)) by (vm_compute; reflexivity).
  split; [exact Hupd|].
  assert (Hnd : List.NoDup (map privilege_id (privileges example_role_store)))
    by (repeat constructor; intros []).
  assert (Hnz : forall p, In p (privileges example_role_store) -> privilege_id p <> 0)
    by (intros p [<-|[]]; discriminate).
  split.
  - apply (update_role_replaces_privileges example_role_store _ 1 None
             [("roles", "read")] None _ ltac:(discriminate) Hnd Hnz Hupd
             (mkPrivilege 2 "roles" "read" None None)).
    simpl. auto.
  - apply (update_role_replaces_privileges example_role_store _ 1 None
             [("roles", "read")] None _ ltac:(discriminate) Hnd Hnz Hupd
             example_privilege).
    simpl. auto.
Defined.

(** ** Deleting and restoring privileges *)

Lemma privilege_get_by_id_Ok (i : Z) (incl : bool) (st st' : Store) (p : PrivilegeORM) :
  PrivilegeRepository.get_by_id i incl st = Ok (Some p, st') ->
  st' = st /\ In p (privileges st) /\ privilege_id p = i
  /\ (incl = false -> privilege_deleted_at p = None).
Proof.
  unfold PrivilegeRepository.get_by_id. unfold_monad.
  destruct (scalar_one_or_none _) as [[q|]|e] eqn:E; try discriminate.
  intros Hr. injection Hr as Hq Hs. subst q st'.
  apply scalar_one_or_none_Some in E.
  split; [reflexivity|]. destruct incl; cbn [negb] in E.
  - assert (Hin : In p (List.filter (fun p => privilege_id p =? i) (privileges st)))
      by (rewrite E; now left).
    apply List.filter_In in Hin as [Hin Hid]. apply Z.eqb_eq in Hid.
    repeat split; auto. discriminate.
  - assert (Hin : In p (List.filter (fun p => is_None (privilege_deleted_at p))
                          (List.filter (fun p => privilege_id p =? i) (privileges st))))
      by (rewrite E; now left).
    apply List.filter_In in Hin as [Hin Hd]. apply List.filter_In in Hin as [Hin Hid].
    apply Z.eqb_eq in Hid. apply is_None_true in Hd. repeat split; auto.
Qed.

Lemma require_privilege_Ok (i : Z) (incl : bool) (st st' : Store) (p : PrivilegeORM) :
  PrivilegeService._require_privilege i incl st = Ok (p, st') ->
  st' = st /\ In p (privileges st) /\ privilege_id p = i
  /\ (incl = false -> privilege_deleted_at p = None).
Proof.
  unfold PrivilegeService._require_privilege. intros Hreq.
  first_call Hreq as o st0 Eget. destruct o as [q|]; [|discriminate].
  apply privilege_get_by_id_Ok in Eget as (-> & Hin & Hid & Hd).
  destruct (negb (is_None (privilege_deleted_at q)) && negb incl); [discriminate|].
  unfold ret in Hreq. injection Hreq as <- <-. auto.
Qed.

(** X17. Once [PrivilegeService.delete_privilege] has returned, soft or
    hard, every user without a superuser role is refused the resource and
    action of the deleted privilege by [assert_privilege]. *)
Theorem deleted_privilege_denies_non_superusers
        (st st' : Store) (pid : Z) (hard : bool) (now' : Z) :
  privilege_unique st ->
  PrivilegeService.delete_privilege pid hard now' st = Ok (tt, st') ->
  exists p,
    In p (privileges st) /\ privilege_id p = pid
    /\ forall uid,
        ~ holds_superuser_role st' uid ->
        AuthService.assert_privilege uid (privilege_resource p) (privilege_action p) st'
        = Raise (HTTPException HTTP_403_FORBIDDEN
                   ("Missing privilege " ++ privilege_action p ++ " on "
                    ++ privilege_resource p)).
Proof.
  intros Huq Hdel. unfold PrivilegeService.delete_privilege in Hdel.
  first_call Hdel as p st0 Ereq.
  apply require_privilege_Ok in Ereq as (-> & Hin & Hid & _).
  exists p. split; [exact Hin|]. split; [exact Hid|].
  assert (Hgone : forall q, In q (privileges st') -> privilege_key q = privilege_key p ->
                            privilege_deleted_at q <> None).
  { assert (Hsame : forall x, In x (privileges st) -> privilege_key x = privilege_key p ->
                              x = p)
      by (intros x Hx Hk; exact (NoDup_map_eq privilege_key _ x p Huq Hx Hin Hk)).
    destruct hard.
    - unfold PrivilegeRepository.hard_delete in Hdel. unfold_monad. injection Hdel as <-.
      cbn [privileges set_privileges]. intros q Hq Hk.
      apply List.filter_In in Hq as [Hq Hc]. rewrite (Hsame q Hq Hk) in Hc.
      rewrite Z.eqb_refl in Hc. discriminate.
    - unfold PrivilegeRepository.soft_delete, PrivilegeRepository.flush_row in Hdel.
      unfold_monad. injection Hdel as <-.
      cbn [privileges set_privileges privilege_id]. intros q Hq Hk.
      apply in_map_iff in Hq as (x & Hx & Hxin).
      destruct (privilege_id x =? privilege_id p) eqn:Ex.
      + subst q. discriminate.
      + subst q. rewrite (Hsame x Hxin Hk) in Ex. rewrite Z.eqb_refl in Ex.
        discriminate. }
  intros uid Hns.
  apply (assert_privilege_cases st' uid (privilege_resource p) (privilege_action p));
    [exact Hns|].
  intros (u & r & q & _ & _ & _ & _ & _ & _ & _ & Hq & Hqd & Hres & Hact).
  apply (Hgone q Hq); [|exact Hqd]. unfold privilege_key. congruence.
Qed.

Lemma deleted_privilege_denies_non_superusers_witness :
  AuthService.assert_privilege 1 "users" "read" example_reader_store
  = Ok (tt, example_reader_store)
  /\ exists st',
      PrivilegeService.delete_privilege 1 false 1700000000 example_reader_store
      = Ok (tt, st')
      /\ AuthService.assert_privilege 1 "users" "read" st'
         = Raise (HTTPException HTTP_403_FORBIDDEN "Missing privilege read on users").
Proof.
  split; [reflexivity|]. eexists.
  assert (Hdel : PrivilegeService.delete_privilege 1 false 1700000000
                   example_reader_store = Ok (tt, _)) by (vm_compute; reflexivity).
  split; [exact Hdel|].
  destruct (deleted_privilege_denies_non_superusers example_reader_store _ 1 false
              1700000000 ltac:(repeat constructor; intros []) Hdel)
    as (p & Hp & Hid & Hdenied).
  destruct Hp as [<-|[]].
  apply Hdenied. intros (u & r & _ & _ & _ & Hr & Hsu & _).
  destruct Hr as [<-|[]]. discriminate.
Defined.

Lemma replace_restores (p p' : PrivilegeORM) (ps : list PrivilegeORM) :
  List.NoDup (map privilege_id ps) -> In p ps -> privilege_id p' = privilege_id p ->
  map (fun q => if privilege_id q =? privilege_id p then p else q)
      (map (fun q => if privilege_id q =? privilege_id p' then p' else q) ps)
  = ps.
Proof.
  intros Hnd Hin Hid. rewrite map_map. rewrite <- (map_id ps) at 2.
  apply map_ext_in. intros q Hq. rewrite Hid.
  destruct (privilege_id q =? privilege_id p) eqn:E.
  - rewrite Hid, Z.eqb_refl. apply Z.eqb_eq in E.
    symmetry. exact (NoDup_map_eq privilege_id ps q p Hnd Hq Hin E).
  - rewrite E. reflexivity.
Qed.

(** X18. Soft-deleting a privilege and restoring it brings the modelled
    columns back: in between the privilege is not found as an active one;
    [restore_privilege] hands back a row with the id, resource, action and
    description of the original and no [deleted_at], which is found as an
    active one again; the table holds the same ids, its other rows are the
    rows it had, and the other tables are as before the deletion.
    ([updated_at], which every UPDATE rewrites, is not among the columns
    the rows carry here.) *)
Theorem soft_delete_restore_privilege_round_trip
        (st : Store) (p : PrivilegeORM) (now' : Z) :
  List.NoDup (map privilege_id (privileges st)) ->
  In p (privileges st) ->
  privilege_deleted_at p = None ->
  exists st1 restored st2,
    PrivilegeService.delete_privilege (privilege_id p) false now' st = Ok (tt, st1)
    /\ PrivilegeService._require_privilege (privilege_id p) false st1
       = Raise (HTTPException HTTP_404_NOT_FOUND "Privilege not found")
    /\ PrivilegeService.restore_privilege (privilege_id p) st1 = Ok (restored, st2)
    /\ privilege_id restored = privilege_id p
    /\ privilege_resource restored = privilege_resource p
    /\ privilege_action restored = privilege_action p
    /\ privilege_description restored = privilege_description p
    /\ privilege_deleted_at restored = None
    /\ PrivilegeService._require_privilege (privilege_id p) false st2 = Ok (restored, st2)
    /\ map privilege_id (privileges st2) = map privilege_id (privileges st)
    /\ (forall q, privilege_id q <> privilege_id p ->
                  (In q (privileges st2) <-> In q (privileges st)))
    /\ role_privileges st2 = role_privileges st /\ roles st2 = roles st
    /\ users st2 = users st /\ user_roles st2 = user_roles st.
Proof.
  intros Hnd Hin Hact.
  set (deleted := mkPrivilege (privilege_id p) (privilege_resource p) (privilege_action p)
                              (privilege_description p) (Some now')).
  set (st1 := set_privileges st
                (map (fun q => if privilege_id q =? privilege_id deleted then deleted else q)
                     (privileges st))).
  assert (Hfil : List.filter (fun q => privilege_id q =? privilege_id p) (privileges st)
                 = [p]).
  { rewrite (filter_unique_key privilege_id _ (privileges st) p Hnd Hin).
    - now rewrite Z.eqb_refl.
    - intros x _ Hx. now apply Z.eqb_eq in Hx. }
  assert (Hnd1 : List.NoDup (map privilege_id (privileges st1))).
  { subst st1. cbn [privileges set_privileges]. rewrite map_map.
    erewrite map_ext_in; [exact Hnd|]. intros q _. cbn beta.
    destruct (privilege_id q =? privilege_id deleted) eqn:E; [|reflexivity].
    apply Z.eqb_eq in E. symmetry. exact E. }
  assert (Hin1 : In deleted (privileges st1)).
  { subst st1. cbn [privileges set_privileges]. apply in_map_iff. exists p.
    split; [|exact Hin]. cbn [privilege_id deleted]. now rewrite Z.eqb_refl. }
  assert (Hfil1 : List.filter (fun q => privilege_id q =? privilege_id p) (privileges st1)
                  = [deleted]).
  { rewrite (filter_unique_key privilege_id _ (privileges st1) deleted Hnd1 Hin1).
    - cbn [privilege_id deleted]. now rewrite Z.eqb_refl.
    - intros x _ Hx. now apply Z.eqb_eq in Hx. }
  exists st1, p, st. split; [|split; [|split]].
  4: { do 5 (split; [auto|]). split; [|repeat split; auto; tauto].
       unfold PrivilegeService._require_privilege, PrivilegeRepository.get_by_id.
       unfold_monad. cbn [negb]. rewrite Hfil. simpl. rewrite Hact. simpl.
       rewrite Hact. reflexivity. }
  - unfold PrivilegeService.delete_privilege, PrivilegeService._require_privilege,
      PrivilegeRepository.get_by_id. unfold_monad. cbn [negb]. rewrite Hfil.
    cbn [scalar_one_or_none]. rewrite Hact. reflexivity.
  - unfold PrivilegeService._require_privilege, PrivilegeRepository.get_by_id.
    unfold_monad. cbn [negb]. rewrite Hfil1. reflexivity.
  - unfold PrivilegeService.restore_privilege, PrivilegeService._require_privilege,
      PrivilegeRepository.get_by_id. unfold_monad. cbn [negb]. rewrite Hfil1.
    cbn [scalar_one_or_none privilege_deleted_at deleted is_None andb negb].
    unfold PrivilegeRepository.restore, PrivilegeRepository.flush_row. unfold_monad.
    cbn [privilege_id privilege_resource privilege_action privilege_description deleted].
    assert (Hp : mkPrivilege (privilege_id p) (privilege_resource p) (privilege_action p)
                             (privilege_description p) None = p)
      by (destruct p; simpl in *; congruence).
    rewrite Hp. f_equal. f_equal.
    subst st1. cbn [privileges set_privileges].
    rewrite (replace_restores p deleted (privileges st) Hnd Hin eq_refl).
    destruct st; reflexivity.
Qed.

Lemma soft_delete_restore_privilege_round_trip_witness :
  exists st1 restored st2,
    PrivilegeService.delete_privilege 1 false 1700000000 example_role_store = Ok (tt, st1)
    /\ PrivilegeService._require_privilege 1 false st1
       = Raise (HTTPException HTTP_404_NOT_FOUND "Privilege not found")
    /\ PrivilegeService.restore_privilege 1 st1 = Ok (restored, st2)
    /\ privilege_resource restored = "users" /\ privilege_action restored = "read"
    /\ privilege_deleted_at restored = None
    /\ PrivilegeService._require_privilege 1 false st2 = Ok (restored, st2).
Proof.
  destruct (soft_delete_restore_privilege_round_trip example_role_store example_privilege
              1700000000)
    as (st1 & restored & st2 & Hdel & Hgone & Hres & _ & Hr & Ha & _ & Hd & Hfound & _).
  - repeat constructor. intros [].
  - now left.
  - reflexivity.
  - exists st1, restored, st2. repeat split; assumption.
Defined.

(** ** Role-privilege links *)

Lemma role_get_by_id_Ok (i : Z) (st st' : Store) (r : RoleORM) :
  RoleRepository.get_by_id i false st = Ok (Some r, st') ->
  st' = st /\ In r (roles st) /\ role_id r = i /\ role_deleted_at r = None.
Proof.
  unfold RoleRepository.get_by_id. unfold_monad. cbn [negb].
  destruct (scalar_one_or_none _) as [[q|]|e] eqn:E; try discriminate.
  intros Hr. injection Hr as Hq Hs. subst q st'.
  apply scalar_one_or_none_Some in E.
  assert (Hin : In r (List.filter (fun r => is_None (role_deleted_at r))
                        (List.filter (fun r => role_id r =? i) (roles st))))
    by (rewrite E; now left).
  apply List.filter_In in Hin as [Hin Hd]. apply List.filter_In in Hin as [Hin Hid].
  apply Z.eqb_eq in Hid. apply is_None_true in Hd. auto.
Qed.

Lemma role_get_by_id_roles (i : Z) (incl : bool) (st st' : Store) (o : option RoleORM) :
  roles st' = roles st ->
  RoleRepository.get_by_id i incl st = Ok (o, st) ->
  RoleRepository.get_by_id i incl st' = Ok (o, st').
Proof.
  unfold RoleRepository.get_by_id. unfold_monad. intros ->.
  destruct (scalar_one_or_none _) as [?|?]; [|discriminate].
  intros E. injection E as <-. reflexivity.
Qed.

Lemma privilege_get_by_id_privileges (i : Z) (incl : bool) (st st' : Store)
      (o : option PrivilegeORM) :
  privileges st' = privileges st ->
  PrivilegeRepository.get_by_id i incl st = Ok (o, st) ->
  PrivilegeRepository.get_by_id i incl st' = Ok (o, st').
Proof.
  unfold PrivilegeRepository.get_by_id. unfold_monad. intros ->.
  destruct (scalar_one_or_none _) as [?|?]; [|discriminate].
  intros E. injection E as <-. reflexivity.
Qed.

Lemma link_join_In (st : Store) (l : Z * Z) (r : RoleORM) (p : PrivilegeORM) :
  In ((l, r), p) (RolePrivilegeRepository.link_join st)
  <-> In l (role_privileges st) /\ In r (roles st) /\ In p (privileges st)
      /\ role_id r = fst l /\ privilege_id p = snd l.
Proof.
  unfold RolePrivilegeRepository.link_join. rewrite !In_join. cbn [fst snd].
  rewrite !Z.eqb_eq. tauto.
Qed.

Lemma first_of_uniform {A B} (f : A -> B) (l : list A) (b : B) :
  l <> [] -> (forall x, In x l -> f x = b) ->
  exists x, first l = Some x /\ f x = b.
Proof.
  destruct l as [|x l]; [congruence|]. intros _ Hall. exists x.
  split; [reflexivity|]. apply Hall. now left.
Qed.

Lemma get_link_absent (st : Store) (rid pid : Z) :
  ~ In (rid, pid) (role_privileges st) ->
  RolePrivilegeRepository.get_link rid pid st = Ok (None, st).
Proof.
  intros Hno. unfold RolePrivilegeRepository.get_link. unfold_monad.
  replace (List.filter _ (RolePrivilegeRepository.link_join st))
    with (@nil (((Z * Z) * RoleORM) * PrivilegeORM)); [reflexivity|].
  symmetry. apply filter_none. intros [[l r] p] Hrow. cbn [fst snd].
  apply link_join_In in Hrow as (Hl & _).
  destruct (fst l =? rid) eqn:E1; [|reflexivity].
  destruct (snd l =? pid) eqn:E2; [|reflexivity].
  apply Z.eqb_eq in E1, E2. exfalso. apply Hno. destruct l; simpl in *. now subst.
Qed.

Lemma get_link_present (st : Store) (r : RoleORM) (p : PrivilegeORM) :
  role_ids_unique st -> List.NoDup (map privilege_id (privileges st)) ->
  In r (roles st) -> In p (privileges st) ->
  In (role_id r, privilege_id p) (role_privileges st) ->
  RolePrivilegeRepository.get_link (role_id r) (privilege_id p) st
  = Ok (Some (mkRolePrivilegeLink (role_id r) (privilege_id p) (role_name r)
                (privilege_resource p) (privilege_action p) (privilege_description p)),
        st).
Proof.
  intros Hru Hpu Hr Hp Hl. unfold RolePrivilegeRepository.get_link. unfold_monad.
  destruct (first_of_uniform RolePrivilegeRepository.link_of_row
              (List.filter
                 (fun row => (fst (fst (fst row)) =? role_id r)
                             && (snd (fst (fst row)) =? privilege_id p))
                 (RolePrivilegeRepository.link_join st))
              (mkRolePrivilegeLink (role_id r) (privilege_id p) (role_name r)
                 (privilege_resource p) (privilege_action p) (privilege_description p)))
    as (row & -> & <-); [| |reflexivity].
  - intros Hnil.
    assert (Hin : In (((role_id r, privilege_id p), r), p)
                     (List.filter
                        (fun row => (fst (fst (fst row)) =? role_id r)
                                    && (snd (fst (fst row)) =? privilege_id p))
                        (RolePrivilegeRepository.link_join st))).
    { apply List.filter_In. split.
      - apply link_join_In. auto.
      - cbn [fst snd]. now rewrite !Z.eqb_refl. }
    rewrite Hnil in Hin. exact Hin.
  - intros [[l r'] p'] Hrow. apply List.filter_In in Hrow as [Hrow Hc].
    cbn [fst snd] in Hc. apply andb_true_iff in Hc as [H1 H2]. apply Z.eqb_eq in H1, H2.
    apply link_join_In in Hrow as (_ & Hr' & Hp' & Hrid & Hpid).
    assert (r' = r) as -> by (apply (NoDup_map_eq role_id (roles st)); auto; congruence).
    assert (p' = p) as ->
        by (apply (NoDup_map_eq privilege_id (privileges st)); auto; congruence).
    destruct l as [a b]. simpl in *. now subst.
Qed.

(** X19. [RolePrivilegeService.create_link] on a pair that is not linked
    returns the link with the role's name and the privilege's resource and
    action; [delete_link] then takes the store back to where it was, and a
    second [delete_link] is answered with 404 "Role-privilege relation not
    found".  Keys are as the database allocates them: unique and not 0. *)
Theorem create_link_delete_link_round_trip
        (st st1 : Store) (rid pid : Z) (link : RolePrivilegeLink) :
  rid <> 0 -> pid <> 0 ->
  role_ids_unique st ->
  List.NoDup (map privilege_id (privileges st)) ->
  ~ In (rid, pid) (role_privileges st) ->
  RolePrivilegeService.create_link rid pid st = Ok (link, st1) ->
  (exists r p,
      In r (roles st) /\ role_id r = rid /\ role_deleted_at r = None
      /\ In p (privileges st) /\ privilege_id p = pid /\ privilege_deleted_at p = None
      /\ link = mkRolePrivilegeLink rid pid (role_name r) (privilege_resource p)
                  (privilege_action p) (privilege_description p))
  /\ In (rid, pid) (role_privileges st1)
  /\ RolePrivilegeService.delete_link rid pid st1 = Ok (tt, st)
  /\ RolePrivilegeService.delete_link rid pid st
     = Raise (HTTPException HTTP_404_NOT_FOUND "Role-privilege relation not found").
Proof.
  intros Hrid Hpid Hru Hpu Hno Hcreate.
  unfold RolePrivilegeService.create_link in Hcreate.
  first_call Hcreate as o st0 Erole. destruct o as [r|]; [|discriminate].
  pose proof Erole as Erole'.
  apply role_get_by_id_Ok in Erole as (-> & Hr & Hri & Hrd).
  rewrite Hrd in Hcreate. cbn [is_None negb] in Hcreate.
  first_call Hcreate as o st0 Epriv. destruct o as [p|]; [|discriminate].
  pose proof Epriv as Epriv'.
  apply privilege_get_by_id_Ok in Epriv as (-> & Hp & Hpi & Hpd). specialize (Hpd eq_refl).
  rewrite Hpd in Hcreate. cbn [is_None negb] in Hcreate.
  first_call Hcreate as x st2 Eatt. destruct x. subst rid pid.
  rewrite (attach_when_absent r p Hrid Hpid st) in Eatt.
  2:{ unfold link_count.
      replace (List.filter _ (role_privileges st)) with (@nil (Z * Z)); [reflexivity|].
      symmetry. apply filter_none. intros l Hl.
      destruct (pair_eqb (role_id r, privilege_id p) l) eqn:E; [|reflexivity].
      apply pair_eqb_eq in E. subst l. contradiction. }
  injection Eatt as <-.
  set (st1' := set_role_privileges st
                 (role_privileges st ++ [(role_id r, privilege_id p)])%list) in *.
  assert (Hl1 : In (role_id r, privilege_id p) (role_privileges st1'))
    by (subst st1'; cbn [role_privileges set_role_privileges];
        apply in_or_app; right; now left).
  assert (Hget : RolePrivilegeRepository.get_link (role_id r) (privilege_id p) st1'
                 = Ok (Some (mkRolePrivilegeLink (role_id r) (privilege_id p) (role_name r)
                               (privilege_resource p) (privilege_action p)
                               (privilege_description p)), st1'))
    by (apply get_link_present; auto).
  unfold RolePrivilegeService.get_link in Hcreate. unfold bind in Hcreate.
  rewrite Hget in Hcreate. unfold ret in Hcreate. injection Hcreate as <- <-.
  split; [|split; [exact Hl1|split]].
  - exists r, p. repeat split; auto.
  - unfold RolePrivilegeService.delete_link. unfold bind at 1. rewrite Hget.
    cbv beta iota. unfold bind at 1.
    rewrite (role_get_by_id_roles _ _ st st1' _ eq_refl Erole'). cbv beta iota.
    unfold bind at 1.
    rewrite (privilege_get_by_id_privileges _ _ st st1' _ eq_refl Epriv').
    cbv beta iota. rewrite Hrd, Hpd. cbn [is_None negb].
    rewrite (detach_result r p Hrid Hpid st1'). f_equal. f_equal.
    subst st1'. cbn [role_privileges set_role_privileges].
    rewrite List.filter_app. cbn [List.filter]. rewrite pair_eqb_refl. cbn [negb].
    rewrite app_nil_r. rewrite filter_id.
    + destruct st; reflexivity.
    + intros l Hl. apply negb_true_iff.
      destruct (pair_eqb (role_id r, privilege_id p) l) eqn:E; [|reflexivity].
      apply pair_eqb_eq in E. subst l. contradiction.
  - unfold RolePrivilegeService.delete_link. unfold bind at 1.
    rewrite (get_link_absent st _ _ Hno). reflexivity.
Qed.

Lemma create_link_delete_link_round_trip_witness :
  exists link st1,
    RolePrivilegeService.create_link 1 1 example_role_store = Ok (link, st1)
    /\ link = mkRolePrivilegeLink 1 1 "auditor" "users" "read" None
    /\ RolePrivilegeService.delete_link 1 1 st1 = Ok (tt, example_role_store).
Proof.
  eexists. eexists.
  assert (Hcreate : RolePrivilegeService.create_link 1 1 example_role_store = Ok (_, _))
    by (vm_compute; reflexivity).
  split; [exact Hcreate|]. split; [reflexivity|].
  refine (proj1 (proj2 (proj2
    (create_link_delete_link_round_trip example_role_store _ 1 1 _ _ _ _ _ _ Hcreate)))).
  - discriminate.
  - discriminate.
  - repeat constructor. intros [].
  - repeat constructor. intros [].
  - intros [].
Defined.

(** ** Users: registration, role assignment, deletion and restoration *)

(** What [UserRepository.create_user] does before it flushes the INSERT:
    the requested role ids, when there are any, are bound as the
    parameters of a SELECT. *)
Lemma create_user_eq `{Security} (email password : string) (blocked : bool)
      (role_ids : option (list Z)) (st : Store) :
  UserRepository.create_user email password blocked role_ids st
  = if forallb in_int64 (default [] role_ids)
    then if existsb (fun u => String.eqb (user_email u) email) (users st)
         then Raise (IntegrityError "users.email")
         else UserRepository.create_user email password blocked role_ids st
    else Raise OverflowError.
Proof.
  destruct (forallb in_int64 (default [] role_ids)) eqn:Er.
  - destruct (existsb _ (users st)) eqn:Ex; [|reflexivity].
    unfold UserRepository.create_user. unfold bind at 1.
    destruct role_ids as [[|i ids]|]; cbn [default] in Er.
    + unfold ret at 1. unfold bind at 1. unfold get_store at 1. now rewrite Ex.
    + unfold bind at 1. rewrite bind_params_in_range by exact Er.
      unfold bind at 1. unfold get_store at 1. unfold ret at 1.
      unfold bind at 1. unfold get_store at 1. now rewrite Ex.
    + unfold ret at 1. unfold bind at 1. unfold get_store at 1. now rewrite Ex.
  - unfold UserRepository.create_user. unfold bind at 1.
    destruct role_ids as [[|i ids]|]; cbn [default] in Er; try discriminate.
    unfold bind at 1. now rewrite bind_params_out_of_range by exact Er.
Qed.

(** X20. The e-mail address of a soft-deleted user stays taken:
    [get_by_email] reports no such user, and [UserService.create_user]
    with that address raises [IntegrityError] on the UNIQUE constraint,
    unless a requested role id does not fit an SQLite INTEGER, in which
    case the SELECT of the roles, which runs first, raises
    [OverflowError]. *)
Theorem create_user_email_of_deleted_user_is_taken `{Security}
        (env : Env) (w : World) (u : UserORM) (password : string)
        (role_ids : option (list Z)) :
  user_emails_unique (db w) -> In u (users (db w)) -> user_deleted_at u <> None ->
  UserRepository.get_by_email (user_email u) (db w) = Ok (None, db w)
  /\ UserService.create_user env (user_email u) password role_ids w
     = if forallb in_int64 (default [] role_ids)
       then Raise (IntegrityError "users.email")
       else Raise OverflowError.
Proof.
  intros Huq Hin Hdel. split.
  - rewrite (get_by_email_unique (db w) u Huq Hin).
    destruct (user_deleted_at u); [reflexivity|congruence].
  - unfold UserService.create_user. unfold bind at 1. unfold in_db at 1.
    rewrite create_user_eq.
    assert (Hex : existsb (fun x => String.eqb (user_email x) (user_email u))
                          (users (db w)) = true).
    { apply existsb_exists. exists u. split; [exact Hin | apply String.eqb_refl]. }
    rewrite Hex. destruct (forallb in_int64 (default [] role_ids)); reflexivity.
Qed.

Lemma create_user_email_of_deleted_user_is_taken_witness :
  UserRepository.get_by_email "root@example.com" example_deleted_admin_store
  = Ok (None, example_deleted_admin_store)
  /\ UserService.create_user (H := example_security) example_env "root@example.com"
       "secret" (Some [1; 2 ^ 63])
       (mkWorld example_deleted_admin_store (DragonflyCache.new default_settings))
     = (if forallb in_int64 (default [] (Some [1; 2 ^ 63]))
        then Raise (IntegrityError "users.email")
        else Raise OverflowError).
Proof.
  apply (create_user_email_of_deleted_user_is_taken (H := example_security) example_env
           (mkWorld example_deleted_admin_store (DragonflyCache.new default_settings))
           (mkUser 1 "root@example.com" "hashed:secret" false false (Some 1700000000))
           "secret" (Some [1; 2 ^ 63])).
  - repeat constructor. intros [].
  - now left.
  - discriminate.
Defined.

Lemma in_ids_In (ids : list Z) (z : Z) : UserRepository.in_ids ids z = true <-> In z ids.
Proof.
  unfold UserRepository.in_ids. rewrite existsb_exists. split.
  - intros (x & Hx & E). apply Z.eqb_eq in E. now subst.
  - intros Hz. exists z. split; [exact Hz | apply Z.eqb_refl].
Qed.

(** A role of the table is among the loaded roles of a user exactly when
    the link is there. *)
Lemma loaded_role_iff_link (st : Store) (uid : Z) (role : RoleORM) :
  In role (roles st) ->
  existsb (fun r => role_id r =? role_id role) (UserRepository.loaded_roles st uid) = true
  <-> In (uid, role_id role) (user_roles st).
Proof.
  intros Hin. unfold UserRepository.loaded_roles. rewrite existsb_exists. split.
  - intros (r & Hr & E). apply Z.eqb_eq in E. apply List.filter_In in Hr as [_ Hr].
    apply existsb_exists in Hr as (l & Hl & El). apply pair_eqb_eq in El. subst l.
    now rewrite <- E.
  - intros Hl. exists role. split; [|apply Z.eqb_refl].
    apply List.filter_In. split; [exact Hin|].
    apply existsb_exists. exists (uid, role_id role). split; [exact Hl|apply pair_eqb_refl].
Qed.

Lemma existsb_pair_In (a : Z * Z) (l : list (Z * Z)) :
  existsb (pair_eqb a) l = true <-> In a l.
Proof.
  rewrite existsb_exists. split.
  - intros (x & Hx & E). apply pair_eqb_eq in E. now subst.
  - intros Ha. exists a. split; [exact Ha | apply pair_eqb_refl].
Qed.

Lemma attach_loop (uid : Z) (rs : list RoleORM) :
  forall st,
    (forall r, In r rs -> In r (roles st)) ->
    exists st',
      for_each rs (fun role =>
        let* st := get_store in
        if negb (existsb (fun r => role_id r =? role_id role)
                         (UserRepository.loaded_roles st uid))
        then UserRepository.insert_user_role uid (role_id role)
        else ret tt) st = Ok (tt, st')
      /\ users st' = users st /\ roles st' = roles st
      /\ privileges st' = privileges st /\ role_privileges st' = role_privileges st
      /\ (forall l, In l (user_roles st')
                    <-> In l (user_roles st)
                        \/ exists r, In r rs /\ l = (uid, role_id r))
      /\ (List.NoDup (user_roles st) -> List.NoDup (user_roles st'))
      /\ ((forall r, In r rs -> In (uid, role_id r) (user_roles st)) -> st' = st).
Proof.
  induction rs as [|role rs IH]; intros st Hsub.
  - exists st. split; [reflexivity|]. repeat split; auto.
    + intros [Hl|(r & [] & _)]. exact Hl.
  - cbn [for_each]. unfold bind at 1. unfold bind at 1. unfold get_store at 1.
    assert (Hrole : In role (roles st)) by (apply Hsub; now left).
    pose proof (loaded_role_iff_link st uid role Hrole) as Hloaded.
    destruct (existsb _ (UserRepository.loaded_roles st uid)) eqn:El; cbn [negb].
    + unfold ret at 1.
      destruct (IH st) as (st' & Hrun & Hu & Hr & Hp & Hrp & Hl & Hnd & Hsame);
        [intros r Hr; apply Hsub; now right|].
      exists st'. split; [exact Hrun|]. repeat split; auto.
      * intros Hin. apply Hl in Hin as [Hin|(r & Hr' & ->)]; [now left|].
        right. exists r. split; [now right|reflexivity].
      * intros [Hin|(r & [<-|Hr'] & ->)]; apply Hl.
        -- now left.
        -- left. now apply Hloaded.
        -- right. eauto.
      * intros Hall. apply Hsame. intros r Hr'. apply Hall. now right.
    + unfold UserRepository.insert_user_role. unfold bind at 1. unfold get_store at 1.
      assert (Hno : ~ In (uid, role_id role) (user_roles st)).
      { intros Hin. apply Hloaded in Hin. congruence. }
      destruct (existsb (pair_eqb (uid, role_id role)) (user_roles st)) eqn:Ex.
      { apply existsb_pair_In in Ex. contradiction. }
      unfold put_store at 1.
      set (st1 := set_user_roles st (user_roles st ++ [(uid, role_id role)])%list).
      destruct (IH st1) as (st' & Hrun & Hu & Hr & Hp & Hrp & Hl & Hnd & Hsame);
        [intros r Hr; apply Hsub; now right|].
      exists st'. split; [exact Hrun|]. repeat split; auto.
      * intros Hin. apply Hl in Hin as [Hin|(r & Hr' & ->)].
        -- subst st1. cbn [user_roles set_user_roles] in Hin.
           apply in_app_or in Hin as [Hin|[<-|[]]]; [now left|].
           right. exists role. split; [now left|reflexivity].
        -- right. exists r. split; [now right|reflexivity].
      * intros [Hin|(r & [<-|Hr'] & ->)]; apply Hl.
        -- left. subst st1. cbn [user_roles set_user_roles]. apply in_or_app. now left.
        -- left. subst st1. cbn [user_roles set_user_roles]. apply in_or_app.
           right. now left.
        -- right. eauto.
      * intros Hnd0. apply Hnd. subst st1. cbn [user_roles set_user_roles].
        apply NoDup_app_remove_l with (l := []). simpl.
        apply Permutation_NoDup with (l := (uid, role_id role) :: user_roles st).
        -- apply Permutation_cons_append.
        -- constructor; assumption.
      * intros Hall. exfalso. apply Hno. apply Hall. now left.
Qed.

(** X21. [UserRepository.attach_roles] returns as long as the requested
    role ids fit an SQLite INTEGER, and touches only [user_roles]:
    afterwards the user has the links it had and one to every requested
    role that is not soft-deleted, none twice, and a second call with the
    same ids changes nothing.  With an id out of range the call raises
    [OverflowError]. *)
Theorem attach_roles_links_active_requested
        (st : Store) (user : UserORM) (role_ids : list Z) :
  if forallb in_int64 role_ids
  then exists st',
      UserRepository.attach_roles user role_ids st = Ok (tt, st')
      /\ users st' = users st /\ roles st' = roles st
      /\ privileges st' = privileges st /\ role_privileges st' = role_privileges st
      /\ (forall l,
            In l (user_roles st')
            <-> In l (user_roles st)
                \/ exists r, In r (roles st) /\ In (role_id r) role_ids
                             /\ role_deleted_at r = None
                             /\ l = (user_id user, role_id r))
      /\ (List.NoDup (user_roles st) -> List.NoDup (user_roles st'))
      /\ UserRepository.attach_roles user role_ids st' = Ok (tt, st')
  else UserRepository.attach_roles user role_ids st = Raise OverflowError.
Proof.
  destruct (forallb in_int64 role_ids) eqn:Er.
  2:{ unfold UserRepository.attach_roles. unfold bind at 1.
      now rewrite bind_params_out_of_range by exact Er. }
  set (rs := List.filter (fun r => UserRepository.in_ids role_ids (role_id r)
                                   && is_None (role_deleted_at r)) (roles st)).
  assert (Hrs : forall r, In r rs <-> In r (roles st) /\ In (role_id r) role_ids
                                      /\ role_deleted_at r = None).
  { intros r. subst rs. rewrite List.filter_In, andb_true_iff, in_ids_In, is_None_true.
    tauto. }
  destruct (attach_loop (user_id user) rs st) as
      (st' & Hrun & Hu & Hr & Hp & Hrp & Hl & Hnd & _);
    [intros r Hr; now apply Hrs|].
  exists st'. split.
  { unfold UserRepository.attach_roles. unfold bind at 1.
    rewrite bind_params_in_range by exact Er. exact Hrun. }
  repeat split; auto.
  - intros Hin. apply Hl in Hin as [Hin|(r & Hr' & ->)]; [now left|].
    right. exists r. apply Hrs in Hr'. tauto.
  - intros [Hin|(r & Hr1 & Hr2 & Hr3 & ->)]; apply Hl; [now left|].
    right. exists r. split; [|reflexivity]. apply Hrs. auto.
  - unfold UserRepository.attach_roles. unfold bind at 1.
    rewrite bind_params_in_range by exact Er.
    unfold bind at 1. unfold get_store at 1.
    rewrite Hr. fold rs.
    destruct (attach_loop (user_id user) rs st') as (st2 & Hrun2 & _ & _ & _ & _ & _ & _ & Hsame);
      [intros r Hr'; rewrite Hr; now apply Hrs|].
    rewrite Hrun2. f_equal. f_equal. apply Hsame.
    intros r Hr'. apply Hl. right. eauto.
Qed.

Lemma cache_delete_total (env : Env) (c : DragonflyCache.t) (key : string) :
  client_reaches_server env c ->
  exists c1, DragonflyCache.delete env key c = Ok (tt, c1).
Proof.
  unfold client_reaches_server. destruct c as [ttl0 client fb srv]. simpl. intros Hreach.
  destruct client.
  - unfold_cache. simpl. rewrite (Hreach eq_refl). simpl. eauto.
  - destruct (cache_delete_effect env key (DragonflyCache.mk ttl0 false fb srv) eq_refl)
      as (c1 & E & _). eauto.
Qed.

Lemma invalidate_cache_total (env : Env) (user : UserORM) (w : World) :
  client_reaches_server env (cache w) ->
  exists w',
    UserService._invalidate_cache env (Some user) w = Ok (tt, w')
    /\ db w' = db w /\ client_reaches_server env (cache w').
Proof.
  intros Hreach. unfold UserService._invalidate_cache. unfold bind, in_cache.
  destruct (cache_delete_total env (cache w) (UserService.email_key (user_email user)) Hreach)
    as [c1 E1].
  rewrite E1. pose proof (delete_reaches _ _ _ _ E1) as [Hr1 _].
  destruct (truthy_int (user_id user)); cbn [cache db].
  - destruct (cache_delete_total env c1 (UserService.id_key (user_id user)) Hr1)
      as [c2 E2].
    rewrite E2. pose proof (delete_reaches _ _ _ _ E2) as [Hr2 _].
    eexists. split; [reflexivity|]. cbn [db cache]. auto.
  - unfold ret. eexists. split; [reflexivity|]. cbn [db cache]. auto.
Qed.

Lemma in_db_run {A} (m : M A) (w : World) (a : A) (st' : Store) :
  m (db w) = Ok (a, st') -> in_db m w = Ok (a, mkWorld st' (cache w)).
Proof. unfold in_db. now intros ->. Qed.

Lemma replace_user_restores (u u' : UserORM) (us : list UserORM) :
  List.NoDup (map user_id us) -> In u us -> user_id u' = user_id u ->
  map (fun x => if user_id x =? user_id u then u else x)
      (map (fun x => if user_id x =? user_id u' then u' else x) us)
  = us.
Proof.
  intros Hnd Hin Hid. rewrite map_map. rewrite <- (map_id us) at 2.
  apply map_ext_in. intros x Hx. rewrite Hid.
  destruct (user_id x =? user_id u) eqn:E.
  - rewrite Hid, Z.eqb_refl. apply Z.eqb_eq in E.
    symmetry. exact (NoDup_map_eq user_id us x u Hnd Hx Hin E).
  - rewrite E. reflexivity.
Qed.

(** X22. Soft-deleting an active user and restoring it brings the
    modelled columns back: in between the user is not found by
    [get_by_id]; [restore_user] hands back a row with the id, email,
    password hash and block flag of the original, active and with no
    [deleted_at], which [get_by_id] finds again; the table holds the same
    ids, its other rows are the rows it had, and the other tables are as
    before the deletion.  ([updated_at], which every UPDATE rewrites and
    [_serialize_user] copies, is not among the columns the rows carry
    here.) *)
Theorem soft_delete_restore_user_round_trip
        (env env2 : Env) (w : World) (u : UserORM) :
  user_ids_unique (db w) -> In u (users (db w)) ->
  user_deleted_at u = None -> user_is_active u = true ->
  client_reaches_server env (cache w) -> redis_up env2 = redis_up env ->
  exists w1 restored w2,
    UserService.delete_user env (user_id u) false w = Ok (tt, w1)
    /\ UserRepository.get_by_id (user_id u) (db w1) = Ok (None, db w1)
    /\ UserService.restore_user env2 (user_id u) w1 = Ok (restored, w2)
    /\ user_id restored = user_id u /\ user_email restored = user_email u
    /\ user_hashed_password restored = user_hashed_password u
    /\ user_is_active restored = true
    /\ user_is_blocked restored = user_is_blocked u
    /\ user_deleted_at restored = None
    /\ UserRepository.get_by_id (user_id u) (db w2) = Ok (Some restored, db w2)
    /\ map user_id (users (db w2)) = map user_id (users (db w))
    /\ (forall x, user_id x <> user_id u ->
                  (In x (users (db w2)) <-> In x (users (db w))))
    /\ user_roles (db w2) = user_roles (db w) /\ roles (db w2) = roles (db w)
    /\ privileges (db w2) = privileges (db w)
    /\ role_privileges (db w2) = role_privileges (db w).
Proof.
  intros Hids Hin Hact Hactive Hreach Hup.
  set (deleted := mkUser (user_id u) (user_email u) (user_hashed_password u) false
                         (user_is_blocked u) (Some (now env))).
  set (st1 := set_users (db w)
                (map (fun x => if user_id x =? user_id deleted then deleted else x)
                     (users (db w)))).
  assert (Hfil : List.filter (fun x => user_id x =? user_id u) (users (db w)) = [u]).
  { rewrite (filter_unique_key user_id _ (users (db w)) u Hids Hin).
    - now rewrite Z.eqb_refl.
    - intros x _ Hx. now apply Z.eqb_eq in Hx. }
  assert (Hids1 : user_ids_unique st1).
  { unfold user_ids_unique. subst st1. cbn [users set_users]. rewrite map_map.
    erewrite map_ext_in; [exact Hids|]. intros x _. cbn beta.
    destruct (user_id x =? user_id deleted) eqn:E; [|reflexivity].
    apply Z.eqb_eq in E. symmetry. exact E. }
  assert (Hin1 : In deleted (users st1)).
  { subst st1. cbn [users set_users]. apply in_map_iff. exists u.
    split; [|exact Hin]. cbn [user_id deleted]. now rewrite Z.eqb_refl. }
  assert (Hfil1 : List.filter (fun x => user_id x =? user_id u) (users st1) = [deleted]).
  { rewrite (filter_unique_key user_id _ (users st1) deleted Hids1 Hin1).
    - cbn [user_id deleted]. now rewrite Z.eqb_refl.
    - intros x _ Hx. now apply Z.eqb_eq in Hx. }
  destruct (invalidate_cache_total env deleted (mkWorld st1 (cache w)) Hreach)
    as (w1 & Einv1 & Hdb1 & Hreach1).
  cbn [db] in Hdb1.
  assert (Hu : mkUser (user_id u) (user_email u) (user_hashed_password u) true
                      (user_is_blocked u) None = u)
    by (destruct u; simpl in *; congruence).
  assert (Hreach1' : client_reaches_server env2 (cache w1))
    by (eapply client_reaches_server_up; eauto).
  destruct (invalidate_cache_total env2 u (mkWorld (db w) (cache w1)) Hreach1')
    as (w2 & Einv2 & Hdb2 & _).
  cbn [db] in Hdb2.
  assert (Hreq : UserService._require_user (user_id u) true (db w) = Ok (u, db w)).
  { unfold UserService._require_user, UserRepository.get_by_id_include_deleted.
    unfold_monad. rewrite Hfil. reflexivity. }
  assert (Hreq1 : UserService._require_user (user_id u) true st1 = Ok (deleted, st1)).
  { unfold UserService._require_user, UserRepository.get_by_id_include_deleted.
    unfold_monad. rewrite Hfil1. reflexivity. }
  assert (Hsoft : UserRepository.soft_delete u (now env) (db w) = Ok (deleted, st1))
    by reflexivity.
  assert (Hrest : UserRepository.restore deleted st1 = Ok (u, db w)).
  { unfold UserRepository.restore, UserRepository.flush_row. unfold_monad.
    cbn [user_id user_email user_hashed_password user_is_blocked deleted].
    rewrite Hu. f_equal. f_equal. subst st1. cbn [users set_users].
    rewrite (replace_user_restores u deleted (users (db w)) Hids Hin eq_refl).
    destruct (db w); reflexivity. }
  exists w1, u, w2. split; [|split; [|split]].
  4: { rewrite Hdb2. do 6 (split; [auto|]). split; [|repeat split; auto; tauto].
       rewrite get_by_id_unique by assumption. now rewrite Hact. }
  - unfold UserService.delete_user. unfold bind at 1.
    rewrite (in_db_run _ _ _ _ Hreq). unfold bind at 1.
    rewrite (in_db_run _ (mkWorld (db w) (cache w)) _ _ Hsoft). exact Einv1.
  - rewrite Hdb1. apply get_by_id_absent. intros x Hx Hid.
    assert (Hxin : In x (List.filter (fun x => user_id x =? user_id u) (users st1)))
      by (apply List.filter_In; split; [exact Hx | now apply Z.eqb_eq]).
    rewrite Hfil1 in Hxin. destruct Hxin as [<-|[]]. discriminate.
  - unfold UserService.restore_user. unfold bind at 1.
    rewrite <- Hdb1 in Hreq1, Hrest.
    rewrite (in_db_run _ _ _ _ Hreq1). cbn [user_deleted_at deleted].
    unfold bind at 1.
    rewrite (in_db_run _ (mkWorld (db w1) (cache w1)) _ _ Hrest).
    unfold bind at 1. cbn [db cache]. rewrite Einv2. reflexivity.
Qed.

Lemma soft_delete_restore_user_round_trip_witness :
  exists w1 restored w2,
    UserService.delete_user example_env 1 false
      (mkWorld example_user_store (DragonflyCache.new default_settings)) = Ok (tt, w1)
    /\ UserRepository.get_by_id 1 (db w1) = Ok (None, db w1)
    /\ UserService.restore_user example_env 1 w1 = Ok (restored, w2)
    /\ user_email restored = "ada@example.com" /\ user_is_active restored = true
    /\ user_deleted_at restored = None
    /\ UserRepository.get_by_id 1 (db w2) = Ok (Some restored, db w2).
Proof.
  destruct (soft_delete_restore_user_round_trip example_env example_env
              (mkWorld example_user_store (DragonflyCache.new default_settings))
              example_user)
    as (w1 & restored & w2 & Hdel & Hgone & Hres & _ & Hmail & _ & Hactive & _ & Hd
        & Hfound & _).
  - repeat constructor. intros [].
  - now left.
  - reflexivity.
  - reflexivity.
  - intros Hc. discriminate Hc.
  - reflexivity.
  - exists w1, restored, w2. repeat split; assumption.
Defined.

(** ** The bootstrap seed run again *)

Lemma attach_privilege_keeps (role : RoleORM) (p : PrivilegeORM) (st st' : Store) (t : unit) :
  RoleRepository.attach_privilege role p st = Ok (t, st') ->
  privileges st' = privileges st /\ roles st' = roles st /\ users st' = users st.
Proof.
  unfold RoleRepository.attach_privilege.
  destruct (negb (truthy_int (role_id role)) || negb (truthy_int (privilege_id p))).
  - unfold ret. intros E. injection E as _ <-. auto.
  - unfold_monad. destruct (first _).
    + intros E. injection E as _ <-. auto.
    + unfold RoleRepository.insert_role_privilege. unfold_monad.
      destruct (existsb _ (role_privileges st)); [discriminate|].
      intros E. injection E as _ <-. auto.
Qed.

Section Seed.
Context `{Security}.

Lemma collect_privileges_Ok (specs : list (string * string)) :
  forall st st' ps,
    Seeds.collect_privileges specs st = Ok (ps, st') ->
    roles st' = roles st /\ users st' = users st
    /\ (forall k, List.filter (active_with_key k) (privileges st) <> [] ->
                  List.filter (active_with_key k) (privileges st')
                  = List.filter (active_with_key k) (privileges st))
    /\ (forall s, In s specs ->
                  exists p, List.filter (active_with_key s) (privileges st') = [p]).
Proof using Type.
  induction specs as [|spec specs IH]; intros st st' ps Hrun.
  - simpl in Hrun. unfold ret in Hrun. injection Hrun as _ <-.
    repeat split; auto. intros s [].
  - cbn [Seeds.collect_privileges] in Hrun.
    first_call Hrun as p st1 Egoc. first_call Hrun as rest st2 Erest.
    unfold ret in Hrun. injection Hrun as _ <-.
    apply get_or_create_Ok in Egoc as (_ & Hkey & _ & Hfil & Hst1).
    destruct (IH _ _ _ Erest) as (Hr & Hu & Hstable & Hall).
    assert (Hstable1 : forall k, List.filter (active_with_key k) (privileges st) <> [] ->
                                 List.filter (active_with_key k) (privileges st1)
                                 = List.filter (active_with_key k) (privileges st)).
    { destruct Hst1 as [-> | (-> & Hp & Hempty)]; [reflexivity|].
      intros k Hk. cbn [privileges set_privileges]. rewrite List.filter_app.
      cbn [List.filter]. destruct (active_with_key k p) eqn:Ek; [|apply app_nil_r].
      exfalso. apply Hk. apply active_with_key_true in Ek as [Ek _].
      rewrite <- Ek, Hkey. exact Hempty. }
    repeat split.
    + rewrite Hr. destruct Hst1 as [-> | (-> & _)]; reflexivity.
    + rewrite Hu. destruct Hst1 as [-> | (-> & _)]; reflexivity.
    + intros k Hk. rewrite Hstable; rewrite Hstable1; auto.
    + intros s [<-|Hs]; [|now apply Hall].
      exists p. rewrite Hstable; unfold active_with_key; rewrite Hfil;
        [reflexivity | discriminate].
Qed.

Lemma collect_privileges_again (specs : list (string * string)) (st : Store) :
  (forall s, In s specs -> exists p, List.filter (active_with_key s) (privileges st) = [p]) ->
  exists ps, Seeds.collect_privileges specs st = Ok (ps, st).
Proof using Type.
  induction specs as [|spec specs IH]; intros Hall.
  - exists []. reflexivity.
  - destruct (Hall spec (or_introl eq_refl)) as [p Hp].
    destruct IH as [ps Hps]; [intros s Hs; apply Hall; now right|].
    exists (p :: ps). cbn [Seeds.collect_privileges]. unfold bind at 1.
    rewrite (get_or_create_found (fst spec) (snd spec) None st p Hp).
    unfold bind at 1. rewrite Hps. reflexivity.
Qed.

End Seed.

Lemma scalar_one_or_none_None {A} (l : list A) :
  scalar_one_or_none l = Ok None -> l = [].
Proof. destruct l as [|a [|b l]]; simpl; intros E; [reflexivity|discriminate|discriminate]. Qed.

Lemma get_by_name_Ok (name : string) (st st' : Store) (o : option RoleORM) :
  RoleRepository.get_by_name name st = Ok (o, st') ->
  st' = st
  /\ List.filter (fun r => String.eqb (role_name r) name && is_None (role_deleted_at r))
                 (roles st)
     = match o with Some r => [r] | None => [] end.
Proof.
  unfold RoleRepository.get_by_name. unfold_monad.
  destruct (scalar_one_or_none _) as [o'|] eqn:E; [|discriminate].
  intros Hr. injection Hr as -> <-. split; [reflexivity|].
  destruct o as [r|];
    [now apply scalar_one_or_none_Some | now apply scalar_one_or_none_None].
Qed.

Lemma get_by_email_Ok (email : string) (st st' : Store) (o : option UserORM) :
  UserRepository.get_by_email email st = Ok (o, st') ->
  st' = st
  /\ List.filter (fun u => String.eqb (user_email u) email && is_None (user_deleted_at u))
                 (users st)
     = match o with Some u => [u] | None => [] end.
Proof.
  unfold UserRepository.get_by_email. unfold_monad.
  destruct (scalar_one_or_none _) as [o'|] eqn:E; [|discriminate].
  intros Hr. injection Hr as -> <-. split; [reflexivity|].
  destruct o as [u|];
    [now apply scalar_one_or_none_Some | now apply scalar_one_or_none_None].
Qed.

(** X23. [seed_initial_data] is idempotent on every store: when a run
    has returned, a second run on the store it left finds the privileges,
    the role "admin" and the user "admin@example.com", and changes
    nothing. *)
Theorem seed_initial_data_idempotent `{Security} (st st' : Store) :
  Seeds.seed_initial_data st = Ok (tt, st') ->
  Seeds.seed_initial_data st' = Ok (tt, st').
Proof.
  intros Hseed. unfold Seeds.seed_initial_data in Hseed.
  first_call Hseed as ps st1 Ecol.
  apply collect_privileges_Ok in Ecol as (_ & _ & _ & Hall1).
  first_call Hseed as found st2 Ename.
  apply get_by_name_Ok in Ename as (-> & Hname).
  first_call Hseed as admin_role st3 Erole.
  first_call Hseed as admin_user st4 Eemail.
  apply get_by_email_Ok in Eemail as (-> & Hemail).
  (* the role step *)
  assert (Hst3 : privileges st3 = privileges st1 /\ users st3 = users st1
                 /\ exists r, List.filter
                                (fun r => String.eqb (role_name r) "admin"
                                          && is_None (role_deleted_at r)) (roles st3)
                              = [r]).
  { destruct found as [r|].
    - unfold ret in Erole. injection Erole as _ <-. eauto.
    - first_call Erole as created st5 Ecreate. first_call Erole as x st6 Eatt.
      unfold ret in Erole. injection Erole as _ <-. destruct x.
      rewrite create_eq in Ecreate.
      destruct (RoleRepository._assert_single_super_role None st1) as [[? ?]|];
        [|discriminate].
      destruct (existsb _ (roles st1)); [discriminate|].
      injection Ecreate as <- <-.
      pose proof (for_each_preserves privileges _ _
                    (fun x s t s' E => proj1 (attach_privilege_keeps _ _ _ _ _ E))
                    _ _ Eatt) as Hp.
      pose proof (for_each_preserves roles _ _
                    (fun x s t s' E => proj1 (proj2 (attach_privilege_keeps _ _ _ _ _ E)))
                    _ _ Eatt) as Hr.
      pose proof (for_each_preserves users _ _
                    (fun x s t s' E => proj2 (proj2 (attach_privilege_keeps _ _ _ _ _ E)))
                    _ _ Eatt) as Hu.
      cbn [privileges roles users set_roles] in Hp, Hr, Hu.
      split; [exact Hp|]. split; [exact Hu|].
      exists (new_role st1 "admin" true). rewrite Hr, List.filter_app, Hname.
      reflexivity. }
  destruct Hst3 as (Hp3 & Hu3 & r & Hrole3).
  (* the user step *)
  assert (Hst' : privileges st' = privileges st3 /\ roles st' = roles st3
                 /\ exists u, List.filter
                                (fun u => String.eqb (user_email u) "admin@example.com"
                                          && is_None (user_deleted_at u)) (users st')
                              = [u]).
  { destruct admin_user as [u|].
    - unfold ret in Hseed. injection Hseed as <-. eauto.
    - first_call Hseed as created st5 Ecreate. unfold ret in Hseed.
      injection Hseed as <-.
      apply create_user_Ok in Ecreate as (Hus & Hmail & Hdel & _ & Hr & Hp & _).
      split; [exact Hp|]. split; [exact Hr|].
      exists created. rewrite Hus, List.filter_app, Hemail. cbn [List.filter app].
      rewrite Hmail, Hdel. reflexivity. }
  destruct Hst' as (Hp' & Hr' & u & Huser').
  (* the second run *)
  destruct (collect_privileges_again Seeds.privilege_specs st') as [ps' Hcol'].
  { intros s Hs. rewrite Hp', Hp3. now apply Hall1. }
  unfold Seeds.seed_initial_data. unfold bind at 1. rewrite Hcol'.
  unfold bind at 1. unfold RoleRepository.get_by_name at 1.
  unfold bind at 1. unfold get_store at 1. unfold lift_result at 1.
  rewrite Hr', Hrole3. cbn [scalar_one_or_none]. unfold bind at 1. unfold ret at 1.
  unfold bind at 1. unfold UserRepository.get_by_email at 1.
  unfold bind at 1. unfold get_store at 1. unfold lift_result at 1.
  rewrite Huser'. reflexivity.
Qed.

Lemma seed_initial_data_idempotent_witness :
  exists seeded,
    Seeds.seed_initial_data (H := example_security) example_reader_store = Ok (tt, seeded)
    /\ Seeds.seed_initial_data (H := example_security) seeded = Ok (tt, seeded).
Proof.
  eexists.
  assert (Hseed : Seeds.seed_initial_data (H := example_security) example_reader_store
                  = Ok (tt, _)) by (vm_compute; reflexivity).
  split; [exact Hseed|].
  exact (seed_initial_data_idempotent (H := example_security) _ _ Hseed).
Defined.

(** ** Activity log rows *)






(** ** Listing role-privilege links *)

Lemma join_length_le {A B} (l : list A) (r : list B) (on : A -> B -> bool) :
  (forall a, In a l -> (length (List.filter (on a) r) <= 1)%nat) ->
  (length (join l r on) <= length l)%nat.
Proof.
  unfold join. induction l as [|a l IH]; intros Hone; [simpl; lia|].
  cbn [flat_map]. rewrite List.length_app, List.length_map. cbn [length].
  pose proof (Hone a (or_introl eq_refl)).
  assert (length (flat_map (fun a => map (fun b => (a, b)) (List.filter (on a) r)) l)
          <= length l)%nat by (apply IH; intros; apply Hone; now right).
  lia.
Qed.

Lemma filter_by_id_length {A} (key : A -> Z) (l : list A) (i : Z) :
  List.NoDup (map key l) ->
  (length (List.filter (fun x => (key x =? i)%Z) l) <= 1)%nat.
Proof.
  induction l as [|x l IH]; simpl; intros Hnd; [lia|].
  inversion Hnd as [|k ks Hk Hnd']; subst.
  destruct (key x =? i) eqn:E; [|auto].
  assert (List.filter (fun y => key y =? i) l = []) as ->; [|simpl; lia].
  apply filter_none. intros y Hy. destruct (key y =? i) eqn:Ey; [|reflexivity].
  apply Z.eqb_eq in E, Ey. exfalso. apply Hk. rewrite E, <- Ey. now apply in_map.
Qed.

Lemma list_links_eq (st : Store) (page per_page : Z) :
  RolePrivilegeService.list_links page per_page st
  = if (Z.max page 1 - 1) * Z.min (Z.max per_page 1) 1000 <? 2 ^ 63
    then Ok (map RolePrivilegeRepository.link_of_row
               (offset_limit ((Z.max page 1 - 1) * Z.min (Z.max per_page 1) 1000)
                  (Z.min (Z.max per_page 1) 1000)
                  (order_by RolePrivilegeRepository.link_le
                     (RolePrivilegeRepository.link_join st))), st)
    else Raise OverflowError.
Proof.
  unfold RolePrivilegeService.list_links, RolePrivilegeRepository.list_links.
  unfold bind at 1. rewrite (bind_page_window page per_page st). cbv zeta.
  destruct (_ <? 2 ^ 63); reflexivity.
Qed.

(** X25. [RolePrivilegeService.list_links] returns a page as long as the
    offset fits an SQLite INTEGER, and from an offset of [2 ^ 63] on
    raises [OverflowError].  A page lists rows of [role_privileges] joined
    to their role and privilege: every listed link is a stored pair whose
    role and privilege exist, soft-deleted or not, and carries the role's
    name and the privilege's resource, action and description; a page
    holds at most 1000 links; and with unique keys a page never holds
    more links than [count_links] counts, which counts every stored
    pair. *)
Theorem list_links_lists_joined_rows (st : Store) (page per_page : Z) :
  RolePrivilegeService.count_links st = Ok (Z.of_nat (length (role_privileges st)), st)
  /\ if (Z.max page 1 - 1) * Z.min (Z.max per_page 1) 1000 <? 2 ^ 63
     then exists rows,
         RolePrivilegeService.list_links page per_page st = Ok (rows, st)
         /\ (length rows <= 1000)%nat
         /\ (forall k, In k rows ->
               In (link_role_id k, link_privilege_id k) (role_privileges st)
               /\ exists r p,
                   In r (roles st) /\ In p (privileges st)
                   /\ role_id r = link_role_id k /\ privilege_id p = link_privilege_id k
                   /\ link_role_name k = role_name r
                   /\ link_privilege_resource k = privilege_resource p
                   /\ link_privilege_action k = privilege_action p
                   /\ link_privilege_description k = privilege_description p)
         /\ (role_ids_unique st -> List.NoDup (map privilege_id (privileges st)) ->
             (length rows <= length (role_privileges st))%nat)
     else RolePrivilegeService.list_links page per_page st = Raise OverflowError.
Proof.
  split; [reflexivity|]. rewrite list_links_eq.
  destruct (_ <? 2 ^ 63); [|reflexivity].
  eexists. split; [reflexivity|].
  destruct (page_window page per_page) as [Hpp Hoff]. cbv zeta in Hpp, Hoff.
  set (pp := Z.min (Z.max per_page 1) 1000) in *.
  set (all := order_by RolePrivilegeRepository.link_le
                       (RolePrivilegeRepository.link_join st)).
  assert (Hlen : (length (offset_limit ((Z.max page 1 - 1) * pp) pp all) <= Z.to_nat pp)%nat)
    by (apply offset_limit_length; lia).
  rewrite List.length_map. split; [lia|]. split.
  - intros k Hk. apply in_map_iff in Hk as ([[l r] p] & <- & Hrow).
    apply offset_limit_In in Hrow. subst all. apply order_by_In in Hrow.
    apply link_join_In in Hrow as (Hl & Hr & Hp & Hrid & Hpid).
    cbn [RolePrivilegeRepository.link_of_row link_role_id link_privilege_id
         link_role_name link_privilege_resource link_privilege_action
         link_privilege_description].
    split; [now destruct l|]. exists r, p. repeat split; auto.
  - intros Hru Hpu.
    assert (length (offset_limit ((Z.max page 1 - 1) * pp) pp all) <= length all)%nat.
    { unfold offset_limit. destruct (pp <? 0).
      - rewrite List.length_skipn. lia.
      - rewrite List.length_firstn, List.length_skipn. lia. }
    assert (length all <= length (role_privileges st))%nat; [|lia].
    subst all. rewrite order_by_length. unfold RolePrivilegeRepository.link_join.
    etransitivity.
    + apply join_length_le. intros [l r] _. cbn [fst snd].
      apply (filter_by_id_length privilege_id). exact Hpu.
    + apply join_length_le. intros l _.
      apply (filter_by_id_length role_id). exact Hru.
Qed.

(** ** Replacing the roles of a user *)

Lemma insert_loop (uid : Z) (rs : list RoleORM) :
  List.NoDup (map role_id rs) ->
  forall st,
    (forall r, In r rs -> ~ In (uid, role_id r) (user_roles st)) ->
    for_each rs (fun r => UserRepository.insert_user_role uid (role_id r)) st
    = Ok (tt, set_user_roles st
                (user_roles st ++ map (fun r => (uid, role_id r)) rs)%list).
Proof.
  induction rs as [|role rs IH]; intros Hnd st Hfree.
  - cbn [for_each map]. rewrite app_nil_r. destruct st; reflexivity.
  - inversion Hnd as [|k ks Hk Hnd']; subst.
    cbn [for_each]. unfold bind at 1. unfold UserRepository.insert_user_role at 1.
    unfold bind at 1. unfold get_store at 1.
    destruct (existsb (pair_eqb (uid, role_id role)) (user_roles st)) eqn:Ex.
    { apply existsb_pair_In in Ex. exfalso. apply (Hfree role); [now left|exact Ex]. }
    unfold put_store at 1. rewrite IH; [|exact Hnd'|].
    + cbn [user_roles set_user_roles map]. rewrite <- List.app_assoc.
      destruct st; reflexivity.
    + intros r Hr Hin. cbn [user_roles set_user_roles] in Hin.
      apply in_app_or in Hin as [Hin|[Hin|[]]].
      * apply (Hfree r); [now right|exact Hin].
      * injection Hin as Hin. apply Hk. rewrite Hin. now apply in_map.
Qed.

Lemma existsb_id_In (r : RoleORM) (rs : list RoleORM) :
  existsb (fun r' => role_id r' =? role_id r) rs = true
  <-> exists r', In r' rs /\ role_id r' = role_id r.
Proof.
  rewrite existsb_exists. split; intros (x & Hx & E); exists x;
    (split; [exact Hx|]); now apply Z.eqb_eq.
Qed.

(** X26. [UserRepository.update_user] with a list of role ids that fit
    an SQLite INTEGER replaces the user's roles: afterwards the user is
    linked to a stored role exactly when its id is in the list and it is
    not soft-deleted; the links of other users are as before.  With an id
    out of range the call raises [OverflowError].  Role ids are unique. *)
Theorem update_user_replaces_roles (st : Store) (user : UserORM) (role_ids : list Z) :
  role_ids_unique st ->
  if forallb in_int64 role_ids
  then exists st',
      UserRepository.update_user user None (Some role_ids) st = Ok (user, st')
      /\ users st' = users st /\ roles st' = roles st
      /\ (forall r, In r (roles st) ->
                    (In (user_id user, role_id r) (user_roles st')
                     <-> In (role_id r) role_ids /\ role_deleted_at r = None))
      /\ (forall l, fst l <> user_id user ->
                    (In l (user_roles st') <-> In l (user_roles st)))
  else UserRepository.update_user user None (Some role_ids) st = Raise OverflowError.
Proof.
  intros Huq. destruct (forallb in_int64 role_ids) eqn:Er.
  2:{ unfold UserRepository.update_user. cbn [truthy_opt_str]. unfold bind at 1.
      unfold ret at 1. unfold bind at 1. unfold bind at 1.
      now rewrite bind_params_out_of_range by exact Er. }
  set (uid := user_id user).
  set (new := List.filter (fun r => UserRepository.in_ids role_ids (role_id r)
                                    && is_None (role_deleted_at r)) (roles st)).
  set (old := UserRepository.loaded_roles st uid).
  set (dropped := List.filter
                    (fun r => negb (existsb (fun r' => role_id r' =? role_id r) new)) old).
  set (added := List.filter
                  (fun r => negb (existsb (fun r' => role_id r' =? role_id r) old)) new).
  set (links1 := List.filter
                   (fun l => negb ((fst l =? uid)
                                   && existsb (fun r => role_id r =? snd l) dropped))
                   (user_roles st)).
  assert (Hnew : forall r, In r new <-> In r (roles st) /\ In (role_id r) role_ids
                                        /\ role_deleted_at r = None).
  { intros r. subst new. rewrite List.filter_In, andb_true_iff, in_ids_In, is_None_true.
    tauto. }
  assert (Hold : forall r, In r old <-> In r (roles st) /\ In (uid, role_id r) (user_roles st)).
  { intros r. subst old. unfold UserRepository.loaded_roles.
    rewrite List.filter_In, existsb_pair_In. tauto. }
  assert (Hsame : forall a b, In a (roles st) -> In b (roles st) ->
                              role_id a = role_id b -> a = b)
    by (intros a b Ha Hb; apply (NoDup_map_eq role_id (roles st)); assumption).
  assert (Hadded_free : forall r, In r added -> ~ In (uid, role_id r) (user_roles (set_user_roles st links1))).
  { intros r Hr Hin. subst added. apply List.filter_In in Hr as [Hr Hc].
    apply negb_true_iff in Hc. cbn [user_roles set_user_roles] in Hin.
    subst links1. apply List.filter_In in Hin as [Hin _].
    assert (existsb (fun r' => role_id r' =? role_id r) old = true); [|congruence].
    apply existsb_id_In. exists r. split; [|reflexivity].
    apply Hold. split; [now apply Hnew in Hr|exact Hin]. }
  assert (Hadded_nd : List.NoDup (map role_id added)).
  { subst added new. apply NoDup_map_filter, NoDup_map_filter. exact Huq. }
  eexists. split; [|split; [|split; [|split]]].
  - unfold UserRepository.update_user. cbn [truthy_opt_str]. unfold bind at 1.
    unfold ret at 1. unfold bind at 1. unfold bind at 1.
    rewrite bind_params_in_range by exact Er.
    unfold bind at 1. unfold get_store at 1.
    unfold UserRepository.replace_roles. unfold bind at 1. unfold get_store at 1.
    unfold bind at 1. unfold put_store at 1.
    fold uid. fold new. fold old. fold dropped. fold added. fold links1.
    rewrite (insert_loop uid added Hadded_nd _ Hadded_free). reflexivity.
  - reflexivity.
  - reflexivity.
  - intros r Hr. cbn [user_roles set_user_roles]. rewrite in_app_iff. split.
    + intros [Hin|Hin].
      * subst links1. apply List.filter_In in Hin as [Hin Hc]. cbn [fst snd] in Hc.
        rewrite Z.eqb_refl in Hc. cbn [andb] in Hc. apply negb_true_iff in Hc.
        assert (Hro : In r old) by (apply Hold; auto).
        destruct (existsb (fun r' => role_id r' =? role_id r) new) eqn:En.
        -- apply existsb_id_In in En as (n & Hn & Hid).
           pose proof Hn as Hn'. apply Hnew in Hn' as (Hn1 & Hn2 & Hn3).
           rewrite (Hsame n r Hn1 Hr Hid) in *. auto.
        -- exfalso.
           assert (existsb (fun d => role_id d =? role_id r) dropped = true);
             [|congruence].
           apply existsb_id_In. exists r. split; [|reflexivity].
           subst dropped. apply List.filter_In. split; [exact Hro|]. now rewrite En.
      * apply in_map_iff in Hin as (a & Ha & Hain). injection Ha as Ha.
        subst added. apply List.filter_In in Hain as [Hain _].
        pose proof Hain as Hain'. apply Hnew in Hain' as (Ha1 & Ha2 & Ha3).
        rewrite (Hsame a r Ha1 Hr Ha) in *. auto.
    + intros [Hids Hact].
      assert (Hrn : In r new) by (apply Hnew; auto).
      destruct (existsb (fun r' => role_id r' =? role_id r) old) eqn:Eo.
      * left. apply existsb_id_In in Eo as (o & Ho & Hid).
        apply Hold in Ho as (Ho1 & Ho2). rewrite Hid in Ho2.
        subst links1. apply List.filter_In. split; [exact Ho2|]. cbn [fst snd].
        rewrite Z.eqb_refl. cbn [andb]. apply negb_true_iff.
        destruct (existsb (fun d => role_id d =? role_id r) dropped) eqn:Ed; [|reflexivity].
        exfalso. apply existsb_id_In in Ed as (d & Hd & Hdid).
        subst dropped. apply List.filter_In in Hd as [Hd Hc].
        apply negb_true_iff in Hc.
        assert (existsb (fun r' => role_id r' =? role_id d) new = true); [|congruence].
        apply existsb_id_In. exists r. split; [exact Hrn | congruence].
      * right. apply in_map_iff. exists r. split; [reflexivity|].
        subst added. apply List.filter_In. split; [exact Hrn|]. now rewrite Eo.
  - intros l Hl. cbn [user_roles set_user_roles]. rewrite in_app_iff. split.
    + intros [Hin|Hin].
      * subst links1. now apply List.filter_In in Hin as [Hin _].
      * apply in_map_iff in Hin as (a & <- & _). cbn [fst] in Hl. contradiction.
    + intros Hin. left. subst links1. apply List.filter_In. split; [exact Hin|].
      destruct (fst l =? uid) eqn:E; [|reflexivity]. apply Z.eqb_eq in E. contradiction.
Qed.

Lemma update_user_replaces_roles_witness :
  exists st',
    UserRepository.update_user example_user None (Some [7]) example_auditor_store
    = Ok (example_user, st')
    /\ (In (1, 1) (user_roles st') <-> In 1 [7] /\ @None Z = None).
Proof.
  pose proof (update_user_replaces_roles example_auditor_store example_user [7]) as Hthm.
  cbn [forallb in_int64] in Hthm.
  destruct Hthm as (st' & Hupd & _ & _ & Hlinks & _).
  - repeat constructor. intros [].
  - exists st'. split; [exact Hupd|].
    apply (Hlinks example_role). now left.
Defined.

(** ** Keys of hard-deleted roles *)

Lemma fold_max_le (ids : list Z) (b : Z) :
  0 <= b -> (forall x, In x ids -> x <= b) -> fold_right Z.max 0 ids <= b.
Proof.
  intros Hb. induction ids as [|x ids IH]; intros Hall; simpl; [exact Hb|].
  apply Z.max_lub; [apply Hall; now left | apply IH; intros; apply Hall; now right].
Qed.

Lemma get_or_create_keeps_users (resource action : string) (d : option string)
      (st st' : Store) (p : PrivilegeORM) :
  PrivilegeRepository.get_or_create resource action d st = Ok (p, st') ->
  users st' = users st /\ user_roles st' = user_roles st.
Proof.
  intros Hgoc. apply get_or_create_Ok in Hgoc as (_ & _ & _ & _ & [-> | (-> & _)]); auto.
Qed.

Lemma attach_privilege_keeps_user_roles (role : RoleORM) (p : PrivilegeORM)
      (st st' : Store) (t : unit) :
  RoleRepository.attach_privilege role p st = Ok (t, st') ->
  users st' = users st /\ user_roles st' = user_roles st.
Proof.
  unfold RoleRepository.attach_privilege.
  destruct (negb (truthy_int (role_id role)) || negb (truthy_int (privilege_id p))).
  - unfold ret. intros E. injection E as _ <-. auto.
  - unfold_monad. destruct (first _).
    + intros E. injection E as _ <-. auto.
    + unfold RoleRepository.insert_role_privilege. unfold_monad.
      destruct (existsb _ (role_privileges st)); [discriminate|].
      intros E. injection E as _ <-. auto.
Qed.

Lemma create_sync_keeps_users (role : RoleORM) (ps : option (list (string * string)))
      (st st' : Store) :
  create_sync role ps st = Ok (tt, st') ->
  users st' = users st /\ user_roles st' = user_roles st.
Proof.
  unfold create_sync. destruct ps as [[|spec specs]|].
  - unfold ret. intros E. injection E as <-. auto.
  - unfold RoleService._sync_privileges. intros Hrun.
    assert (Hbody : forall x s t s',
               (let* privilege := PrivilegeRepository.get_or_create (fst x) (snd x) None in
                RoleRepository.attach_privilege role privilege) s = Ok (t, s') ->
               (users s', user_roles s') = (users s, user_roles s)).
    { intros x s t s' Hb. first_call Hb as p s1 Egoc.
      apply get_or_create_keeps_users in Egoc as [Hu1 Hl1].
      apply attach_privilege_keeps_user_roles in Hb as [Hu2 Hl2]. congruence. }
    pose proof (for_each_preserves (fun s => (users s, user_roles s)) _ _ Hbody _ _ Hrun)
      as Hpair.
    injection Hpair as -> ->. auto.
  - unfold ret. intros E. injection E as <-. auto.
Qed.

(** X27. The key of a hard-deleted role passes to the next role: on the
    storage engine modelled here (keys allocated as one more than the
    largest present, foreign keys not enforced) [delete_role] with [hard]
    leaves the [user_roles] rows of the role in place, so when the deleted
    role had the largest key, the role created next gets that key and
    with it the users of the deleted role; if the new role is a superuser
    role, they pass every [assert_privilege]. *)
Theorem hard_deleted_role_key_passes_to_next_role
        (st st1 st2 : Store) (rid : Z) (now' : Z) (name : string)
        (ps : option (list (string * string))) (su : bool) (created : RoleORM)
        (u : UserORM) :
  0 < rid ->
  (forall r, In r (roles st) -> role_id r <= rid) ->
  (rid = 1 \/ exists r, In r (roles st) /\ role_id r = rid - 1) ->
  In u (users st) ->
  In (user_id u, rid) (user_roles st) ->
  RoleService.delete_role rid true now' st = Ok (tt, st1) ->
  RoleService.create_role_commit name ps su st1 = Ok (created, st2) ->
  (forall r, In r (roles st1) -> role_id r <> rid)
  /\ In (user_id u, rid) (user_roles st1)
  /\ role_id created = rid
  /\ In created (roles st2)
  /\ In (user_id u, role_id created) (user_roles st2)
  /\ (su = true ->
      forall resource action,
        AuthService.assert_privilege (user_id u) resource action st2 = Ok (tt, st2)).
Proof.
  intros Hrid Hmax Hprev Hu Hlink Hdel Hcreate.
  unfold RoleService.delete_role in Hdel. first_call Hdel as role st0 Ereq.
  apply require_role_Ok in Ereq as (-> & Hrin & Hri & _).
  unfold RoleRepository.hard_delete in Hdel. unfold_monad. injection Hdel as <-.
  set (st1 := set_roles _ _) in *.
  assert (Hroles1 : roles st1 = List.filter (fun r => negb (role_id r =? rid)) (roles st))
    by (subst st1; rewrite Hri; reflexivity).
  assert (Hgone : forall r, In r (roles st1) -> role_id r <> rid).
  { intros r Hr. rewrite Hroles1 in Hr. apply List.filter_In in Hr as [_ Hc].
    apply negb_true_iff in Hc. now apply Z.eqb_neq. }
  assert (Hnext : next_id (map role_id (roles st1)) = rid).
  { unfold next_id.
    assert (Hle : fold_right Z.max 0 (map role_id (roles st1)) <= rid - 1).
    { apply fold_max_le; [lia|]. intros x Hx. apply in_map_iff in Hx as (r & <- & Hr).
      pose proof (Hgone r Hr). rewrite Hroles1 in Hr. apply List.filter_In in Hr as [Hr _].
      specialize (Hmax r Hr). lia. }
    assert (Hge : rid - 1 <= fold_right Z.max 0 (map role_id (roles st1))).
    { destruct Hprev as [-> | (r & Hr & Hid)].
      - clear. induction (map role_id (roles st1)); simpl; lia.
      - apply fold_max_ge. apply in_map_iff. exists r. split; [exact Hid|].
        rewrite Hroles1. apply List.filter_In. split; [exact Hr|].
        apply negb_true_iff, Z.eqb_neq. lia. }
    lia. }
  rewrite create_role_commit_eq, create_eq in Hcreate.
  destruct (if su then RoleRepository._assert_single_super_role None st1 else Ok (tt, st1))
    as [[? ?]|e] eqn:Eassert; [|destruct e; discriminate].
  destruct (existsb _ (roles st1)); [discriminate|].
  destruct (create_sync (new_role st1 name su) ps _) as [[[] st3]|] eqn:Esync;
    [|discriminate].
  injection Hcreate as <- <-.
  pose proof (create_sync_keeps_users _ _ _ _ Esync) as [Hus Hur].
  pose proof (keeps_roles_create_sync (new_role st1 name su) ps
                (set_roles st1 (roles st1 ++ [new_role st1 name su])%list)) as Hkeep.
  rewrite Esync in Hkeep. cbn [roles set_roles] in Hkeep.
  cbn [users user_roles set_roles] in Hus, Hur.
  assert (Hcin : In (new_role st1 name su) (roles st3))
    by (rewrite Hkeep; apply in_or_app; right; now left).
  assert (Hl3 : In (user_id u, rid) (user_roles st3)) by (rewrite Hur; exact Hlink).
  cbn [role_id new_role]. rewrite Hnext.
  repeat split; auto.
  intros -> resource action.
  apply (assert_privilege_cases st3 (user_id u) resource action). left.
  exists u, (new_role st1 name true). cbn [role_id new_role role_is_superuser role_deleted_at].
  rewrite Hnext, Hus. repeat split; auto.
Qed.

Lemma hard_deleted_role_key_passes_to_next_role_witness :
  exists st1 created st2,
    RoleService.delete_role 1 true 0 example_auditor_store = Ok (tt, st1)
    /\ RoleService.create_role_commit "operators" None true st1 = Ok (created, st2)
    /\ role_id created = 1
    /\ AuthService.assert_privilege 1 "roles" "delete" st2 = Ok (tt, st2).
Proof.
  set (st1 := mkStore [example_user] [] [example_privilege] [(1, 1)] []).
  set (created := mkRole 1 "operators" true None).
  set (st2 := mkStore [example_user] [created] [example_privilege] [(1, 1)] []).
  assert (Hdel : RoleService.delete_role 1 true 0 example_auditor_store = Ok (tt, st1))
    by reflexivity.
  assert (Hcreate : RoleService.create_role_commit "operators" None true st1
                    = Ok (created, st2)) by reflexivity.
  exists st1, created, st2.
  split; [exact Hdel|]. split; [exact Hcreate|].
  destruct (hard_deleted_role_key_passes_to_next_role example_auditor_store st1 st2 1 0
              "operators" None true created example_user)
    as (_ & _ & Hid & _ & _ & Hsuper); try assumption.
  - lia.
  - intros r [<-|[]]. simpl. lia.
  - now left.
  - now left.
  - now left.
  - split; [exact Hid|]. exact (Hsuper eq_refl "roles" "delete").
Defined.

(** ** Revoking a privilege, unblocking a user, updating a privilege *)

(** X28. Once [RoleService.revoke_privilege] has returned, the link is
    gone, and a user without a superuser role whose only role it was is
    refused the resource and action of the privilege by
    [assert_privilege].  Keys are as the database allocates them: not 0. *)
Theorem revoke_privilege_denies_role_holders
        (st st' : Store) (rid pid uid : Z) (r : option RoleORM) :
  rid <> 0 -> pid <> 0 ->
  privilege_unique st ->
  RoleService.revoke_privilege rid pid st = Ok (r, st') ->
  (forall x, In (uid, x) (user_roles st) -> x = rid) ->
  ~ holds_superuser_role st uid ->
  exists p,
    In p (privileges st) /\ privilege_id p = pid
    /\ ~ In (rid, pid) (role_privileges st')
    /\ AuthService.assert_privilege uid (privilege_resource p) (privilege_action p) st'
       = Raise (HTTPException HTTP_403_FORBIDDEN
                  ("Missing privilege " ++ privilege_action p ++ " on "
                   ++ privilege_resource p)).
Proof.
  intros Hrid Hpid Huq Hrev Honly Hns.
  unfold RoleService.revoke_privilege in Hrev.
  first_call Hrev as role st0 Ereq.
  apply require_role_Ok in Ereq as (-> & Hrin & Hri & _).
  first_call Hrev as o st0 Eget. destruct o as [p|]; [|discriminate].
  apply privilege_get_by_id_Ok in Eget as (-> & Hp & Hpi & _).
  first_call Hrev as x st2 Edet. destruct x.
  rewrite (detach_result role p ltac:(congruence) ltac:(congruence) st) in Edet.
  injection Edet as <-. apply role_get_by_id_store in Hrev. subst st'.
  rewrite Hri, Hpi. exists p. split; [exact Hp|]. split; [exact Hpi|].
  assert (Hnol : ~ In (rid, pid)
                      (List.filter (fun l => negb (pair_eqb (rid, pid) l))
                                   (role_privileges st))).
  { intros Hin. apply List.filter_In in Hin as [_ Hc].
    rewrite pair_eqb_refl in Hc. discriminate. }
  split; [exact Hnol|].
  apply assert_privilege_cases.
  - intros (u & r0 & Hu & Hid & Hl & Hr0 & Hsu & Hd). apply Hns.
    exists u, r0. repeat split; auto.
  - intros (u & r0 & q & _ & _ & _ & Hl & _ & _ & Hlq & Hq & _ & Hres & Hact).
    cbn [user_roles privileges role_privileges set_role_privileges] in *.
    rewrite (Honly _ Hl) in Hlq.
    assert (q = p) as ->.
    { apply (NoDup_map_eq privilege_key (privileges st)); auto.
      unfold privilege_key. congruence. }
    rewrite Hpi in Hlq. contradiction.
Qed.

Lemma revoke_privilege_denies_role_holders_witness :
  AuthService.assert_privilege 1 "users" "read" example_reader_store
  = Ok (tt, example_reader_store)
  /\ exists r st',
      RoleService.revoke_privilege 1 1 example_reader_store = Ok (r, st')
      /\ AuthService.assert_privilege 1 "users" "read" st'
         = Raise (HTTPException HTTP_403_FORBIDDEN "Missing privilege read on users").
Proof.
  split; [reflexivity|].
  set (st' := mkStore [example_user] [example_role] [example_privilege] [(1, 1)] []).
  assert (Hrev : RoleService.revoke_privilege 1 1 example_reader_store
                 = Ok (Some example_role, st')) by reflexivity.
  exists (Some example_role), st'. split; [exact Hrev|].
  destruct (revoke_privilege_denies_role_holders example_reader_store st' 1 1 1
              (Some example_role))
    as (p & Hp & _ & _ & Hdenied); try assumption.
  - discriminate.
  - discriminate.
  - repeat constructor. intros [].
  - intros x [E|[]]. now injection E.
  - intros (u & r0 & _ & _ & _ & Hr0 & Hsu & _). destruct Hr0 as [<-|[]]. discriminate.
  - destruct Hp as [<-|[]]. exact Hdenied.
Defined.

(** A read of a user who is not in the cache goes to the database and
    returns the row. *)
Lemma get_by_id_miss (env : Env) (i : Z) (st : Store) (c : DragonflyCache.t) (u : UserORM) :
  client_reaches_server env c ->
  cached_at env c (UserService.id_key i) = None ->
  0 < DragonflyCache.ttl_seconds c ->
  UserRepository.get_by_id i st = Ok (Some u, st) ->
  exists c2,
    UserService.get_by_id env i (mkWorld st c) = Ok (Some (ORMUser u), mkWorld st c2).
Proof.
  intros Hreach Habs Httl Hdb.
  destruct (cache_get_total env c (UserService.id_key i) Hreach) as (v & c1 & Eget).
  unfold cached_at in Habs. rewrite Eget in Habs. subst v.
  apply cache_get_reaches in Eget as Hafter. destruct Hafter as [Hreach1 Httl1].
  destruct (cache_set_default_total env c1 (UserService.id_key i)
              (VUser (UserService._serialize_user st u)) Hreach1)
    as (c2 & Eset); [lia|].
  exists c2. unfold UserService.get_by_id. unfold bind at 1. unfold in_cache at 1.
  cbn [db cache]. rewrite Eget. cbn [truthy_value]. cbv beta iota.
  unfold bind at 1. unfold in_db at 1. cbn [db cache]. rewrite Hdb. cbv beta iota.
  unfold UserService.cache_user, bind, get_store, in_cache. cbn [db cache].
  rewrite Eset. reflexivity.
Qed.

(** X29. Once [UserService.unblock_user] has returned, the next request
    that carries a token of that user, if the token is not revoked, is
    let through by [get_current_user] with the unblocked row of the
    database: no cached copy of the blocked user is left.  The backend may
    not change between the two calls. *)
Theorem unblock_user_lets_next_request_through `{Security}
        (int_of_str : string -> option Z) (env env' : Env) (w w' : World) (i : Z)
        (unblocked : UserORM) (token sub : string) (payload : TokenPayload)
        (c1 : DragonflyCache.t) :
  user_ids_unique (db w) ->
  i <> 0 ->
  0 < DragonflyCache.ttl_seconds (cache w) ->
  redis_up env' = redis_up env ->
  decode_access_token token (now env') = Some payload ->
  payload_sub payload = Some sub ->
  int_of_str sub = Some i ->
  UserService.unblock_user env i w = Ok (unblocked, w') ->
  TokenBlocklistService.is_revoked env' token (cache w') = Ok (false, c1) ->
  user_is_blocked unblocked = false
  /\ exists w2,
      Dependencies.get_current_user int_of_str env' token w'
      = Ok (ORMUser unblocked, w2)
      /\ db w2 = db w'.
Proof.
  intros Hids Hi Httl Hup Hdec Hsub Hint Hun Hrev.
  unfold UserService.unblock_user in Hun.
  first_call Hun as user w1 Ereq. apply in_db_Ok in Ereq as (st1 & Ereq & ->).
  apply require_user_Ok in Ereq as (-> & Hin & Hid & Hact). specialize (Hact eq_refl).
  first_call Hun as updated w2 Eupd. apply in_db_Ok in Eupd as (st2 & Eupd & ->).
  cbn [db cache] in *.
  unfold UserRepository.set_block_status, UserRepository.flush_row in Eupd.
  unfold bind, ret, get_store, put_store in Eupd. injection Eupd as <- <-.
  first_call Hun as x w3 Einv. destruct x. unfold ret in Hun.
  injection Hun as <- <-.
  set (b := mkUser (user_id user) (user_email user) (user_hashed_password user)
                   (user_is_active user) false (user_deleted_at user)) in *.
  destruct (invalidate_cache_removes_keys env env' b _ _ Einv Hup) as (Hdb & _ & Habs).
  destruct (invalidate_cache_reaches env b _ _ Einv) as (Hreach & Httl').
  cbn [db cache] in Hdb, Httl'.
  assert (Husers : users (db w3) = map (replace_user b) (users (db w)))
    by (rewrite Hdb; reflexivity).
  assert (Hin' : In b (users (db w3))).
  { rewrite Husers. now apply (In_replace_user b user). }
  assert (Hids' : user_ids_unique (db w3)).
  { unfold user_ids_unique. rewrite Husers. now rewrite map_user_id_replace. }
  assert (Hget : UserRepository.get_by_id i (db w3) = Ok (Some b, db w3)).
  { rewrite <- Hid. change (user_id user) with (user_id b).
    rewrite (get_by_id_unique (db w3) b Hids' Hin').
    cbn [user_deleted_at b]. rewrite Hact. reflexivity. }
  split; [reflexivity|].
  destruct (is_revoked_get env' token _ _ _ Hrev) as [v0 Eg0].
  assert (Habs1 : cached_at env' c1 (UserService.id_key i) = None).
  { eapply get_keeps_absent; [exact Eg0|]. subst i. apply Habs. exact Hi. }
  apply cache_get_reaches in Eg0 as [Hreach1 Httl1].
  destruct (get_by_id_miss env' i (db w3) c1 b Hreach1 Habs1 ltac:(lia) Hget)
    as (c2 & Hmiss).
  exists (mkWorld (db w3) c2). split; [|reflexivity].
  apply (get_current_user_from int_of_str env' token w3 _ _ i c1).
  - unfold Dependencies.decode_subject. rewrite Hdec, Hsub, Hint. reflexivity.
  - exact Hrev.
  - exact Hmiss.
  - reflexivity.
Qed.

Lemma unblock_user_lets_next_request_through_witness :
  exists unblocked w' w2,
    UserService.unblock_user example_env 1 example_blocked_world = Ok (unblocked, w')
    /\ Dependencies.get_current_user (H := example_security) example_int_of_str
         example_env "1" w'
       = Ok (ORMUser unblocked, w2).
Proof.
  eexists. eexists.
  assert (Hun : UserService.unblock_user example_env 1 example_blocked_world = Ok (_, _))
    by (vm_compute; reflexivity).
  destruct (unblock_user_lets_next_request_through (H := example_security) example_int_of_str
              example_env example_env example_blocked_world _ 1 _
              "1" "1" (mkPayload (Some "1") None) _
              ltac:(repeat constructor; intros []) ltac:(discriminate)
              ltac:(reflexivity) eq_refl eq_refl eq_refl eq_refl Hun
              ltac:(vm_compute; reflexivity))
    as (_ & w2 & Hcur & _).
  exists w2. split; [exact Hun | exact Hcur].
Defined.

(** X30. [PrivilegeService.update_privilege] carries the grants of a
    privilege over to its new resource and action: once it has returned, a
    user passes [assert_privilege] for the pair the privilege has now
    exactly when the user passed it for the pair it had before.  The
    table satisfies its primary key and [uq_privilege_resource_action]. *)
Theorem update_privilege_carries_grants_over
        (st st' : Store) (pid : Z) (resource action description : option string)
        (updated : PrivilegeORM) :
  privilege_unique st ->
  List.NoDup (map privilege_id (privileges st)) ->
  PrivilegeService.update_privilege pid resource action description st
  = Ok (updated, st') ->
  exists p,
    In p (privileges st) /\ privilege_id p = pid /\ privilege_deleted_at p = None
    /\ In updated (privileges st') /\ privilege_id updated = pid
    /\ privilege_resource updated
       = (if truthy_opt_str resource then default "" resource else privilege_resource p)
    /\ privilege_action updated
       = (if truthy_opt_str action then default "" action else privilege_action p)
    /\ forall uid,
        AuthService.assert_privilege uid (privilege_resource updated)
          (privilege_action updated) st' = Ok (tt, st')
        <-> AuthService.assert_privilege uid (privilege_resource p)
              (privilege_action p) st = Ok (tt, st).
Proof.
  intros Huq Hnd Hupd. unfold PrivilegeService.update_privilege in Hupd.
  first_call Hupd as p st0 Ereq.
  apply require_privilege_Ok in Ereq as (-> & Hp & Hpi & Hpd). specialize (Hpd eq_refl).
  unfold PrivilegeRepository.update in Hupd.
  set (new := mkPrivilege (privilege_id p)
                (if truthy_opt_str resource then default "" resource
                 else privilege_resource p)
                (if truthy_opt_str action then default "" action else privilege_action p)
                (match description with Some d => Some d | None => privilege_description p end)
                (privilege_deleted_at p)) in *.
  unfold bind at 1 in Hupd. unfold get_store at 1 in Hupd.
  assert (Hrun : (PrivilegeRepository.flush_row new ;; ret new) st = Ok (updated, st')
                 /\ forall x, In x (privileges st) -> privilege_id x <> privilege_id p ->
                              privilege_key x <> privilege_key new).
  { destruct (negb (String.eqb (privilege_resource new) (privilege_resource p)
                    && String.eqb (privilege_action new) (privilege_action p)))
      eqn:Echanged; cbn [andb] in Hupd.
    - destruct (existsb _ (privileges st)) eqn:Eother; [discriminate|].
      split; [exact Hupd|]. intros x Hx Hid Hkey.
      assert (existsb (fun q => negb (privilege_id q =? privilege_id new)
                                && String.eqb (privilege_resource q) (privilege_resource new)
                                && String.eqb (privilege_action q) (privilege_action new))
                      (privileges st) = true); [|congruence].
      apply existsb_exists. exists x. split; [exact Hx|].
      unfold privilege_key in Hkey. injection Hkey as -> ->.
      rewrite !String.eqb_refl, !andb_true_r. apply negb_true_iff, Z.eqb_neq. exact Hid.
    - split; [exact Hupd|]. intros x Hx Hid Hkey.
      apply negb_false_iff, andb_true_iff in Echanged as [E1 E2].
      apply String.eqb_eq in E1, E2. apply Hid. f_equal.
      apply (NoDup_map_eq privilege_key (privileges st)); auto.
      rewrite Hkey. unfold privilege_key. congruence. }
  clear Hupd. destruct Hrun as [Hrun Hothers].
  unfold PrivilegeRepository.flush_row in Hrun. unfold_monad.
  injection Hrun as <- <-.
  set (st' := set_privileges st _).
  assert (Hnew_in : In new (privileges st')).
  { subst st'. cbn [privileges set_privileges]. apply in_map_iff. exists p.
    split; [|exact Hp]. cbn [privilege_id new]. now rewrite Z.eqb_refl. }
  assert (Honly : forall q, In q (privileges st') -> privilege_key q = privilege_key new ->
                            q = new).
  { intros q Hq Hkey. subst st'. cbn [privileges set_privileges] in Hq.
    apply in_map_iff in Hq as (x & Hx & Hxin). cbn [privilege_id new] in Hx.
    destruct (privilege_id x =? privilege_id p) eqn:E; [now subst q|].
    subst q. apply Z.eqb_neq in E. exfalso. exact (Hothers x Hxin E Hkey). }
  assert (Hsup : forall uid, holds_superuser_role st' uid <-> holds_superuser_role st uid)
    by (intros uid; reflexivity).
  exists p. repeat split; auto.
  - intros Hok.
    apply (assert_privilege_cases st' uid) in Hok as [Hs|Hh];
      apply (assert_privilege_cases st uid); [left; now apply Hsup|right].
    destruct Hh as (u & r & q & Hu & Hid & Hud & Hl & Hr & Hrd & Hlq & Hq & Hqd & Hres & Hact).
    assert (q = new) as -> by (apply Honly; [exact Hq | unfold privilege_key; congruence]).
    exists u, r, p. repeat split; auto.
  - intros Hok.
    apply (assert_privilege_cases st uid) in Hok as [Hs|Hh];
      apply (assert_privilege_cases st' uid); [left; now apply Hsup|right].
    destruct Hh as (u & r & q & Hu & Hid & Hud & Hl & Hr & Hrd & Hlq & Hq & Hqd & Hres & Hact).
    assert (q = p) as ->
        by (apply (NoDup_map_eq privilege_key (privileges st)); auto;
            unfold privilege_key; congruence).
    exists u, r, new. repeat split; auto.
Qed.

Lemma update_privilege_carries_grants_over_witness :
  exists updated st',
    PrivilegeService.update_privilege 1 (Some "accounts") None None example_reader_store
    = Ok (updated, st')
    /\ AuthService.assert_privilege 1 "accounts" "read" st' = Ok (tt, st').
Proof.
  set (updated := mkPrivilege 1 "accounts" "read" None None).
  set (st' := mkStore [example_user] [example_role] [updated] [(1, 1)] [(1, 1)]).
  assert (Hupd : PrivilegeService.update_privilege 1 (Some "accounts") None None
                   example_reader_store = Ok (updated, st')) by reflexivity.
  exists updated, st'. split; [exact Hupd|].
  destruct (update_privilege_carries_grants_over example_reader_store st' 1
              (Some "accounts") None None updated)
    as (p & Hp & _ & _ & _ & _ & _ & _ & Hiff); try assumption.
  - repeat constructor. intros [].
  - repeat constructor. intros [].
  - destruct Hp as [<-|[]]. apply (Hiff 1). reflexivity.
Defined.

(** ** The states a process reaches

    What each call of [step] does to [users] and to the in-process cache,
    and what a process therefore keeps true from its start. *)



Section UsersWritten.
Context `{Security}.








End UsersWritten.


Section Mutations.
Context `{Security}.




End Mutations.

Section Lookups.
Context `{Security}.






End Lookups.







Section Invariants.
Context `{Security}.
Variable settings : Settings.





End Invariants.

Section ProcessInvariant.
Context `{Security}.
Variable settings : Settings.





End ProcessInvariant.



(** ** The statements at concrete inputs *)

Lemma attach_twice_one_link_detach_only_link_witness :
  exists st1,
    RoleRepository.attach_privilege example_role example_privilege example_role_store
    = Ok (tt, st1)
    /\ RoleRepository.attach_privilege example_role example_privilege st1 = Ok (tt, st1)
    /\ link_count st1 1 1 = 1%nat.
Proof.
  destruct (attach_twice_one_link_detach_only_link
              example_role_store example_role example_privilege)
    as [(st1 & H1 & H2 & H3 & _) _].
  - simpl; lia.
  - simpl; lia.
  - simpl; constructor.
  - exists st1. repeat split; assumption.
Defined.

Lemma role_operations_keep_single_superuser_witness :
  at_most_one_super
    (RoleService.run deleted_super_role_store
       [RoleService.OpRestore 1; RoleService.OpCreate "operators" None true])
  /\ at_most_one_active_super
       (RoleService.run deleted_super_role_store
          [RoleService.OpRestore 1; RoleService.OpCreate "operators" None true]).
Proof.
  apply (role_operations_keep_single_superuser deleted_super_role_store).
  - unfold role_ids_unique; simpl. repeat constructor. simpl; tauto.
  - unfold at_most_one_super; simpl; lia.
Defined.

Lemma superuser_flag_refused_iff_other_superuser_witness :
  (RoleService.create_role "operators" None true example_staff_store
   = Raise superuser_exists_error
   <-> exists r, In r (roles example_staff_store) /\ role_is_superuser r = true)
  /\ (RoleService.update_role 2 None None (Some true) example_staff_store
      = Raise superuser_exists_error
      <-> exists r, In r (roles example_staff_store) /\ role_is_superuser r = true
                    /\ role_id r <> 2)
  /\ RoleService.update_role 2 (Some "admin") None (Some true) example_staff_store
     = Raise (IntegrityError "roles.name").
Proof.
  destruct (superuser_flag_refused_iff_other_superuser example_staff_store)
    as (Hc & Hu & Hn & _).
  - unfold at_most_one_super; simpl; lia.
  - split; [apply Hc|]. split.
    + apply (Hu example_staff_role None None); reflexivity.
    + apply (Hn example_staff_role (Some "admin") None (Some true)); reflexivity.
Defined.

Lemma login_follows_user_lifecycle_witness :
  (exists deleted st1,
      UserRepository.soft_delete example_user 2000 example_user_store = Ok (deleted, st1)
      /\ @AuthService.authenticate example_security "ada@example.com" "secret" 1000 st1
         = Raise (HTTPException HTTP_401_UNAUTHORIZED "Invalid credentials"))
  /\ @AuthService.authenticate example_security "nobody@example.com" "secret" 1000
       example_user_store
     = Raise (HTTPException HTTP_401_UNAUTHORIZED "Invalid credentials").
Proof.
  destruct (@login_follows_user_lifecycle example_security example_user_store
              example_user "secret" 1000 2000)
    as ((deleted & st1 & Hdel & Hauth & _) & _ & _ & _ & Hunknown & _).
  - unfold user_ids_unique; simpl. repeat constructor. simpl; tauto.
  - unfold user_emails_unique; simpl. repeat constructor. simpl; tauto.
  - simpl; tauto.
  - reflexivity.
  - split; [exists deleted, st1; split; assumption|].
    apply Hunknown. simpl. intros x [<-|[]]. simpl. discriminate.
Defined.


